(** * 42-coin: kernel records, wallet RPC bookkeeping and the STUN probe walk

    A shallow embedding of the parts of [kernelrecord.cpp], [rpcwallet.cpp]
    and [stun.cpp] that the specification makes claims about.  Machine
    integers of the C++ code are [Z] with the wrap-around written out,
    exceptions are a sum type, and the threads of the wallet relocker are a
    step function over an explicit system state.

    The first part of the file holds the definitions, module by module; the
    second part holds the theorems. *)

From Stdlib Require Import ZArith Lia Bool List Sorted.
From Stdlib.Strings Require Byte.
From stdpp Require Import base list strings gmap.
Import ListNotations.

Local Open Scope Z_scope.
Local Set Warnings "-register-all".

(** * Part I: the program *)

(** ** Fixed-width integers *)

Module Int.

(** [int64_t]: two's complement wrap-around. *)
Definition wrap64 (z : Z) : Z := (z + 2 ^ 63) mod 2 ^ 64 - 2 ^ 63.

(** [uint64_t]. *)
Definition wrapu64 (z : Z) : Z := z mod 2 ^ 64.

(** [int] (32 bits). *)
Definition wrap32 (z : Z) : Z := (z + 2 ^ 31) mod 2 ^ 32 - 2 ^ 31.

(** [uint16_t]. *)
Definition wrapu16 (z : Z) : Z := z mod 2 ^ 16.

Definition in_int64 (z : Z) : Prop := - 2 ^ 63 <= z < 2 ^ 63.

Definition in_int32 (z : Z) : Prop := - 2 ^ 31 <= z < 2 ^ 31.

Definition in_uint64 (z : Z) : Prop := 0 <= z < 2 ^ 64.

End Int.

(** ** JSON values and RPC errors ([json_spirit], [bitcoinrpc.h]) *)

Module Rpc.

(** The error codes [rpcwallet.cpp] throws.  Their numeric values live in
    [bitcoinrpc.h]; the code at hand only names them, except for the literal
    [-101]. *)
Inductive RPCErrorCode :=
| RPC_INVALID_PARAMETER
| RPC_INVALID_ADDRESS_OR_KEY
| RPC_DATABASE_ERROR
| RPC_WALLET_ERROR
| RPC_WALLET_INSUFFICIENT_FUNDS
| RPC_WALLET_INVALID_ACCOUNT_NAME
| RPC_WALLET_UNLOCK_NEEDED
| RPC_WALLET_PASSPHRASE_INCORRECT
| RPC_WALLET_WRONG_ENC_STATE
| RPC_WALLET_ALREADY_UNLOCKED
| RPC_LITERAL (code : Z).

(** What an RPC handler can throw: [JSONRPCError(code, message)] or a
    [std::runtime_error] (the usage text, or a json_spirit type error). *)
Inductive Exception :=
| JSONRPCError (code : RPCErrorCode) (message : string)
| runtime_error (what : string).

Definition Result (A : Type) : Type := (Exception + A)%type.

Definition throw {A : Type} (e : Exception) : Result A := inl e.

Definition ok {A : Type} (a : A) : Result A := inr a.

Definition bind {A B : Type} (c : Result A) (k : A -> Result B) : Result B :=
  match c with
  | inl e => inl e
  | inr a => k a
  end.

Definition is_thrown {A : Type} (c : Result A) : Prop :=
  exists e, c = inl e.

(** [json_spirit::Value]. *)
Inductive Value :=
| null_type
| str_type (s : string)
| int_type (z : Z)
| bool_type (b : bool)
| obj_type (members : list (string * Value))
| array_type (elements : list Value).

(** A json_spirit accessor on a value of another type throws a
    [std::runtime_error]. *)
Definition type_error : Exception := runtime_error "value type mismatch".

Definition get_str (v : Value) : Result string :=
  match v with str_type s => ok s | _ => throw type_error end.

(** [get_int64]: the stored 64-bit integer as it is. *)
Definition get_int (v : Value) : Result Z :=
  match v with int_type z => ok z | _ => throw type_error end.

(** json_spirit's [get_int] narrows the stored 64-bit integer to [int]. *)
Definition get_int32 (v : Value) : Result Z :=
  bind (get_int v) (fun z => ok (Int.wrap32 z)).

Definition get_bool (v : Value) : Result bool :=
  match v with bool_type b => ok b | _ => throw type_error end.

Definition get_obj (v : Value) : Result (list (string * Value)) :=
  match v with obj_type o => ok o | _ => throw type_error end.

(** [params[i]] for an index the handler has checked to be in range. *)
Definition at_ (params : list Value) (i : nat) : Value :=
  nth i params null_type.

(** [std::string AccountFromValue(const Value& value)] *)
Definition AccountFromValue (value : Value) : Result string :=
  bind (get_str value) (fun strAccount =>
  if String.eqb strAccount "*"
  then throw (JSONRPCError RPC_WALLET_INVALID_ACCOUNT_NAME "Invalid account name")
  else ok strAccount).

End Rpc.

Notation "'rpc' x ':=' c 'in' k" := (Rpc.bind c (fun x => k))
  (at level 10, x name, c at level 100, k at level 200).

(** ** Kernel records ([kernelrecord.h], [kernelrecord.cpp]) *)

Module Kernel.
Import Int.

(** The fields of [class KernelRecord]; the floating-point probability cache
    ([prevMinutes], [prevDifficulty], [prevProbability]) plays no part in
    the integer helpers below and is left out. *)
Record KernelRecord := mkKernelRecord {
  hash : Z;
  nTime : Z;
  address : string;
  nValue : Z;
  idx : Z;
  spent : bool
}.

(** [KernelRecord(uint256 hash, int64_t nTime, const std::string &address,
    int64_t nValue, bool spent)] *)
Definition KernelRecord_new (h t : Z) (a : string) (v : Z) (s : bool)
  : KernelRecord :=
  mkKernelRecord h t a v 0 s.

Section Helpers.

(** Network constants declared outside the files at hand ([util.h],
    [main.h]): [COIN], [nOneDay], [nStakeMinAge], [nStakeMaxAge], and the
    reward schedule [GetProofOfStakeReward]. *)
Variables (COIN nOneDay nStakeMinAge nStakeMaxAge : Z).
Variable GetProofOfStakeReward : Z -> Z.

(** [int64_t KernelRecord::getAge() const]; [now] is [GetAdjustedTime()]. *)
Definition getAge (now : Z) (r : KernelRecord) : Z :=
  Z.quot (wrap64 (now - nTime r)) nOneDay.

(** [uint64_t KernelRecord::getCoinDay() const] *)
Definition getCoinDay (now : Z) (r : KernelRecord) : Z :=
  let nWeight := wrap64 (wrap64 (now - nTime r) - nStakeMinAge) in
  if nWeight <? 0 then 0
  else
    let nWeight := Z.min nWeight nStakeMaxAge in
    wrapu64 (Z.quot (wrap64 (nValue r * nWeight)) (wrap64 (COIN * nOneDay))).


(** The clamped weight that [getCoinDay] uses, in unbounded arithmetic. *)
Definition clampedWeight (now : Z) (r : KernelRecord) : Z :=
  Z.min (Z.max (now - nTime r - nStakeMinAge) 0) nStakeMaxAge.

(** The clamped weight as the specification words it. *)
Definition specClampedWeight (now : Z) (r : KernelRecord) : Z :=
  Z.min (Z.max (now - nTime r - nStakeMinAge) 0)
        (nStakeMaxAge - nStakeMinAge).

(** The coin-day value as the specification words it. *)
Definition specCoinDay (now : Z) (r : KernelRecord) : Z :=
  nValue r * specClampedWeight now r / (COIN * nOneDay).



(** Conditions on the constants: positive units whose product fits an
    [int64_t], and stake ages that fit an [unsigned int]. *)
Definition params_ok : Prop :=
  0 < COIN /\ 0 < nOneDay /\ COIN * nOneDay < 2 ^ 63 /\
  0 <= nStakeMinAge < 2 ^ 32 /\ 0 <= nStakeMaxAge < 2 ^ 32.

(** Timestamps are seconds since the epoch, far from the [int64_t] limits. *)
Definition time_ok (t : Z) : Prop := 0 <= t < 2 ^ 62.

(** Amounts are non-negative, and small enough for the product with a
    weight of at most [bound] seconds to fit an [int64_t]. *)
Definition value_ok (bound v : Z) : Prop :=
  0 <= v /\ v * bound < 2 ^ 63.




End Helpers.

Definition with_nTime (r : KernelRecord) (t : Z) : KernelRecord :=
  mkKernelRecord (hash r) t (address r) (nValue r) (idx r) (spent r).

(** The constants the examples use: [COIN] and [ONE_DAY] as the glossary
    gives them, and stake ages of 30 and 90 days. *)
Definition COIN_ex : Z := 100000000.
Definition nOneDay_ex : Z := 86400.
Definition nStakeMinAge_ex : Z := 30 * 86400.
Definition nStakeMaxAge_ex : Z := 90 * 86400.
Definition now_ex : Z := 1700000000.

(** A record worth 100 coins that was created [age] seconds before
    [now_ex]. *)
Definition record_ex (age : Z) : KernelRecord :=
  KernelRecord_new 0 (now_ex - age) EmptyString (100 * COIN_ex) false.

End Kernel.

(** ** Account balances and [move] ([rpcwallet.cpp]) *)

Module Accounting.
Import Int Rpc.

(** [isminefilter]: the two ownership bits the wallet RPCs combine
    ([MINE_SPENDABLE], [MINE_WATCH_ONLY]). *)
Record isminefilter := mkFilter {
  spendable : bool;
  watch_only : bool
}.

Definition MINE_SPENDABLE : isminefilter := mkFilter true false.

(** [filter | MINE_WATCH_ONLY] *)
Definition or_MINE_WATCH_ONLY (f : isminefilter) : isminefilter :=
  mkFilter (spendable f) true.

(** [class CAccountingEntry] *)
Record CAccountingEntry := mkEntry {
  nOrderPos : Z;
  strAccount : string;
  nCreditDebit : Z;
  nTime : Z;
  strOtherAccount : string;
  strComment : string
}.

(** What [CWalletTx::GetAccountAmounts] hands back through its four
    reference parameters. *)
Record AccountAmounts := mkAmounts {
  nGenerated : Z;
  nReceived : Z;
  nSent : Z;
  nFee : Z
}.

(** A wallet transaction as the balance tally sees it.  [GetAccountAmounts]
    is implemented in [wallet.cpp]; here it is a field of the transaction. *)
Record CWalletTx := mkWalletTx {
  IsFinal : bool;
  GetDepthInMainChain : Z;
  GetAccountAmounts : string -> isminefilter -> AccountAmounts
}.

(** The wallet state that [move] and the balance RPCs touch: the values of
    [mapWallet] in iteration order, the accounting entries stored in the
    wallet database, and the order-position counter. *)
Record Wallet := mkWallet {
  mapWallet : list CWalletTx;
  acentries : list CAccountingEntry;
  nOrderPosNext : Z
}.

(** The signed sum of a run of accounting entries, in [int64_t]. *)
Definition entries_sum (l : list CAccountingEntry) : Z :=
  fold_left (fun acc e => wrap64 (acc + nCreditDebit e)) l 0.

(** Modelled from the spec: [CWalletDB::GetAccountCreditDebit] is in
    [walletdb.cpp]; it adds up the signed accounting entries of the
    account. *)
Definition GetAccountCreditDebit (w : Wallet) (account : string) : Z :=
  entries_sum
    (List.filter (fun e => String.eqb (strAccount e) account) (acentries w)).

(** The body of the tally loop of [GetAccountBalance]. *)
Definition tally (account : string) (nMinDepth : Z) (filter : isminefilter)
    (nBalance : Z) (wtx : CWalletTx) : Z :=
  if negb (IsFinal wtx) then nBalance
  else
    let a := GetAccountAmounts wtx account filter in
    let nBalance :=
      if negb (nReceived a =? 0) && (GetDepthInMainChain wtx >=? nMinDepth)
      then wrap64 (nBalance + nReceived a)
      else nBalance in
    wrap64 (nBalance + wrap64 (wrap64 (nGenerated a - nSent a) - nFee a)).

(** [int64_t GetAccountBalance(CWalletDB& walletdb, const std::string&
    strAccount, int nMinDepth, const isminefilter& filter)] *)
Definition GetAccountBalance (w : Wallet) (account : string) (nMinDepth : Z)
    (filter : isminefilter) : Z :=
  let nBalance := fold_left (tally account nMinDepth filter) (mapWallet w) 0 in
  wrap64 (nBalance + GetAccountCreditDebit w account).

(** Modelled from the spec: [CWallet::IncOrderPosNext] is in [wallet.cpp];
    order positions are handed out from a monotone global counter. *)
Definition IncOrderPosNext (w : Wallet) : Z * Wallet :=
  (nOrderPosNext w,
   mkWallet (mapWallet w) (acentries w) (wrap64 (nOrderPosNext w + 1))).

(** Modelled from the spec: [CWalletDB::WriteAccountingEntry] is in
    [walletdb.cpp]; it stores the entry under (account, order position). *)
Definition WriteAccountingEntry (e : CAccountingEntry) (w : Wallet) : Wallet :=
  mkWallet (mapWallet w) (acentries w ++ [e]) (nOrderPosNext w).

(** Whether the database transaction of one [move] call opens and commits. *)
Record DbEnv := mkDb {
  TxnBegin : bool;
  TxnCommit : bool
}.

Definition db_ok : DbEnv := mkDb true true.

Definition movecmd_usage : string :=
  "move <fromaccount> <toaccount> <amount> [minconf=1] [comment]".

Section Move.

(** [AmountFromValue] is in [bitcoinrpc.cpp] and [nMinimumInputValue] in
    [main.h]. *)
Variable AmountFromValue : Value -> Result Z.
Variable nMinimumInputValue : Z.

(** The argument checks of [movecmd], up to the database transaction. *)
Definition movecmd_args (params : list Value) (fHelp : bool)
  : Result (string * string * Z * string) :=
  if fHelp || (length params <? 3)%nat || (5 <? length params)%nat
  then throw (runtime_error movecmd_usage)
  else
    rpc strFrom := AccountFromValue (at_ params 0) in
    rpc strTo := AccountFromValue (at_ params 1) in
    rpc nAmount := AmountFromValue (at_ params 2) in
    if nAmount <? nMinimumInputValue
    then throw (JSONRPCError (RPC_LITERAL (-101)) "Send amount too small")
    else
      rpc unused := (if (3 <? length params)%nat
                     then get_int (at_ params 3) else ok 0) in
      rpc comment := (if (4 <? length params)%nat
                      then get_str (at_ params 4) else ok EmptyString) in
      ok (strFrom, strTo, nAmount, comment).

(** [Value movecmd(const Array& params, bool fHelp)]; [nNow] is
    [GetAdjustedTime()].  A failed commit leaves the stored entries as they
    were; the in-memory order counter has advanced all the same. *)
Definition movecmd (db : DbEnv) (nNow : Z) (w : Wallet)
    (params : list Value) (fHelp : bool) : Result Value * Wallet :=
  match movecmd_args params fHelp with
  | inl e => (inl e, w)
  | inr (strFrom, strTo, nAmount, comment) =>
    if negb (TxnBegin db)
    then (throw (JSONRPCError RPC_DATABASE_ERROR "database error"), w)
    else
      let '(pos1, w1) := IncOrderPosNext w in
      let debit := mkEntry pos1 strFrom (wrap64 (- nAmount)) nNow strTo comment in
      let w2 := WriteAccountingEntry debit w1 in
      let '(pos2, w3) := IncOrderPosNext w2 in
      let credit := mkEntry pos2 strTo nAmount nNow strFrom comment in
      let w4 := WriteAccountingEntry credit w3 in
      if negb (TxnCommit db)
      then (throw (JSONRPCError RPC_DATABASE_ERROR "database error"),
            mkWallet (mapWallet w) (acentries w) (nOrderPosNext w4))
      else (ok (bool_type true), w4)
  end.

End Move.

(** The wallet of the example: one final, confirmed transaction that
    credits 50 coins to account A, no accounting entries yet. *)
Definition COIN_ex : Z := 100000000.

Definition credit_A : CWalletTx :=
  mkWalletTx true 1
    (fun account _ =>
       if String.eqb account "A" then mkAmounts 0 (50 * COIN_ex) 0 0
       else mkAmounts 0 0 0 0).

Definition wallet_ex : Wallet := mkWallet [credit_A] [] 0.

(** Amounts of the example are whole coins. *)
Definition AmountFromValue_ex (v : Value) : Result Z :=
  rpc n := get_int v in ok (n * COIN_ex).

Definition move_ex (w : Wallet) (a b : string) (n : Z) : Result Value * Wallet :=
  movecmd AmountFromValue_ex 1 db_ok 1700000000 w
          [str_type a; str_type b; int_type n] false.

(** The wallet after [move A B 20], and after [move B A 20] on top. *)
Definition wallet_ex1 : Wallet := snd (move_ex wallet_ex "A" "B" 20).

Definition wallet_ex2 : Wallet := snd (move_ex wallet_ex1 "B" "A" 20).

End Accounting.

(** ** [sendmany] ([rpcwallet.cpp]) *)

Module SendMany.
Import Int Rpc.

Definition sendmany_usage : string :=
  "sendmany <fromaccount> '{address:amount,...}' [minconf=1] [comment]".

Section SendMany.

(** [CBitcoinAddress] is declared in [base58.h]: the values it decodes to,
    the constructor from a string, and the two predicates the loop asks. *)
Context {Address : Type} `{Countable Address}.
Variable CBitcoinAddress : string -> Address.
Variable IsValid : Address -> bool.
Variable IsPair : Address -> bool.
Variable AmountFromValue : Value -> Result Z.
Variable nMinimumInputValue : Z.

(** The wallet as [sendmany] meets it after its argument loop. *)
Record WalletEnv := mkEnv {
  wallet : Accounting.Wallet;
  IsLocked : bool;
  fWalletUnlockMintOnly : bool;
  (** [CreateTransaction]: whether it succeeded, and [nFeeRequired]. *)
  CreateTransaction : list (Address * Z) -> bool * Z;
  CommitTransaction : bool;
  GetBalance : Z;
  GetWatchOnlyBalance : Z;
  (** [wtx.GetHash().GetHex()] of the transaction created. *)
  GetHex : list (Address * Z) -> string
}.

(** [void EnsureWalletIsUnlocked()] *)
Definition EnsureWalletIsUnlocked (env : WalletEnv) : Result unit :=
  if IsLocked env
  then throw (JSONRPCError RPC_WALLET_UNLOCK_NEEDED
    "Error: Please enter the wallet passphrase with walletpassphrase first.")
  else if fWalletUnlockMintOnly env
  then throw (JSONRPCError RPC_WALLET_UNLOCK_NEEDED
    "Error: Wallet unlocked for block minting only.")
  else ok tt.

(** The state the loop over [sendTo] carries: [setAddress], [vecSend] and
    [totalAmount]. *)
Definition LoopState : Type := (gset Address * list (Address * Z) * Z)%type.

Definition loop_init : LoopState := (∅, [], 0).


(** One iteration of [for (const Pair& s : sendTo)]. *)
Definition sendmany_step (st : LoopState) (s : string * Value)
  : Result LoopState :=
  let '(setAddress, vecSend, totalAmount) := st in
  let '(name_, value_) := s in
  let address := CBitcoinAddress name_ in
  if negb (IsValid address)
  then throw (JSONRPCError RPC_INVALID_ADDRESS_OR_KEY
                (String.append "Invalid 42 address: " name_))
  else
    rpc setAddress :=
      (if negb (IsPair address)
       then if decide (address ∈ setAddress)
            then throw (JSONRPCError RPC_INVALID_PARAMETER
              (String.append "Invalid parameter, duplicated address: " name_))
            else ok ({[ address ]} ∪ setAddress)
       else ok setAddress) in
    rpc nAmount := AmountFromValue value_ in
    if nAmount <? nMinimumInputValue
    then throw (JSONRPCError (RPC_LITERAL (-101)) "Send amount too small")
    else ok (setAddress, vecSend ++ [(address, nAmount)],
             wrap64 (totalAmount + nAmount)).

Fixpoint sendmany_loop (sendTo : list (string * Value)) (st : LoopState)
  : Result LoopState :=
  match sendTo with
  | [] => ok st
  | s :: rest =>
    rpc st' := sendmany_step st s in
    sendmany_loop rest st'
  end.

(** The part of [sendmany] that runs before the wallet is asked for
    anything: the argument checks and the loop over the destinations. *)
Definition sendmany_args (params : list Value) (fHelp : bool)
  : Result (string * Z * string * LoopState) :=
  if fHelp || (length params <? 2)%nat || (4 <? length params)%nat
  then throw (runtime_error sendmany_usage)
  else
    rpc account := AccountFromValue (at_ params 0) in
    rpc sendTo := get_obj (at_ params 1) in
    rpc nMinDepth := (if (2 <? length params)%nat
                      then get_int32 (at_ params 2) else ok 1) in
    rpc comment := (if (3 <? length params)%nat
                    then match at_ params 3 with
                         | null_type => ok EmptyString
                         | v => get_str v
                         end
                    else ok EmptyString) in
    rpc st := sendmany_loop sendTo loop_init in
    ok (account, nMinDepth, comment, st).

(** [Value sendmany(const Array& params, bool fHelp)] *)
Definition sendmany (env : WalletEnv) (params : list Value) (fHelp : bool)
  : Result Value :=
  rpc args := sendmany_args params fHelp in
  let '(account, nMinDepth, comment, (setAddress, vecSend, totalAmount)) := args in
  rpc unlocked := EnsureWalletIsUnlocked env in
  let nBalance :=
    Accounting.GetAccountBalance (wallet env) account nMinDepth
                                 Accounting.MINE_SPENDABLE in
  if totalAmount >? nBalance
  then throw (JSONRPCError RPC_WALLET_INSUFFICIENT_FUNDS
                "Account has insufficient funds")
  else
    let '(fCreated, nFeeRequired) := CreateTransaction env vecSend in
    if negb fCreated
    then
      if wrap64 (totalAmount + nFeeRequired)
           >? wrap64 (GetBalance env - GetWatchOnlyBalance env)
      then throw (JSONRPCError RPC_WALLET_INSUFFICIENT_FUNDS "Insufficient funds")
      else throw (JSONRPCError RPC_WALLET_ERROR "Transaction creation failed")
    else if negb (CommitTransaction env)
    then throw (JSONRPCError RPC_WALLET_ERROR "Transaction commit failed")
    else ok (str_type (GetHex env vecSend)).


End SendMany.

(** The example: addresses are their own strings, every one of them valid
    and none a key pair; amounts are whole coins; the wallet is unlocked
    and would create and commit any transaction. *)
Definition AmountFromValue_ex (v : Value) : Result Z :=
  rpc n := get_int v in ok (n * 100000000).




End SendMany.

(** ** Unlocking and relocking the wallet ([rpcwallet.cpp]) *)

Module Relock.
Import Int Rpc.

(** The encryption state of [pwalletMain]. *)
Record CWallet := mkCWallet {
  IsCrypted : bool;
  IsLocked : bool;
  (** the passphrase that decrypts the master key *)
  strMasterPass : string
}.

(** Modelled from the spec: [CCryptoKeyStore::Lock] is in [keystore.cpp];
    it drops the decrypted keys of an encrypted wallet. *)
Definition Lock (w : CWallet) : CWallet :=
  if IsCrypted w then mkCWallet true true (strMasterPass w) else w.

(** Modelled from the spec: [CWallet::Unlock] is in [wallet.cpp]; it
    succeeds when the passphrase decrypts the master key. *)
Definition Unlock (w : CWallet) (strWalletPass : string) : bool * CWallet :=
  if IsCrypted w && String.eqb strWalletPass (strMasterPass w)
  then (true, mkCWallet true false (strMasterPass w))
  else (false, w).

(** Where a [ThreadCleanWalletPassphrase] thread stands.  The blocks it runs
    while holding [cs_nWalletUnlockTime] are atomic; it gives the lock up
    only for [Sleep]. *)
Inductive Worker :=
| Spawned (parg : Z)         (* created, has not read the clock yet *)
| Entering (nMyWakeTime : Z) (* about to ENTER_CRITICAL_SECTION *)
| Sleeping (wake : Z)        (* inside Sleep(nToSleep), lock released *)
| Finished.

Definition alive (t : Worker) : bool :=
  match t with Finished => false | _ => true end.

(** The globals of [rpcwallet.cpp] together with the threads it started. *)
Record Sys := mkSys {
  pwalletMain : CWallet;
  nWalletUnlockTime : Z;
  fWalletUnlockMintOnly : bool;
  relockers : list Worker;
  (** how many [ThreadTopUpKeyPool] threads were started *)
  topups : nat
}.

Definition set_wallet (s : Sys) (w : CWallet) : Sys :=
  mkSys w (nWalletUnlockTime s) (fWalletUnlockMintOnly s) (relockers s) (topups s).

Definition set_unlock_time (s : Sys) (t : Z) : Sys :=
  mkSys (pwalletMain s) t (fWalletUnlockMintOnly s) (relockers s) (topups s).

Definition set_mint_only (s : Sys) (b : bool) : Sys :=
  mkSys (pwalletMain s) (nWalletUnlockTime s) b (relockers s) (topups s).

Definition set_relockers (s : Sys) (l : list Worker) : Sys :=
  mkSys (pwalletMain s) (nWalletUnlockTime s) (fWalletUnlockMintOnly s) l (topups s).

Definition spawn_topup (s : Sys) : Sys :=
  mkSys (pwalletMain s) (nWalletUnlockTime s) (fWalletUnlockMintOnly s)
        (relockers s) (S (topups s)).

Definition alive_relockers (s : Sys) : nat :=
  length (List.filter alive (relockers s)).

Definition walletpassphrase_usage : string :=
  "walletpassphrase <passphrase> <timeout> [mintonly]".

Definition walletpassphrase_usage2 : string :=
  "walletpassphrase <passphrase> <timeout>".

Definition walletlock_usage : string := "walletlock".

Definition already_unlocked : Exception :=
  JSONRPCError RPC_WALLET_ALREADY_UNLOCKED
    "Error: Wallet is already unlocked, use walletlock first if need to change unlock settings.".

(** [std::string::c_str()] read back as a C string: the characters up to
    the first NUL. *)
Fixpoint c_str (s : string) : string :=
  match s with
  | EmptyString => EmptyString
  | String c rest =>
    if Ascii.eqb c Ascii.zero then EmptyString else String c (c_str rest)
  end.

(** [Value walletpassphrase(const Array& params, bool fHelp)] *)
Definition walletpassphrase (s : Sys) (params : list Value) (fHelp : bool)
  : Result Value * Sys :=
  let w := pwalletMain s in
  if IsCrypted w && (fHelp || (length params <? 2)%nat || (3 <? length params)%nat)
  then (throw (runtime_error walletpassphrase_usage), s)
  else if fHelp then (ok (bool_type true), s)
  else if negb (IsCrypted w)
  then (throw (JSONRPCError RPC_WALLET_WRONG_ENC_STATE
    "Error: running with an unencrypted wallet, but walletpassphrase was called."), s)
  else if negb (IsLocked w) then (throw already_unlocked, s)
  else
    match get_str (at_ params 0) with
    | inl e => (inl e, s)
    | inr str =>
      let strWalletPass := c_str str in
      if (0 <? String.length strWalletPass)%nat
      then
        let '(fOk, w') := Unlock w strWalletPass in
        if negb fOk
        then (throw (JSONRPCError RPC_WALLET_PASSPHRASE_INCORRECT
                "Error: The wallet passphrase entered was incorrect."), s)
        else
          let s1 := spawn_topup (set_wallet s w') in
          match get_int (at_ params 1) with
          | inl e => (inl e, s1)
          | inr nSleepTime =>
            let s2 := set_relockers s1 (relockers s1 ++ [Spawned nSleepTime]) in
            if (2 <? length params)%nat
            then match get_bool (at_ params 2) with
                 | inl e => (inl e, s2)
                 | inr b => (ok null_type, set_mint_only s2 b)
                 end
            else (ok null_type, set_mint_only s2 false)
          end
      else (throw (runtime_error walletpassphrase_usage2), s)
    end.

(** [Value walletlock(const Array& params, bool fHelp)] *)
Definition walletlock (s : Sys) (params : list Value) (fHelp : bool)
  : Result Value * Sys :=
  let w := pwalletMain s in
  if IsCrypted w && (fHelp || negb (length params =? 0)%nat)
  then (throw (runtime_error walletlock_usage), s)
  else if fHelp then (ok (bool_type true), s)
  else if negb (IsCrypted w)
  then (throw (JSONRPCError RPC_WALLET_WRONG_ENC_STATE
    "Error: running with an unencrypted wallet, but walletlock was called."), s)
  else (ok null_type, set_unlock_time (set_wallet s (Lock w)) 0).

(** The tail of [ThreadCleanWalletPassphrase] after its [for] loop:
    relock unless somebody else already did. *)
Definition relock_finish (s : Sys) : Sys :=
  if negb (nWalletUnlockTime s =? 0)
  then set_wallet (set_unlock_time s 0) (Lock (pwalletMain s))
  else s.

(** One pass through the head of the [for ( ; ; )] loop at time [now]:
    either the loop is left and the thread finishes, or it goes to sleep. *)
Definition relock_loop (now : Z) (s : Sys) : Sys * Worker :=
  if nWalletUnlockTime s =? 0 then (relock_finish s, Finished)
  else
    let nToSleep := wrap64 (nWalletUnlockTime s - now) in
    if nToSleep <=? 0 then (relock_finish s, Finished)
    else (s, Sleeping (now + nToSleep)).

(** The next atomic block of a relocking thread at time [now]
    ([GetTimeMillis()]); [None] when the thread cannot move. *)
Definition worker_step (now : Z) (s : Sys) (t : Worker) : option (Sys * Worker) :=
  match t with
  | Spawned parg => Some (s, Entering (wrap64 (now + wrap64 (parg * 1000))))
  | Entering nMyWakeTime =>
    if nWalletUnlockTime s =? 0
    then Some (relock_loop now (set_unlock_time s nMyWakeTime))
    else if nWalletUnlockTime s <? nMyWakeTime
    then Some (set_unlock_time s nMyWakeTime, Finished)
    else Some (s, Finished)
  | Sleeping wake =>
    if wake <=? now then Some (relock_loop now s) else None
  | Finished => None
  end.

(** What can happen to the system: an RPC call arrives, or the scheduler
    lets relocking thread number [i] run its next block. *)
Inductive Event :=
| Call_walletpassphrase (params : list Value)
| Call_walletlock
| Run (i : nat).

(** One event at time [now]; the RPC result, if any, is handed back. *)
Definition step (now : Z) (ev : Event) (s : Sys)
  : option (option (Result Value) * Sys) :=
  match ev with
  | Call_walletpassphrase params =>
    let '(r, s') := walletpassphrase s params false in Some (Some r, s')
  | Call_walletlock =>
    let '(r, s') := walletlock s [] false in Some (Some r, s')
  | Run i =>
    match relockers s !! i with
    | None => None
    | Some t =>
      match worker_step now s t with
      | None => None
      | Some (s', t') =>
        Some (None, set_relockers s' (<[i := t']> (relockers s')))
      end
    end
  end.

(** A schedule is a list of timed events; [run] replays it and collects the
    RPC results. *)
Fixpoint run (sched : list (Z * Event)) (s : Sys)
  : option (list (Result Value) * Sys) :=
  match sched with
  | [] => Some ([], s)
  | (now, ev) :: rest =>
    match step now ev s with
    | None => None
    | Some (r, s') =>
      match run rest s' with
      | None => None
      | Some (rs, s'') =>
        Some (match r with Some x => x :: rs | None => rs end, s'')
      end
    end
  end.

(** An encrypted, locked wallet with passphrase [p] and no relock pending. *)
Definition locked_wallet (p : string) : Sys :=
  mkSys (mkCWallet true true p) 0 false [] 0.

(** The example schedules; the clock is in milliseconds and starts at
    [t0]. *)
Definition t0 : Z := 1000000.

(** An unlocked wallet whose relocking thread sleeps until [t0 + 10 s]. *)
Definition unlocked_ex : Sys :=
  mkSys (mkCWallet true false "p") (t0 + 10000) true
        [Sleeping (t0 + 10000)] 1.

Definition unlock_call (p : string) (timeout : Z) : Event :=
  Call_walletpassphrase [str_type p; int_type timeout].

(** [walletpassphrase(p, 10)], the relocking thread runs up to its sleep,
    then [walletpassphrase(p, 30)] three seconds later. *)
Definition schedule_S5_calls : list (Z * Event) :=
  [(t0, unlock_call "p" 10); (t0, Run 0%nat); (t0, Run 0%nat);
   (t0 + 3000, unlock_call "p" 30)].

(** ... and the relocking thread wakes ten seconds after the first call. *)
Definition schedule_S5 : list (Z * Event) :=
  schedule_S5_calls ++ [(t0 + 10000, Run 0%nat)].

(** Unlock, lock by hand, unlock again: the first thread is still asleep
    when the second one goes to sleep. *)
Definition schedule_two_sleepers : list (Z * Event) :=
  [(t0, unlock_call "p" 100); (t0, Run 0%nat); (t0, Run 0%nat);
   (t0 + 1000, Call_walletlock);
   (t0 + 2000, unlock_call "p" 100); (t0 + 2000, Run 1%nat);
   (t0 + 2000, Run 1%nat)].

(** Unlock, lock and unlock again before the first thread has run: the
    second thread finds the first one's deadline and extends it. *)
Definition schedule_extend : list (Z * Event) :=
  [(t0, unlock_call "p" 10); (t0 + 1, Call_walletlock);
   (t0 + 2, unlock_call "p" 30);
   (t0 + 3, Run 0%nat); (t0 + 3, Run 0%nat); (t0 + 4, Run 1%nat)].

End Relock.

(** ** [listsinceblock] ([rpcwallet.cpp]) *)

Module ListSince.
Import Int Rpc.

(** [class CBlockIndex], as far as [listsinceblock] reads it. *)
Record CBlockIndex := mkIndex {
  nHeight : Z;
  GetBlockHash : Z
}.

Record CWalletTx := mkTx {
  GetTxid : Z;
  GetDepthInMainChain : Z
}.

(** The chain globals: the best chain from [pindexBest] back along [pprev]
    to the genesis block, [nBestHeight] and [hashBestChain]. *)
Record ChainState := mkChain {
  bestChain : list CBlockIndex;
  nBestHeight : Z;
  hashBestChain : Z
}.

(** The loop [for (block = pindexBest; block && block->nHeight >
    target_height; block = block->pprev) { }]. *)
Fixpoint walk_back (chain : list CBlockIndex) (target_height : Z)
  : option CBlockIndex :=
  match chain with
  | [] => None
  | block :: pprev =>
    if nHeight block >? target_height
    then walk_back pprev target_height
    else Some block
  end.

(** Modelled from the spec: [CBlockLocator(hash).GetBlockIndex()] is in
    [main.h]; it yields the index of the main-chain block the hash names,
    and the genesis block when the hash names no known block. *)
Definition GetBlockIndex (c : ChainState) (blockId : Z) : option CBlockIndex :=
  match List.find (fun b => GetBlockHash b =? blockId) (bestChain c) with
  | Some b => Some b
  | None => last (bestChain c)
  end.

Definition listsinceblock_usage : string :=
  "listsinceblock [blockhash] [target-confirmations]".

Record SinceResult (Row : Type) := mkSince {
  transactions : list Row;
  lastblock : Z
}.

Arguments mkSince {Row} _ _.
Arguments transactions {Row} _.
Arguments lastblock {Row} _.

Section ListSince.

(** [ListTransactions] turns one wallet transaction into rows through
    [CWalletTx::GetAmounts] of [wallet.cpp]; [uint256::SetHex] is in
    [uint256.h]. *)
Variable Row : Type.
Variable ListTransactions :
  CWalletTx -> string -> Z -> bool -> Accounting.isminefilter -> list Row.
Variable SetHex : string -> Z.

(** The depth bound [listsinceblock] filters with; [-1] stands for no
    bound. *)
Definition since_depth (c : ChainState) (pindex : option CBlockIndex) : Z :=
  match pindex with
  | Some b => wrap32 (wrap32 (1 + nBestHeight c) - nHeight b)
  | None => -1
  end.

Definition selected (depth : Z) (tx : CWalletTx) : bool :=
  (depth =? -1) || (GetDepthInMainChain tx <? depth).

(** The hash [listsinceblock] reports as [lastblock]. *)
Definition last_block (c : ChainState) (target_confirms : Z) : Z :=
  if target_confirms =? 1 then hashBestChain c
  else
    let target_height :=
      wrap32 (wrap32 (match bestChain c with
                      | pindexBest :: _ => nHeight pindexBest
                      | [] => 0
                      end + 1) - target_confirms) in
    match walk_back (bestChain c) target_height with
    | Some block => GetBlockHash block
    | None => 0
    end.

(** [Value listsinceblock(const Array& params, bool fHelp)] *)
Definition listsinceblock (c : ChainState) (mapWallet : list CWalletTx)
    (params : list Value) (fHelp : bool) : Result (SinceResult Row) :=
  if fHelp then throw (runtime_error listsinceblock_usage)
  else
    rpc pindex := (if (0 <? length params)%nat
                   then rpc s := get_str (at_ params 0) in
                        ok (GetBlockIndex c (SetHex s))
                   else ok None) in
    rpc target_confirms :=
      (if (1 <? length params)%nat
       then rpc n := get_int32 (at_ params 1) in
            if n <? 1
            then throw (JSONRPCError RPC_INVALID_PARAMETER "Invalid parameter")
            else ok n
       else ok 1) in
    rpc filter :=
      (if (2 <? length params)%nat
       then rpc b := get_bool (at_ params 2) in
            ok (if b then Accounting.or_MINE_WATCH_ONLY Accounting.MINE_SPENDABLE
                else Accounting.MINE_SPENDABLE)
       else ok Accounting.MINE_SPENDABLE) in
    let depth := since_depth c pindex in
    let transactions :=
      flat_map (fun tx => if selected depth tx
                          then ListTransactions tx "*" 0 true filter
                          else [])
               mapWallet in
    ok (mkSince transactions (last_block c target_confirms)).

End ListSince.

(** Heights run down from [top] to [0] along [pprev]. *)
Fixpoint heights_from (top : Z) (chain : list CBlockIndex) : Prop :=
  match chain with
  | [] => top = -1
  | b :: pprev => nHeight b = top /\ heights_from (top - 1) pprev
  end.

(** A consistent chain state: a non-empty best chain numbered down to the
    genesis block, globals in step with [pindexBest], no hash twice. *)
Definition chain_ok (c : ChainState) : Prop :=
  match bestChain c with
  | [] => False
  | pindexBest :: _ =>
    nBestHeight c = nHeight pindexBest /\
    hashBestChain c = GetBlockHash pindexBest /\
    heights_from (nBestHeight c) (bestChain c) /\
    List.NoDup (map GetBlockHash (bestChain c)) /\
    nBestHeight c < 2 ^ 31 - 1
  end.

(** The example: a chain of three blocks, and a wallet with one
    transaction in each of them. *)
Definition chain_ex : ChainState :=
  mkChain [mkIndex 2 102; mkIndex 1 101; mkIndex 0 100] 2 102.

Definition wallet_ex : list CWalletTx :=
  [mkTx 7 3; mkTx 8 2; mkTx 9 1].

Definition SetHex_ex (s : string) : Z :=
  if String.eqb s "64" then 100
  else if String.eqb s "65" then 101
  else if String.eqb s "66" then 102
  else 0.

Definition ListTransactions_ex (tx : CWalletTx) (account : string)
    (nMinDepth : Z) (fLong : bool) (filter : Accounting.isminefilter)
  : list Z :=
  [GetTxid tx].

Definition listsinceblock_ex (params : list Value)
  : Result (SinceResult Z) :=
  listsinceblock Z ListTransactions_ex SetHex_ex chain_ex wallet_ex params false.

End ListSince.

(** ** The STUN external-address probe ([stun.cpp]) *)

Module Stun.
Import Int.

(** [struct StunSrv] *)
Record StunSrv := mkSrv {
  name : string;
  port : Z
}.

(** [static struct StunSrv StunSrvList[]] *)
Definition StunSrvList : list StunSrv := map (fun p => mkSrv (fst p) (snd p)) [
  ("freestun.net", 3478); ("relay.webwormhole.io", 3478);
  ("stun-01.schulen-fulda.de", 3478); ("stun-02.schulen-fulda.de", 3478);
  ("stun-03.schulen-fulda.de", 3478); ("stun-1.server.yesing.com", 3478);
  ("stun-2nd.relaix.net", 3478); ("stun-a01.isp.t-ipnet.de", 3478);
  ("stun-americas-01.s73cloud.com", 3478);
  ("stun-americas-02.s73cloud.com", 3478);
  ("stun-azure.47billion.com", 3478); ("stun-b1.qq.com", 3478);
  ("stun-de.files.fm", 3478); ("stun-dev.gozeppelin.com", 3478);
  ("stun-neu.levigo.net", 3478); ("stun-one.mabe.at", 3478);
  ("stun-staging.videovisit.io", 3478); ("stun-test.sip5060.net", 3478);
  ("stun-turn.4realstudio.com", 3478);
  ("stun-turn.alta.neopath.com.br", 3478);
  ("stun-turn.demo.ikonixtechnology.com.au", 3478);
  ("stun-turn.federowicz.de", 3478); ("stun-v2.mdtalk.io", 3478);
  ("stun.1-voip.com", 3478); ("stun.12connect.com", 3478);
  ("stun.12voip.com", 3478); ("stun.1und1.de", 3478);
  ("stun.3deluxe.de", 3478); ("stun.3wayint.com", 3478);
  ("stun.5222.de", 3478); ("stun.5sn.com", 3478); ("stun.6clones.net", 3478);
  ("stun.aa.net.uk", 3478); ("stun.aaisp.co.uk", 3478);
  ("stun.abikus.pl", 3478); ("stun.abracontrols.com", 3478);
  ("stun.acquageraci.it", 3478); ("stun.acrobits.cz", 3478);
  ("stun.acronis.com", 3478); ("stun.actionvoip.com", 3478);
  ("stun.admira.com", 3478); ("stun.adorsaz.ch", 3478);
  ("stun.advantic.de", 3478); ("stun.agya.info", 3478);
  ("stun.alabasta.net", 3478); ("stun.alberon.cz", 3478);
  ("stun.allflac.com", 3478); ("stun.alphacron.de", 3478);
  ("stun.alpirsbacher.de", 3478); ("stun.annatel.net", 3478);
  ("stun.anonym.im", 3478); ("stun.antisip.com", 3478);
  ("stun.anura.io", 3478); ("stun.ariso.ch", 3478);
  ("stun.arkh-edu.ru", 3478); ("stun.astimax.de", 3478);
  ("stun.atagverwarming.nl", 3478); ("stun.atlas-stiftung.ch", 3478);
  ("stun.atnd.de", 3478); ("stun.atomicparticles.eu", 3478);
  ("stun.ausproof.com.au", 3478); ("stun.autosystem.com", 3478);
  ("stun.avigora.fr", 3478); ("stun.avmeets.com", 3478);
  ("stun.avoxi.com", 3478); ("stun.awassif.eu", 3478);
  ("stun.axeos.nl", 3478); ("stun.axialys.net", 3478);
  ("stun.b-tel.ir", 3478); ("stun.babelforce.com", 3478);
  ("stun.baltmannsweiler.de", 3478); ("stun.bandmate.international", 3478);
  ("stun.bandyer.com", 3478); ("stun.bankai.de", 3478);
  ("stun.bbb.vikosoz.de", 3478); ("stun.bbb4all.de", 3478);
  ("stun.bbnldevices.in", 3478); ("stun.bbs1emden.org", 3478);
  ("stun.bcs2005.net", 3478); ("stun.beam.software", 3478);
  ("stun.bearstech.com", 3478); ("stun.bergophor.de", 3478);
  ("stun.bernardoprovenzano.net", 3478);
  ("stun.bestvoipreselling.com", 3478); ("stun.bethesda.net", 3478);
  ("stun.betta-security.de", 3478); ("stun.bettfu.com", 3478);
  ("stun.beuth-hochschule.de", 3478); ("stun.bht-berlin.de", 3478);
  ("stun.bisin.de", 3478); ("stun.bitburger.de", 3478);
  ("stun.bluesip.net", 3478); ("stun.bmt.services", 3478);
  ("stun.bnc.net", 3478); ("stun.bnsth.com", 3478);
  ("stun.bomgar.com", 3478); ("stun.boulgour.com", 3478);
  ("stun.bridesbay.com", 3478); ("stun.broadtube.xyz", 3478);
  ("stun.brodowski.org", 3478); ("stun.bsrueti.ch", 3478);
  ("stun.buechertraeume.de", 3478); ("stun.c10r.facebook.com", 3478);
  ("stun.cablenet-as.net", 3478); ("stun.caderize.com", 3478);
  ("stun.call.fr1.hotelservices.online", 3478);
  ("stun.call.netplanet.at", 3478); ("stun.callromania.ro", 3478);
  ("stun.carlovizzini.it", 3478); ("stun.ccc-ffm.de", 3478);
  ("stun.cchgeu.ru", 3478); ("stun.cdn-net.com", 3478);
  ("stun.cdnbye.com", 3478); ("stun.celering.io", 3478);
  ("stun.cellmail.com", 3478); ("stun.chaostreffbern.ch", 3478);
  ("stun.chat.bilibili.com", 3478); ("stun.chat.moh.gov.my", 3478);
  ("stun.chatous.com", 3478); ("stun.cheapvoip.com", 3478);
  ("stun.cibercloud.com.br", 3478); ("stun.circl.lu", 3478);
  ("stun.clickphone.ro", 3478); ("stun.cloud.trizwo.it", 3478);
  ("stun.cnict.org", 3478); ("stun.cnsconnect.nl", 3478);
  ("stun.codepiraten.com", 3478); ("stun.collabora-test.tim.it", 3478);
  ("stun.commandnotfound.org", 3478); ("stun.commpeak.com", 3478);
  ("stun.comrex.com", 3478); ("stun.conactive.de", 3478);
  ("stun.coniservice.de", 3478); ("stun.connectlife.it", 3478);
  ("stun.consistec.de", 3478); ("stun.coolmeet.co", 3478);
  ("stun.cope.es", 3478); ("stun.counterpath.com", 3478);
  ("stun.counterpath.net", 3478); ("stun.countryparksas.com", 3478);
  ("stun.cozact.com", 3478); ("stun.crazycall.com", 3478);
  ("stun.crimeastar.net", 3478); ("stun.csw2020.com.pl", 3478);
  ("stun.ctafauni.it", 3478); ("stun.d.lege.de", 3478);
  ("stun.datajob.de", 3478); ("stun.dataverse.de", 3478);
  ("stun.datenschutz-experten.nrw", 3478); ("stun.dcalling.de", 3478);
  ("stun.dcentralisedmedia.com", 3478); ("stun.deanone.nl", 3478);
  ("stun.deepfinesse.com", 3478); ("stun.defigohome.com", 3478);
  ("stun.der-fetzer.de", 3478); ("stun.deteque.com", 3478);
  ("stun.dgt.lv", 3478); ("stun.dice.tel", 3478);
  ("stun.digitale-reparaturfabrik.com", 3478); ("stun.dint.wroc.pl", 3478);
  ("stun.dls.net", 3478); ("stun.doctivi.com", 3478);
  ("stun.doctoranywhere.mdit.gr", 3478); ("stun.domostroitelnaya.com", 3478);
  ("stun.drogoin.net", 3478); ("stun.drvfst.de", 3478);
  ("stun.dukun.de", 3478); ("stun.dunyatelekom.com", 3478);
  ("stun.dus.net", 3478); ("stun.e-me.edu.gr", 3478);
  ("stun.e.voiceinthecloud.io", 3478); ("stun.easi.live", 3478);
  ("stun.easter-eggs.com", 3478); ("stun.easycallcloud.com", 3478);
  ("stun.easytelecom.se", 3478); ("stun.easyvoip.com", 3478);
  ("stun.ecs-la.com", 3478); ("stun.edvgarbe.de", 3478);
  ("stun.edwin-wiegele.at", 3478); ("stun.eeza.csic.es", 3478);
  ("stun.einfachcallback.de", 3478); ("stun.ekiga.net", 3478);
  ("stun.eleusi.com", 3478); ("stun.elevate.at", 3478);
  ("stun.elitetele.com", 3478); ("stun.engineeredarts.co.uk", 3478);
  ("stun.enthalpy.mx", 3478); ("stun.eol.co.nz", 3478);
  ("stun.eoni.com", 3478); ("stun.epic-bytes.net", 3478);
  ("stun.epygi.com", 3478); ("stun.erl.de", 3478);
  ("stun.erre-elle.net", 3478); ("stun.esprechstunde.net", 3478);
  ("stun.eurosys.be", 3478); ("stun.evgcdn.net", 3478);
  ("stun.exirius.de", 3478); ("stun.eyesoft.fr", 3478);
  ("stun.f.haeder.net", 3478); ("stun.factorify.cz", 3478);
  ("stun.factoryaccess.cloud", 3478); ("stun.fairytel.at", 3478);
  ("stun.fakopats.de", 3478); ("stun.fathomvoice.com", 3478);
  ("stun.fba.accountants", 3478); ("stun.fbsbx.com", 3478);
  ("stun.fc-net.work", 3478); ("stun.files.fm", 3478);
  ("stun.filmplay.live", 3478); ("stun.finanz-forum.biz", 3478);
  ("stun.fitauto.ru", 3478); ("stun.fixup.net", 3478);
  ("stun.fk4.hs-bremen.de", 3478); ("stun.fmo.de", 3478);
  ("stun.foad.me.uk", 3478); ("stun.folia.de", 3478); ("stun.fon.is", 3478);
  ("stun.foncloud.net", 3478); ("stun.framasoft.org", 3478);
  ("stun.freecall.com", 3478); ("stun.freeswitch.org", 3478);
  ("stun.freevoipdeal.com", 3478); ("stun.frozenmountain.com", 3478);
  ("stun.futurasp.es", 3478); ("stun.gadgeteers.net", 3478);
  ("stun.galeriemagnet.at", 3478); ("stun.gazl.co", 3478);
  ("stun.gbmtrade.it", 3478); ("stun.gbtel.ca", 3478);
  ("stun.gectsolutions.com", 3478); ("stun.geesthacht.de", 3478);
  ("stun.gehrmann.vip", 3478); ("stun.genymotion.com", 3478);
  ("stun.geonet.ro", 3478); ("stun.gigaset.net", 3478);
  ("stun.gimeco.it", 3478); ("stun.globenet.org", 3478);
  ("stun.gmx.de", 3478); ("stun.gmx.net", 3478); ("stun.gntel.nl", 3478);
  ("stun.godatenow.com", 3478); ("stun.goldfish.ie", 3478);
  ("stun.gonicus.de", 3478); ("stun.gooodcare.com", 3478);
  ("stun.graftlab.com", 3478); ("stun.grazertrinkwasseringefahr.at", 3478);
  ("stun.greedy-it.de", 3478); ("stun.grunet.de", 3478);
  ("stun.gtov.net", 3478); ("stun.gveh.de", 3478); ("stun.hacklab.fi", 3478);
  ("stun.halloapp.dev", 3478); ("stun.halonet.pl", 3478);
  ("stun.healthtap.com", 3478); ("stun.heeds.eu", 3478);
  ("stun.heldenvz.de", 3478); ("stun.herweck.de", 3478);
  ("stun.hfg-karlsruhe.de", 3478); ("stun.hialabs.com", 3478);
  ("stun.hicare.net", 3478); ("stun.hide.me", 3478); ("stun.hitv.com", 3478);
  ("stun.hivestreaming.com", 3478);
  ("stun.hivestreaming.trafficmanager.net", 3478); ("stun.hoiio.com", 3478);
  ("stun.holocom.cloud", 3478); ("stun.honeycall.com", 3478);
  ("stun.hoolva.com", 3478); ("stun.hopsync.org", 3478);
  ("stun.hot-chilli.net", 3478); ("stun.hubnetweb.org", 3478);
  ("stun.ibi.multiq.com", 3478); ("stun.ictp.it", 3478);
  ("stun.icuconnect.eu", 3478); ("stun.ied.sma.de", 3478);
  ("stun.ifon.pl", 3478); ("stun.ignion.net", 3478);
  ("stun.iiitkottayam.ac.in", 3478); ("stun.ilam.ac.ir", 3478);
  ("stun.ilya.ws", 3478); ("stun.imafex.sk", 3478);
  ("stun.imeeting.com.br", 3478); ("stun.imp.ch", 3478);
  ("stun.impactpbx.com", 3478); ("stun.indisoft.de", 3478);
  ("stun.indycall.com", 3478); ("stun.infra.net", 3478);
  ("stun.insemex.ro", 3478); ("stun.insoftusa.com", 3478);
  ("stun.internetcalls.com", 3478); ("stun.intervoip.com", 3478);
  ("stun.intwizja.pl", 3478); ("stun.inubo.ch", 3478);
  ("stun.inyar.ru", 3478); ("stun.iointegrators.com", 3478);
  ("stun.ionewu.com", 3478); ("stun.iossol.de", 3478);
  ("stun.iotalk.ir", 3478); ("stun.ipeex.de", 3478);
  ("stun.ipfsbit.com", 3478); ("stun.ippi.com", 3478);
  ("stun.ippi.fr", 3478); ("stun.ipshka.com", 3478); ("stun.ipv8.pl", 3478);
  ("stun.iqvoice.com", 3478); ("stun.irishvoip.com", 3478);
  ("stun.iserv.eu", 3478); ("stun.isp.net.au", 3478);
  ("stun.istitutogramscisiciliano.it", 3478); ("stun.it1.hr", 3478);
  ("stun.iut.ac.ir", 3478); ("stun.ixc.ua", 3478); ("stun.jabber.dk", 3478);
  ("stun.jabbim.cz", 3478); ("stun.jay.net", 3478);
  ("stun.jensbouma.com", 3478); ("stun.jerichosystems.co.za", 3478);
  ("stun.johanhelsing.studio", 3478); ("stun.jowisoftware.de", 3478);
  ("stun.jrnetservices.de", 3478); ("stun.jukno.de", 3478);
  ("stun.jumblo.com", 3478); ("stun.jump-up.to", 3478);
  ("stun.junet.se", 3478); ("stun.justvoip.com", 3478);
  ("stun.k8s.xpertyme.com", 3478); ("stun.kalis.cc", 3478);
  ("stun.kanne.ggeg.eu", 3478); ("stun.kanojo.de", 3478);
  ("stun.kaseya.com", 3478); ("stun.kc.com.pl", 3478);
  ("stun.kedr.io", 3478); ("stun.kempen.xyz", 3478);
  ("stun.kenkon.net", 3478); ("stun.kleen.ch", 3478);
  ("stun.kleusberg.de", 3478); ("stun.kohrn-online.de", 3478);
  ("stun.komsa.de", 3478); ("stun.komunikas.net", 3478);
  ("stun.kotter.net", 3478); ("stun.kpi.ua", 3478);
  ("stun.krypto.casa", 3478); ("stun.kserver.org", 3478);
  ("stun.kuva-dev.eticlab.xyz", 3478); ("stun.l.google.com", 19302);
  ("stun.l.google.com", 19305); ("stun.l.google.com", 3478);
  ("stun.labs.net", 3478); ("stun.ladridiricette.it", 3478);
  ("stun.landvast.nl", 3478); ("stun.lebendigefluesse.at", 3478);
  ("stun.lege.de", 3478); ("stun.lender.schule", 3478);
  ("stun.leonde.org", 3478); ("stun.leucotron.com.br", 3478);
  ("stun.levigo.de", 3478); ("stun.levigo.net", 3478);
  ("stun.likenuuk.com", 3478); ("stun.lineaencasa.com", 3478);
  ("stun.linphone.org", 3478); ("stun.linss.com", 3478);
  ("stun.linuxtrent.it", 3478); ("stun.lirmm.fr", 3478);
  ("stun.live2u.com.br", 3478); ("stun.liveo.fr", 3478);
  ("stun.lleida.net", 3478); ("stun.localphone.com", 3478);
  ("stun.logic.ky", 3478); ("stun.lovense.com", 3478);
  ("stun.lowratevoip.com", 3478); ("stun.lrhmv.de", 3478);
  ("stun.lu-cix.lu", 3478); ("stun.luger.de", 3478); ("stun.luhr.net", 3478);
  ("stun.luzzato.com", 3478); ("stun.lysergic.dev", 3478);
  ("stun.m-online.net", 3478); ("stun.madavi.de", 3478);
  ("stun.magicum.net", 3478); ("stun.maitri.club", 3478);
  ("stun.marcelproust.it", 3478); ("stun.marko-jovanovic.de", 3478);
  ("stun.mazewebsolutions.ch", 3478); ("stun.mconf.rnp.br", 3478);
  ("stun.mcra.fr", 3478); ("stun.mdcc.de", 3478);
  ("stun.med.uni-greifswald.de", 3478); ("stun.mediani.de", 3478);
  ("stun.medvc.eu", 3478); ("stun.meetwife.com", 3478);
  ("stun.megatel.si", 3478); ("stun.meowsbox.com", 3478);
  ("stun.metra-services.de", 3478); ("stun.microdata.co.uk", 3478);
  ("stun.microdata.systems", 3478); ("stun.mikuru.de", 3478);
  ("stun.miwifi.com", 3478); ("stun.mixvoip.com", 3478);
  ("stun.mobile-italia.com", 3478); ("stun.moonlight-stream.org", 3478);
  ("stun.morgan-systems.com", 3478); ("stun.mtx.prudent.io", 3478);
  ("stun.muoversi.net", 3478); ("stun.myhowto.org", 3478);
  ("stun.myspeciality.com", 3478); ("stun.myvoipapp.com", 3478);
  ("stun.myvoiptraffic.com", 3478); ("stun.mywatson.it", 3478);
  ("stun.nagoonline.com", 3478); ("stun.nanocosmos.de", 3478);
  ("stun.ncic.com", 3478); ("stun.nekkimobile.ru", 3478);
  ("stun.neobridge.fr", 3478); ("stun.neomedia.it", 3478);
  ("stun.neowise.fr", 3478); ("stun.netappel.com", 3478);
  ("stun.netensia.net", 3478); ("stun.netgsm.com.tr", 3478);
  ("stun.netmaster.ro", 3478); ("stun.netzbegruenung.de", 3478);
  ("stun.neura.datamicron.com", 3478); ("stun.nexphone.ch", 3478);
  ("stun.next-gen.ro", 3478); ("stun.next.nortelmed.com", 3478);
  ("stun.nextcloud.com", 3478); ("stun.nextcloud.com", 443);
  ("stun.nexttell.ru", 3478); ("stun.nexxtmobile.de", 3478);
  ("stun.nfon.net", 3478); ("stun.nicolai-wolff.de", 3478);
  ("stun.nicoll.xyz", 3478); ("stun.ninda.net", 3478);
  ("stun.nonoh.net", 3478); ("stun.noonan.family", 3478);
  ("stun.nortelmed.com", 3478); ("stun.nowe-tmg.de", 3478);
  ("stun.odsh.de", 3478); ("stun.officinabit.com", 3478);
  ("stun.oldhamtechnology.com", 3478); ("stun.olimontel.it", 3478);
  ("stun.oncloud7.ch", 3478); ("stun.openjobs.hu", 3478);
  ("stun.openmedia.gallery", 3478); ("stun.openmusic.gallery", 3478);
  ("stun.openvoip.it", 3478); ("stun.optdyn.com", 3478);
  ("stun.ora.pm", 3478); ("stun.ortopediacoam.it", 3478);
  ("stun.p2p.blackberry.com", 3478); ("stun.palava.tv", 3478);
  ("stun.partell.nl", 3478); ("stun.patentanimal.com", 3478);
  ("stun.pbx.netcomnetz.de", 3478); ("stun.pbx.scsynergy.net", 3478);
  ("stun.peekvideochat.com", 3478); ("stun.peeters.com", 3478);
  ("stun.peethultra.be", 3478); ("stun.petiak.ir", 3478);
  ("stun.petzi-net.de", 3478); ("stun.phoenixbell.online", 3478);
  ("stun.phone.com", 3478); ("stun.phx.freevoicepbx.com", 3478);
  ("stun.physics.uoc.gr", 3478); ("stun.piratenbrandenburg.de", 3478);
  ("stun.pjsip.org", 3478); ("stun.planetarium.com.br", 3478);
  ("stun.plexicomm.net", 3478); ("stun.pocos.nl", 3478);
  ("stun.poetamatusel.org", 3478); ("stun.poivy.com", 3478);
  ("stun.portal.hivetechnology.net", 3478); ("stun.portalnetworks.ca", 3478);
  ("stun.portfiftysixty.net", 3478); ("stun.postblue.info", 3478);
  ("stun.poul.org", 3478); ("stun.powervoip.com", 3478);
  ("stun.ppcsystem.online", 3478); ("stun.ppdi.com", 3478);
  ("stun.prestatel.fr", 3478); ("stun.pricall.eu", 3478);
  ("stun.prism.it", 3478); ("stun.prometheanproduct.com", 3478);
  ("stun.prov-2115.ovh", 3478); ("stun.provelo.org", 3478);
  ("stun.provtel.com", 3478); ("stun.prozserin.org", 3478);
  ("stun.psych.help", 3478); ("stun.pure-ip.com", 3478);
  ("stun.purtel.com", 3478); ("stun.q-mex.net", 3478);
  ("stun.qcol.net", 3478); ("stun.quirum.com", 3478);
  ("stun.radiojar.com", 3478); ("stun.rcsxzx.com", 3478);
  ("stun.redbini.com", 3478); ("stun.redmedical.de", 3478);
  ("stun.redsquared.com", 3478); ("stun.relaix.net", 3478);
  ("stun.remotepc.com", 3478); ("stun.remotetopc.com", 3478);
  ("stun.rescuetrack.com", 3478); ("stun.ringostat.com", 3478);
  ("stun.robbuvoice.com", 3478); ("stun.rockenstein.de", 3478);
  ("stun.roct.de", 3478); ("stun.rolmail.net", 3478);
  ("stun.rolvoice.it", 3478); ("stun.romaaeterna.nl", 3478);
  ("stun.romancecompass.com", 3478); ("stun.root-1.de", 3478);
  ("stun.rtc.praxxys.ph", 3478); ("stun.rtc.yandex.net", 3478);
  ("stun.ru-brides.com", 3478); ("stun.rxdbit.com", 3478);
  ("stun.rynga.com", 3478); ("stun.rz.htw-berlin.de", 3478);
  ("stun.sacko.com.au", 3478); ("stun.saman360.com", 3478);
  ("stun.schlund.de", 3478); ("stun.schmid-federn.ch", 3478);
  ("stun.schoeffel.de", 3478); ("stun.schulinformatik.at", 3478);
  ("stun.scorecrm.pe", 3478); ("stun.scriptonary.com", 3478);
  ("stun.scudcrm.com", 3478); ("stun.seemoo.tu-darmstadt.de", 3478);
  ("stun.selasky.org", 3478); ("stun.sensor.community", 3478);
  ("stun.serveil.com", 3478); ("stun.server.uni-frankfurt.de", 3478);
  ("stun.serverplantage.de", 3478); ("stun.servileto.net", 3478);
  ("stun.sewan.fr", 3478); ("stun.shadrinsk.net", 3478);
  ("stun.shared.bbmenterprise.com", 3478);
  ("stun.shared.bbmenterprise.dyn.blackberry.net", 3478);
  ("stun.shwechat.com", 3478); ("stun.sice.com", 3478);
  ("stun.sid.galaxie.family", 3478); ("stun.siedle.com", 3478);
  ("stun.sightline.se", 3478); ("stun.sigmavoip.com", 3478);
  ("stun.signalwire.com", 3478); ("stun.signet.nl", 3478);
  ("stun.simlar.org", 3478); ("stun.simonbalzer.de", 3478);
  ("stun.simulcast.eu", 3478); ("stun.sip.us", 3478);
  ("stun.sipdiscount.com", 3478); ("stun.sipgate.net", 10000);
  ("stun.sipgate.net", 3478); ("stun.sipglobalphone.com", 3478);
  ("stun.siplogin.de", 3478); ("stun.sippeer.dk", 3478);
  ("stun.sipthor.net", 3478); ("stun.siptraffic.com", 3478);
  ("stun.siptrunk.com", 3478); ("stun.sipy.cz", 3478);
  ("stun.skerric.com", 3478); ("stun.sky.od.ua", 3478);
  ("stun.skydrone.aero", 3478); ("stun.sma.de", 3478);
  ("stun.smartvoip.com", 3478); ("stun.smsdiscount.com", 3478);
  ("stun.smslisto.com", 3478); ("stun.smvhost.in", 3478);
  ("stun.soho66.co.uk", 3478); ("stun.solcon.nl", 3478);
  ("stun.solnet.ch", 3478); ("stun.solomo.de", 3478);
  ("stun.sonderformat.cloud", 3478); ("stun.sonetel.com", 3478);
  ("stun.sonetel.net", 3478); ("stun.sparvoip.de", 3478);
  ("stun.speakswitch.com", 3478); ("stun.splicecom.com", 3478);
  ("stun.sproesser.net", 3478); ("stun.srca.org.sa", 3478);
  ("stun.srce.hr", 3478); ("stun.ssh.thinkrosystem.com", 3478);
  ("stun.stadtwerke-eutin.de", 3478); ("stun.steambot.ch", 3478);
  ("stun.steuerkanzlei-banse.de", 3478); ("stun.stochastix.de", 3478);
  ("stun.stomp.dynv6.net", 3478); ("stun.stratusvideo.com", 3478);
  ("stun.streamnow.ch", 3478); ("stun.streamspace.ai", 3478);
  ("stun.studio-link.de", 3478); ("stun.studio71.it", 3478);
  ("stun.stuffnet.sk", 3478); ("stun.stura.uni-heidelberg.de", 3478);
  ("stun.superiordigital7.com", 3478); ("stun.swrag.de", 3478);
  ("stun.sylaps.com", 3478); ("stun.syncthing.net", 3478);
  ("stun.synergiejobs.be", 3478); ("stun.syrex.co.za", 3478);
  ("stun.syscon.cloud", 3478); ("stun.szbboys.com", 3478);
  ("stun.szlovak.sk", 3478); ("stun.t-online.de", 3478);
  ("stun.talkho.com", 3478); ("stun.taxsee.com", 3478);
  ("stun.teambox.fr", 3478); ("stun.teamfon.com", 3478);
  ("stun.teamfon.de", 3478); ("stun.techlevel.org", 3478);
  ("stun.technologpark.net", 3478); ("stun.technosens.fr", 3478);
  ("stun.tee.gr", 3478); ("stun.tel.lu", 3478);
  ("stun.tel.yandex.net", 3478); ("stun.tel2.co.uk", 3478);
  ("stun.telbo.com", 3478); ("stun.teliax.com", 3478);
  ("stun.telnyx.com", 3478); ("stun.telviva.com", 3478);
  ("stun.telxl.org", 3478); ("stun.thebrassgroup.it", 3478);
  ("stun.thegroovesurfers.live", 3478); ("stun.thinkrosystem.com", 3478);
  ("stun.threema.ch", 3478); ("stun.thw-pbx.de", 3478);
  ("stun.tichiamo.it", 3478); ("stun.tixeo.com", 3478);
  ("stun.tng.de", 3478); ("stun.tor.yakdigitalphone.ca", 3478);
  ("stun.totalcom.info", 3478); ("stun.touchapp.cl", 3478);
  ("stun.tretas.org", 3478); ("stun.tricasting.com", 3478);
  ("stun.ttmath.org", 3478); ("stun.tula.nu", 3478); ("stun.twt.it", 3478);
  ("stun.u5fgb.com", 3478); ("stun.uabrides.com", 3478);
  ("stun.ucanet.ru", 3478); ("stun.ukh.de", 3478); ("stun.uls.co.za", 3478);
  ("stun.ultrino.net", 3478); ("stun.unearth.de", 3478);
  ("stun.unimatrix.link", 3478); ("stun.unimewo.com", 3478);
  ("stun.univ-grenoble-alpes.fr", 3478); ("stun.unotel.dk", 3478);
  ("stun.uplinklabs.net", 3478); ("stun.url.net.au", 3478);
  ("stun.vadacom.co.nz", 3478); ("stun.vallcom.it", 3478);
  ("stun.var6.cn", 3478); ("stun.vavadating.com", 3478);
  ("stun.vc.itgen.io", 3478); ("stun.vcomm.ca", 3478);
  ("stun.verbo.be", 3478); ("stun.vesrv.eu", 3478); ("stun.vetlab.pl", 3478);
  ("stun.video.taxi", 3478); ("stun.videovisit.io", 3478);
  ("stun.virtual-aula.com", 3478); ("stun.visselhoevede.de", 3478);
  ("stun.vivell.de", 3478); ("stun.vivox.com", 3478);
  ("stun.vjoon.com", 3478); ("stun.vo.lu", 3478);
  ("stun.voiceflex.com", 3478); ("stun.voicehost.co.uk", 3478);
  ("stun.voicetech.se", 3478); ("stun.voicetrading.com", 3478);
  ("stun.voip.aebc.com", 3478); ("stun.voip.blackberry.com", 3478);
  ("stun.voip.ciphertv.com", 3478); ("stun.voip.dyn.blackberry.net", 3478);
  ("stun.voip.eutelia.it", 3478); ("stun.voip.ovh.net", 3478);
  ("stun.voipawesome.com", 3478); ("stun.voipblast.com", 3478);
  ("stun.voipbuster.com", 3478); ("stun.voipbusterpro.com", 3478);
  ("stun.voipcheap.co.uk", 3478); ("stun.voipcheap.com", 3478);
  ("stun.voipconnect.com", 3478); ("stun.voipdiscount.com", 3478);
  ("stun.voipeasy.it", 3478); ("stun.voipfibre.com", 3478);
  ("stun.voipgain.com", 3478); ("stun.voipgate.com", 3478);
  ("stun.voipgateway.cloud", 3478); ("stun.voipgrid.nl", 3478);
  ("stun.voipia.net", 3478); ("stun.voipinfocenter.com", 3478);
  ("stun.voipoperator.tel", 3478); ("stun.voippro.com", 3478);
  ("stun.voipraider.com", 3478); ("stun.voipstreet.com", 3478);
  ("stun.voipstunt.com", 3478); ("stun.voipsvr.net", 3478);
  ("stun.voipvoice.it", 3478); ("stun.voipvox.it", 3478);
  ("stun.voipwise.com", 3478); ("stun.voipxs.nl", 3478);
  ("stun.voipzoom.com", 3478); ("stun.voismart.com", 3478);
  ("stun.vomessen.de", 3478); ("stun.voys.nl", 3478);
  ("stun.vozelia.com", 3478); ("stun.voztele.com", 3478);
  ("stun.voztovoice.org", 3478); ("stun.vsrv1.shcwagenfeld.de", 3478);
  ("stun.waterpolopalermo.it", 3478); ("stun.wazo.io", 3478);
  ("stun.wcoil.com", 3478); ("stun.webcalldirect.com", 3478);
  ("stun.webmatrix.com.br", 3478); ("stun.webrtc.docety.com", 3478);
  ("stun.webrtc.ecl.ntt.com", 3478); ("stun.webtools.co.cr", 3478);
  ("stun.weeb.fi", 3478); ("stun.wemag.com", 3478);
  ("stun.westtel.ky", 3478); ("stun.wia.cz", 3478);
  ("stun.wlvoip.net", 3478); ("stun.wollgast-it.de", 3478);
  ("stun.worship.com.ng", 3478); ("stun.wowitel.net", 3478);
  ("stun.wtfismyip.com", 3478); ("stun.wuliangroup.cn", 3478);
  ("stun.wws.link", 3478); ("stun.wxnz.net", 3478);
  ("stun.xmpp.masgalor.de", 3478); ("stun.xooloo-messenger.com", 3478);
  ("stun.xtekserver.com", 3478); ("stun.xten.com", 3478);
  ("stun.xx-on.de", 3478); ("stun.yesdates.com", 3478);
  ("stun.yesdok.com", 3478); ("stun.yollacalls.com", 3478);
  ("stun.zadarma.com", 3478); ("stun.zebraduck.com", 3478);
  ("stun.zenbakaitz.com", 3478); ("stun.zentauron.de", 3478);
  ("stun.zepf.uni-landau.de", 3478); ("stun.zerobudget.design", 3478);
  ("stun.zoomitel.net", 3478); ("stun.zorra.com", 3478);
  ("stun.zt.gets-it.net", 3478); ("stun.ztrig.com", 3478);
  ("stun.zugschlus.de", 3478); ("stun0-ams.voipgrid.nl", 3478);
  ("stun0-grq.voipgrid.nl", 3478); ("stun0.appello.care", 3478);
  ("stun0.eigenlinks.com", 3478); ("stun0.yoyogi.de", 3478);
  ("stun00.mirz.uni-jena.de", 3478); ("stun00.webkonferenz.net", 3478);
  ("stun001.yesdok.com", 3478); ("stun01.ash-netconsult.de", 3478);
  ("stun01.lith.dls.net", 3478); ("stun01.livesale.cz", 3478);
  ("stun01.mconf.rnp.br", 3478); ("stun01.nfon.net", 3478);
  ("stun01.pegasusserver.de", 3478); ("stun01.silentcircle.net", 3478);
  ("stun01.umy.ac.id", 3478); ("stun02.counsol.net", 3478);
  ("stun02.mconf.rnp.br", 3478); ("stun02.nfon.net", 3478);
  ("stun02.senfcall.de", 3478); ("stun02.silentcircle.net", 3478);
  ("stun02.umy.ac.id", 3478); ("stun02.unifiedring.co.uk", 3478);
  ("stun1.1telecom.ru", 3478); ("stun1.a3bcproxy.nl", 3478);
  ("stun1.alphacron.de", 3478); ("stun1.anc.ffm.hfosip.de", 3478);
  ("stun1.appello.care", 3478); ("stun1.apse1.qa3.xhoot.com", 3478);
  ("stun1.backend.doc-cirrus.com", 3478); ("stun1.bancaditalia.it", 3478);
  ("stun1.celya.fr", 3478); ("stun1.crossmarx.nl", 3478);
  ("stun1.dimorf.com", 3478); ("stun1.doc-cirrus.com", 3478);
  ("stun1.edagram.com", 3478); ("stun1.egap.xunta.gal", 3478);
  ("stun1.estpak.ee", 3478); ("stun1.euc1.dev1.xhoot.com", 3478);
  ("stun1.euc1.qa3.xhoot.com", 3478); ("stun1.fra3.ffm.hfosip.de", 3478);
  ("stun1.haluska.dev", 3478); ("stun1.hfosip.de", 3478);
  ("stun1.hoolva.com", 3478); ("stun1.l.google.com", 19302);
  ("stun1.l.google.com", 19305); ("stun1.l.google.com", 3478);
  ("stun1.mcra.fr", 3478); ("stun1.meetby.io", 3478);
  ("stun1.megatel.si", 3478); ("stun1.mk.de", 3478);
  ("stun1.mydisk.nsc.ru", 3478); ("stun1.net.ipl.pt", 3478);
  ("stun1.oren.cloud", 3478); ("stun1.pocos.nl", 3478);
  ("stun1.sipport.de", 3478); ("stun1.starman.ee", 3478);
  ("stun1.use1.dev1.xhoot.com", 3478); ("stun1.use1.dev2.xhoot.com", 3478);
  ("stun1.use1.dev3.xhoot.com", 3478); ("stun1.use1.qa2.xhoot.com", 3478);
  ("stun1.use1.qa3.xhoot.com", 3478); ("stun1.vodaway.ru", 3478);
  ("stun1.webweaver.de", 3478); ("stun10.onewebtalk.de", 3478);
  ("stun1a.anc.ffm.hfosip.de", 3478); ("stun1a.fra3.ffm.hfosip.de", 3478);
  ("stun1a.frontlinebackoffice.ca", 3478); ("stun1a.novuscom.net", 3478);
  ("stun1b.frontlinebackoffice.ca", 3478); ("stun1b.novuscom.net", 3478);
  ("stun2.1-voip.com", 3478); ("stun2.1ats.ru", 3478);
  ("stun2.a3bcproxy.nl", 3478); ("stun2.appello.care", 3478);
  ("stun2.backend.doc-cirrus.com", 3478); ("stun2.bancaditalia.it", 3478);
  ("stun2.belowtoxic.cloud", 3478); ("stun2.call.netplanet.at", 3478);
  ("stun2.doc-cirrus.com", 3478); ("stun2.egap.xunta.gal", 3478);
  ("stun2.fon.is", 3478); ("stun2.free-solutions.org", 3478);
  ("stun2.hoolva.com", 3478); ("stun2.informatica95.net", 3478);
  ("stun2.kynaforkids.vn", 3478); ("stun2.l.google.com", 19302);
  ("stun2.l.google.com", 19305); ("stun2.meowsbox.com", 3478);
  ("stun2.mik.ua", 3478); ("stun2.mk.de", 3478); ("stun2.net.ipl.pt", 3478);
  ("stun2.pylo.net", 3478); ("stun2.rz.htw-berlin.de", 3478);
  ("stun2.server.uni-frankfurt.de", 3478); ("stun2.sipport.de", 3478);
  ("stun2.squaretalk.com", 3478); ("stun2.ssystems.de", 3478);
  ("stun2.starman.ee", 3478); ("stun2.teletek.se", 3478);
  ("stun2.videovisit.io", 3478); ("stun2.wollgast-it.de", 3478);
  ("stun2.zoomitel.net", 3478); ("stun2a.frontlinebackoffice.ca", 3478);
  ("stun2a.novuscom.net", 3478); ("stun2a.southislandcable.com", 3478);
  ("stun2b.frontlinebackoffice.ca", 3478); ("stun2b.novuscom.net", 3478);
  ("stun2b.southislandcable.com", 3478); ("stun3.hoolva.com", 3478);
  ("stun3.l.google.com", 19302); ("stun3.l.google.com", 19305);
  ("stun4.beeznest.com", 3478); ("stun4.hoolva.com", 3478);
  ("stun4.l.google.com", 19302); ("stun4.l.google.com", 19305);
  ("stun4.l.google.com", 3478); ("stuna.wxnz.net", 3478);
  ("stunb.wxnz.net", 3478); ("stunbb.mirhosting.com", 3478);
  ("stunc.cloud.trizwo.it", 3478); ("stund.yeastar.com", 3478);
  ("stundev-aws-secondary.rd01.konami.net", 3478);
  ("stundev-aws-tertiary.rd01.konami.net", 3478);
  ("stundev.livextend.cloud", 3478); ("stunrc.ruijienetworks.com", 3478);
  ("stuns.ipv8.pl", 3478); ("stuns.nowe-tmg.de", 3478);
  ("stuns.ztrig.com", 3478); ("stunsec.provtel.com", 3478);
  ("stunserver-if2.wx3.se", 3478); ("stunserver.wx3.se", 3478);
  ("stunsvr-as.ruijienetworks.com", 3478);
  ("stunturn-se.easymeeting.net", 3478); ("stunturn.sibtel.gv.at", 3478);
  ("stunturn.yellka.com", 3478); ("stunturn4.triart.jp", 3478);
  ("stunv4.labs.lacnic.net", 3478); ("stunvid.likenuuk.com", 3478);
  ("stunx.externet.hu", 3478); ("stunx.novuscom.net", 3478);
  ("stuny.externet.hu", 3478); ("stuny.megafone.hu", 3478);
  ("stun.cloudflare.com", 3478); ("stun.flashdance.cx", 3478)].

(** [static const int StunSrvListQty = sizeof(StunSrvList) / sizeof(StunSrv)] *)
Definition StunSrvListQty : Z := Z.of_nat (length StunSrvList).

(** The two fields of [struct sockaddr_in] that the probe fills.  Both are
    kept in network byte order, as [stun_get_mapped] copies them; the record
    holds the numbers they spell in that order. *)
Record sockaddr_in := mkSockaddr {
  sin_port : Z;
  sin_addr : Z
}.

(** [memset(mapped, 0, sizeof(struct sockaddr_in))] *)
Definition sockaddr_zero : sockaddr_in := mkSockaddr 0 0.

(** Modelled from the spec: [ministun.h], which declares [struct
    stun_header], [struct stun_attr], [struct stun_addr] and the attribute
    numbers, is not at hand.  The layout is that of RFC 3489, as the comment
    at the head of [stun.cpp] describes it: a header of a 16-bit type, a
    16-bit length and a 16-byte transaction id; attributes of a 16-bit type,
    a 16-bit length and a value; a MAPPED-ADDRESS value of an unused byte, a
    family byte, a 16-bit port and a 32-bit address; the structs packed. *)
Definition sizeof_stun_header : Z := 20.

Definition sizeof_stun_attr : Z := 4.

Definition STUN_MAPPED_ADDRESS : Z := 1.

(** The byte at offset [i] of a buffer. *)
Definition byte_at (data : list Byte.byte) (i : nat) : Byte.byte :=
  nth i data Byte.x00.

(** [ntohs] and [ntohl] of a field, given its bytes in buffer order. *)
Definition ntohs (b0 b1 : Byte.byte) : Z :=
  Z.of_N (Byte.to_N b0) * 256 + Z.of_N (Byte.to_N b1).

Definition ntohl (b0 b1 b2 b3 : Byte.byte) : Z :=
  ntohs b0 b1 * 65536 + ntohs b2 b3.

(** [static int stun_get_mapped(struct stun_attr *attr, void *arg)]: the
    return value and [*sa] afterwards; [attr] is the buffer from the
    attribute on, so [attr->attr] is at offset 0, [attr->len] at 2, and of
    the [struct stun_addr] behind them [port] at 6 and [addr] at 8. *)
Definition stun_get_mapped (attr : list Byte.byte) (sa : sockaddr_in)
  : Z * sockaddr_in :=
  if negb (ntohs (byte_at attr 0) (byte_at attr 1) =? STUN_MAPPED_ADDRESS)
     || negb (ntohs (byte_at attr 2) (byte_at attr 3) =? 8)
  then (1, sa)
  else (0, mkSockaddr (ntohs (byte_at attr 6) (byte_at attr 7))
                      (ntohl (byte_at attr 8) (byte_at attr 9)
                             (byte_at attr 10) (byte_at attr 11))).

(** The [while (len)] loop of [stun_handle_packet]; [data] is the buffer
    from the current position on.  Every pass takes at least the four bytes
    of an attribute header off [len], so [len] passes are enough.  The
    stores [attr->attr = 0] lie behind the position the loop reads from next
    and are left out. *)
Fixpoint attr_loop (passes : nat) (data : list Byte.byte) (len ret : Z)
    (sa : sockaddr_in) : Z * sockaddr_in :=
  match passes with
  | O => (ret, sa)
  | S passes' =>
    if len =? 0 then (ret, sa)
    else if len <? sizeof_stun_attr then (-21, sa)
    else
      let x := ntohs (byte_at data 2) (byte_at data 3) + sizeof_stun_attr in
      if x >? len then (-22, sa)
      else
        let sa := snd (stun_get_mapped data sa) in
        attr_loop passes' (skipn (Z.to_nat x) data) (len - x) ret sa
  end.

(** [static int stun_handle_packet(int s, struct sockaddr_in *src, unsigned
    char *data, size_t len, stun_cb_f *stun_cb, void *arg)] with
    [stun_get_mapped] as the callback: the return value and [*arg]
    afterwards.  The socket and the source address are not used. *)
Definition stun_handle_packet (data : list Byte.byte) (len : Z)
    (sa : sockaddr_in) : Z * sockaddr_in :=
  let ret := len in
  if len <? sizeof_stun_header then (-20, sa)
  else
    let len := len - sizeof_stun_header in
    let x := ntohs (byte_at data 2) (byte_at data 3) in
    let data := skipn (Z.to_nat sizeof_stun_header) data in
    let len := if x <? len then x else len in
    attr_loop (Z.to_nat len) data len ret sa.

(** What the network does to one [StunRequest]: the failure points of
    [StunRequest] and [StunRequest2] in order, or a datagram came back. *)
Inductive NetOutcome :=
| NoHost        (* gethostbyname returned NULL *)
| NoSocket      (* socket returned INVALID_SOCKET *)
| BindFailed    (* bind returned a negative value *)
| SendFailed    (* stun_send returned a negative value *)
| SelectFailed  (* select timed out or failed *)
| RecvFailed    (* recvfrom failed *)
| Replied (datagram : list Byte.byte).

(** [static int StunRequest(const char *host, uint16_t port, struct
    sockaddr_in *mapped)], with [StunRequest2] inlined: the return code and
    the contents of [*mapped] afterwards.  [recvfrom] fills at most the 1023
    bytes of [reply_buf] it is offered. *)
Definition StunRequest (o : NetOutcome) (mapped : sockaddr_in)
  : Z * sockaddr_in :=
  match o with
  | NoHost => (-1, mapped)
  | NoSocket => (-2, mapped)
  | BindFailed => (-3, mapped)
  | SendFailed => (-10, mapped)
  | SelectFailed => (-11, mapped)
  | RecvFailed => (-12, mapped)
  | Replied datagram =>
    let reply_buf := firstn 1023 datagram in
    let res := Z.of_nat (length reply_buf) in
    if res <=? 0 then (-12, mapped)
    else stun_handle_packet reply_buf res sockaddr_zero
  end.

(** The return code of a [StunRequest] alone. *)
Definition probe_rc (o : NetOutcome) : Z :=
  fst (StunRequest o sockaddr_zero).

(** One pass of the body of the [do ... while (step == 0)] loop. *)
Definition next_rnd (rnd : Z) : Z :=
  Z.lor (Z.shiftr rnd 8) 0xff00000000000000.

Definition step_of (rnd : Z) : Z := wrapu16 (rnd mod StunSrvListQty).

(** The [do ... while (step == 0)] loop, with a bound on its passes. *)
Fixpoint select_step (fuel : nat) (rnd : Z) : option (Z * Z) :=
  match fuel with
  | O => None
  | S fuel' =>
    let rnd := next_rnd rnd in
    let step := step_of rnd in
    if step =? 0 then select_step fuel' rnd else Some (rnd, step)
  end.

(** What [GetExternalIPbySTUN] leaves behind: its return value, [*mapped],
    the index of the server [*srv] names, and (for the proofs) the list of
    positions it probed, oldest first. *)
Record ProbeResult := mkProbe {
  retval : Z;
  mapped_out : sockaddr_in;
  srv_out : option Z;
  probed : list Z
}.

Section Probe.

(** The network: what happens to attempt number [attempt] at the server at
    position [pos]. *)
Variable net : Z -> Z -> NetOutcome.

(** The [for (attempt = 1; attempt < StunSrvListQty * 2; attempt++)] loop. *)
Fixpoint probe_loop (fuel : nat) (attempt pos step : Z)
    (mapped : sockaddr_in) (srv : option Z) (trace : list Z)
  : option ProbeResult :=
  match fuel with
  | O => None
  | S fuel' =>
    if attempt <? StunSrvListQty * 2
    then
      let pos := wrapu16 ((pos + step) mod StunSrvListQty) in
      let '(rc, mapped) := StunRequest (net attempt pos) mapped in
      if rc >=? 0
      then Some (mkProbe attempt mapped (Some pos) (trace ++ [pos]))
      else probe_loop fuel' (wrapu16 (attempt + 1)) pos step mapped
                      (Some pos) (trace ++ [pos])
    else Some (mkProbe (-1) mapped srv trace)
  end.

(** [int GetExternalIPbySTUN(uint64_t rnd, struct sockaddr_in *mapped,
    const char **srv)].  The loops get as many passes as they can ever need:
    eight for the step, twice the list length for the probes. *)
Definition GetExternalIPbySTUN (rnd : Z) (mapped : sockaddr_in)
    (srv : option Z) : option ProbeResult :=
  let pos := wrapu16 rnd in
  match select_step 8 rnd with
  | None => None
  | Some (_, step) =>
    probe_loop (Z.to_nat (StunSrvListQty * 2)) 1 pos step mapped srv []
  end.

End Probe.

(** The position the walk reaches with its [k]-th probe, counted from 1. *)
Definition walk_pos (rnd step k : Z) : Z :=
  (wrapu16 rnd + k * step) mod StunSrvListQty.

(** The buffer holds, from offset [n] behind the header on, a whole
    MAPPED-ADDRESS attribute of eight bytes that spells the address [sa]. *)
Definition carries_mapped (data : list Byte.byte) (sa : sockaddr_in) : Prop :=
  exists n : nat,
    (Z.to_nat sizeof_stun_header <= n)%nat
    /\ (n + 12 <= length data)%nat
    /\ ntohs (byte_at data n) (byte_at data (n + 1)) = STUN_MAPPED_ADDRESS
    /\ ntohs (byte_at data (n + 2)) (byte_at data (n + 3)) = 8
    /\ sin_port sa = ntohs (byte_at data (n + 6)) (byte_at data (n + 7))
    /\ sin_addr sa = ntohl (byte_at data (n + 8)) (byte_at data (n + 9))
                           (byte_at data (n + 10)) (byte_at data (n + 11)).

(** What a reply that ends a walk looks like, and what it leaves in
    [*mapped]: a datagram of at least a header that [stun_handle_packet]
    goes through to the end, with the address of a MAPPED-ADDRESS attribute
    of the datagram, or zeroes if it has none. *)
Definition accepted_reply (reply_buf : list Byte.byte) (mapped : sockaddr_in)
  : Prop :=
  sizeof_stun_header <= Z.of_nat (length reply_buf)
  /\ stun_handle_packet reply_buf (Z.of_nat (length reply_buf)) sockaddr_zero
     = (Z.of_nat (length reply_buf), mapped)
  /\ (mapped = sockaddr_zero \/ carries_mapped reply_buf mapped).

Section Walk.

Variable net : Z -> Z -> NetOutcome.
Variables (rnd step : Z).

(** The probes of a trace are at the positions the walk prescribes, and
    every one of them failed. *)
Definition walked (trace : list Z) : Prop :=
  forall k : nat, (k < length trace)%nat ->
    nth k trace 0 = walk_pos rnd step (Z.of_nat k + 1).

Definition all_failed (trace : list Z) : Prop :=
  forall k : nat, (k < length trace)%nat ->
    probe_rc (net (Z.of_nat k + 1) (nth k trace 0)) < 0.

(** What [GetExternalIPbySTUN] promises about its result. *)
Definition probe_post (res : ProbeResult) : Prop :=
  Z.of_nat (length (probed res)) <= StunSrvListQty * 2 - 1
  /\ walked (probed res)
  /\ ((retval res = -1
       /\ Z.of_nat (length (probed res)) = StunSrvListQty * 2 - 1
       /\ all_failed (probed res))
      \/ (1 <= retval res
          /\ retval res = Z.of_nat (length (probed res))
          /\ all_failed (removelast (probed res))
          /\ srv_out res = Some (walk_pos rnd step (retval res))
          /\ exists datagram,
               net (retval res) (walk_pos rnd step (retval res))
                 = Replied datagram
               /\ accepted_reply (firstn 1023 datagram) (mapped_out res))).

End Walk.

(** A datagram that is a header announcing twelve bytes of attributes
    followed by one MAPPED-ADDRESS attribute with the given port and address
    bytes. *)
Definition mapped_address_reply (t0 t1 : Byte.byte) (id : list Byte.byte)
    (u f p0 p1 a0 a1 a2 a3 : Byte.byte) : list Byte.byte :=
  [t0; t1; Byte.x00; Byte.x0c] ++ id
  ++ [Byte.x00; Byte.x01; Byte.x00; Byte.x08; u; f; p0; p1; a0; a1; a2; a3].

(** A buffer from the numbers of its bytes. *)
Definition bytes (l : list N) : list Byte.byte :=
  map (fun n => match Byte.of_N n with Some b => b | None => Byte.x00 end) l.

(** A binding response with the transaction id [id] and the attributes
    [attrs]. *)
Definition binding_response (id attrs : list N) : list Byte.byte :=
  bytes ([1; 1; 0; N.of_nat (length attrs)] ++ id ++ attrs)%N.

Definition id_ex : list N :=
  [85; 85; 85; 85; 0; 1; 2; 3; 85; 85; 85; 85; 4; 5; 6; 7]%N.

(** MAPPED-ADDRESS 203.0.113.7:40000. *)
Definition mapped_address_ex : list N :=
  [0; 1; 0; 8; 0; 1; 156; 64; 203; 0; 113; 7]%N.

(** The example: a fixed entropy value, and a network on which only the
    third request is answered, with the address 203.0.113.7:40000. *)
Definition rnd_ex : Z := 0x0123456789abcdef.

Definition net_ex (attempt pos : Z) : NetOutcome :=
  if attempt =? 3 then Replied (binding_response id_ex mapped_address_ex)
  else SelectFailed.

Definition mapped_ex : sockaddr_in := mkSockaddr 0 0.

(** A network on which the first request is answered by a bare header,
    and what [*mapped] may hold from an earlier call. *)
Definition net_bare (attempt pos : Z) : NetOutcome :=
  Replied (binding_response id_ex []).

Definition mapped_old : sockaddr_in := mkSockaddr 40000 3405803783.

(** The server [*srv] points at. *)
Definition srv_name (i : Z) : string :=
  name (nth (Z.to_nat i) StunSrvList (mkSrv EmptyString 0)).

End Stun.

(** ** Kernel records from wallet transactions ([kernelrecord.cpp]) *)

Module KernelTx.
Import Int Kernel.

(** [int] to [unsigned int] arithmetic of the stake ages. *)
Definition wrapu32 (z : Z) : Z := z mod 2 ^ 32.

(** [class CTxOut], as far as the kernel records read it. *)
Record CTxOut := mkTxOut {
  txout_nValue : Z;
  scriptPubKey : Z
}.

(** [class CWalletTx], as far as the kernel records read it. *)
Record CWalletTx := mkWalletTx {
  GetHash : Z;
  GetTxTime : Z;
  mapValue : gmap string string;
  vout : list CTxOut;
  IsCoinBase : bool;
  GetDepthInMainChain : Z;
  IsTrusted : bool;
  IsSpent : nat -> bool
}.

(** [bool KernelRecord::showTransaction(const CWalletTx &wtx)] *)
Definition showTransaction (wtx : CWalletTx) : bool :=
  if IsCoinBase wtx && (GetDepthInMainChain wtx <? 2) then false
  else if negb (IsTrusted wtx) then false
  else true.

Section Decompose.

(** [CWallet::IsMine], [ExtractDestination] and
    [CBitcoinAddress(address).ToString()] are declared in [wallet.h],
    [script.h] and [base58.h]. *)
Variable Destination : Type.
Variable IsMine : CTxOut -> bool.
Variable ExtractDestination : Z -> option Destination.
Variable ToString : Destination -> string.

(** The body of the loop over [wtx.vout] for output number [nOut]. *)
Definition decompose_output (wtx : CWalletTx) (nOut : nat) (txOut : CTxOut)
  : list KernelRecord :=
  if IsMine txOut
  then
    let addrStr :=
      match ExtractDestination (scriptPubKey txOut) with
      | Some address => ToString address
      | None => default EmptyString (mapValue wtx !! "to"%string)
      end in
    [KernelRecord_new (GetHash wtx) (GetTxTime wtx) addrStr
                      (txout_nValue txOut) (IsSpent wtx nOut)]
  else [].

(** [for (unsigned int nOut = 0; nOut < wtx.vout.size(); nOut++)], from
    output number [nOut] on. *)
Fixpoint decompose_loop (wtx : CWalletTx) (nOut : nat) (outs : list CTxOut)
  : list KernelRecord :=
  match outs with
  | [] => []
  | txOut :: rest =>
    decompose_output wtx nOut txOut ++ decompose_loop wtx (S nOut) rest
  end.

(** [vector<KernelRecord> KernelRecord::decomposeOutput(const CWallet
    *wallet, const CWalletTx &wtx)] *)
Definition decomposeOutput (wtx : CWalletTx) : list KernelRecord :=
  if showTransaction wtx then decompose_loop wtx 0 (vout wtx) else [].

End Decompose.

Section MintStake.

Variables (COIN nOneDay nStakeMinAge nStakeMaxAge : Z).

(** The integer coin age that [KernelRecord::getProbToMintStake(double
    difficulty, int timeOffset)] computes before it divides by
    [2^32 * difficulty] in floating point. *)
Definition getProbToMintStake_coinAge (now : Z) (r : KernelRecord)
    (timeOffset : Z) : Z :=
  let Weight :=
    wrap64 (Z.min (wrap64 (wrap64 (now - nTime r) + timeOffset))
                  (wrapu32 (nStakeMinAge + nStakeMaxAge))
            - nStakeMinAge) in
  wrapu64 (Z.max (Z.quot (wrap64 (nValue r * Weight)) (wrap64 (COIN * nOneDay)))
                 0).

End MintStake.

(** The example: a trusted transaction with three outputs, the first and
    the last of them owned (script 1 and script 3), the last one spent. *)
Definition wtx_ex : CWalletTx :=
  mkWalletTx 77 1700000000 (<["to" := "somewhere"%string]> ∅)
    [mkTxOut 500 1; mkTxOut 600 2; mkTxOut 700 3]
    false 5 true (fun nOut => Nat.eqb nOut 2).

Definition IsMine_ex (o : CTxOut) : bool := negb (scriptPubKey o =? 2).

Definition ExtractDestination_ex (script : Z) : option Z :=
  if script =? 1 then Some 1 else None.

Definition ToString_ex (d : Z) : string := "addr1".

End KernelTx.

(** ** The order of accounting entries *)

Module AccountingOrder.
Import Int Rpc Accounting.

(** The stored accounting entries carry strictly increasing order positions,
    all below the next position the wallet will hand out. *)
Definition order_ok (w : Wallet) : Prop :=
  StronglySorted Z.lt (map nOrderPos (acentries w))
  /\ Forall (fun e => nOrderPos e < nOrderPosNext w) (acentries w).

(** What a [move] of [X] from [a] to [b] adds to the balance of [c]. *)
Definition move_delta (a b c : string) (X : Z) : Z :=
  (if String.eqb a c then - X else 0) + (if String.eqb b c then X else 0).

End AccountingOrder.

(** ** What the [sendmany] loop has established *)

Module SendManyInv.
Import Int Rpc SendMany.

(** [totalAmount] as the loop adds it up. *)
Definition sum_amounts {Address : Type} (vecSend : list (Address * Z)) : Z :=
  fold_left (fun total p => wrap64 (total + snd p)) vecSend 0.

Section Inv.

Context {Address : Type} `{Countable Address}.
Variable CBitcoinAddress : string -> Address.
Variable IsValid : Address -> bool.
Variable IsPair : Address -> bool.
Variable AmountFromValue : Value -> Result Z.
Variable nMinimumInputValue : Z.

(** The addresses of [vecSend] that are not key pairs. *)
Definition plain_addresses (vecSend : list (Address * Z)) : list Address :=
  List.filter (fun a => negb (IsPair a)) (map fst vecSend).

(** The loop state after the destinations [done] have gone through. *)
Definition loop_inv (done : list (string * Value))
    (st : LoopState (Address := Address)) : Prop :=
  let '(setAddress, vecSend, totalAmount) := st in
  map fst vecSend = map (fun s => CBitcoinAddress (fst s)) done
  /\ map (fun p => inr (snd p)) vecSend
     = map (fun s => AmountFromValue (snd s)) done
  /\ Forall (fun p => IsValid (fst p) = true /\ nMinimumInputValue <= snd p)
            vecSend
  /\ totalAmount = sum_amounts vecSend
  /\ NoDup (plain_addresses vecSend)
  /\ forall a, a ∈ plain_addresses vecSend -> a ∈ setAddress.

End Inv.

(** An unlocked wallet holding the 50 coins of account A. *)
Definition env_funded : WalletEnv (Address := string) :=
  mkEnv Accounting.wallet_ex false false
        (fun _ => (true, 0)) true 0 0 (fun _ => "txid"%string).

Definition sendmany_funded (params : list Value) : Result Value :=
  sendmany (fun s => s) (fun _ => true) (fun _ => false) AmountFromValue_ex 1
           env_funded params false.

Definition params_funded : list Value :=
  [str_type "A";
   obj_type [("addr1"%string, int_type 1); ("addr2"%string, int_type 2)]].

End SendManyInv.

(** ** One unlock from call to relock *)

Module RelockLife.
Import Int Rpc Relock.

(** The schedule of one unlock with timeout [T] seconds: the call at [t0],
    the new thread (number [i]) reads the clock at [t1], enters the critical
    section at [t2] and is woken at [t3]. *)
Definition schedule_unlock (pass : string) (T : Z) (i : nat)
    (t0 t1 t2 t3 : Z) : list (Z * Event) :=
  [(t0, unlock_call pass T); (t1, Run i); (t2, Run i); (t3, Run i)].

(** The same schedule without the wake-up. *)
Definition schedule_unlock_asleep (pass : string) (T : Z) (i : nat)
    (t0 t1 t2 : Z) : list (Z * Event) :=
  [(t0, unlock_call pass T); (t1, Run i); (t2, Run i)].

(** A millisecond clock value far from the [int64_t] limits. *)
Definition clock_ok (t : Z) : Prop := 0 <= t < 2 ^ 62.

End RelockLife.

(** ** [listtransactions] and [listaccounts] ([rpcwallet.cpp]) *)

Module WalletLists.
Import Int Rpc Accounting.

(** The row [AcentryToJSON] builds; the amount is kept as the integer that
    [ValueFromAmount] is applied to. *)
Record AcRow := mkAcRow {
  row_account : string;
  row_category : string;
  row_time : Z;
  row_amount : Z;
  row_otheraccount : string;
  row_comment : string
}.

(** [void AcentryToJSON(const CAccountingEntry& acentry, const std::string&
    strAccount, Array& ret)]: the rows it pushes. *)
Definition AcentryToJSON (acentry : CAccountingEntry) (account : string)
  : list AcRow :=
  let fAllAccounts := String.eqb account "*" in
  if fAllAccounts || String.eqb (strAccount acentry) account
  then [mkAcRow (strAccount acentry) "move" (nTime acentry)
                (nCreditDebit acentry) (strOtherAccount acentry)
                (strComment acentry)]
  else [].

Definition listtransactions_usage : string :=
  "listtransactions [account] [count=10] [from=0]".

Section ListTransactions.

(** [CWalletTx], the rows [ListTransactions] makes of one (through
    [CWalletTx::GetAmounts] of [wallet.cpp]), and [CWallet::OrderedTxItems]
    of [wallet.cpp]: the wallet transactions and accounting entries in
    order of their positions, oldest first, each item holding one of the
    two pointers. *)
Variable WTx : Type.
Variable Row : Type.
Variable ListTransactions :
  WTx -> string -> Z -> bool -> isminefilter -> list Row.
Variable OrderedTxItems :
  string -> list (option WTx * option CAccountingEntry).

(** What one pass of the loop over [txOrdered] pushes onto [ret]. *)
Definition item_rows (account : string) (filter : isminefilter)
    (it : option WTx * option CAccountingEntry) : list (Row + AcRow) :=
  match fst it with
  | Some pwtx => map inl (ListTransactions pwtx account 0 true filter)
  | None => []
  end ++
  match snd it with
  | Some pacentry => map inr (AcentryToJSON pacentry account)
  | None => []
  end.

(** The loop over [txOrdered] from the newest item back, which stops as
    soon as [ret] holds [limit] rows. *)
Fixpoint collect (account : string) (filter : isminefilter)
    (items : list (option WTx * option CAccountingEntry))
    (ret : list (Row + AcRow)) (limit : Z) : list (Row + AcRow) :=
  match items with
  | [] => ret
  | it :: rest =>
    let ret := ret ++ item_rows account filter it in
    if wrap32 (Z.of_nat (length ret)) >=? limit then ret
    else collect account filter rest ret limit
  end.

(** [Value listtransactions(const Array& params, bool fHelp)] *)
Definition listtransactions (params : list Value) (fHelp : bool)
  : Result (list (Row + AcRow)) :=
  if fHelp || (3 <? length params)%nat
  then throw (runtime_error listtransactions_usage)
  else
    rpc account := (if (0 <? length params)%nat
                    then get_str (at_ params 0) else ok "*"%string) in
    rpc nCount := (if (1 <? length params)%nat
                   then get_int32 (at_ params 1) else ok 10) in
    rpc nFrom := (if (2 <? length params)%nat
                  then get_int32 (at_ params 2) else ok 0) in
    rpc filter :=
      (if (3 <? length params)%nat
       then rpc b := get_bool (at_ params 3) in
            ok (if b then or_MINE_WATCH_ONLY MINE_SPENDABLE else MINE_SPENDABLE)
       else ok MINE_SPENDABLE) in
    if nCount <? 0
    then throw (JSONRPCError RPC_INVALID_PARAMETER "Negative count")
    else if nFrom <? 0
    then throw (JSONRPCError RPC_INVALID_PARAMETER "Negative from")
    else
      let txOrdered := OrderedTxItems account in
      let ret := collect account filter (rev txOrdered) []
                         (wrap32 (nCount + nFrom)) in
      let size := wrap32 (Z.of_nat (length ret)) in
      let nFrom := if nFrom >? size then size else nFrom in
      let nCount := if wrap32 (nFrom + nCount) >? size
                    then wrap32 (size - nFrom) else nCount in
      let ret := firstn (Z.to_nat (wrap32 (nFrom + nCount))) ret in
      let ret := skipn (Z.to_nat nFrom) ret in
      ok (rev ret).

(** Every row the wallet has for the account, newest item first. *)
Definition all_rows (account : string) : list (Row + AcRow) :=
  flat_map (item_rows account MINE_SPENDABLE) (rev (OrderedTxItems account)).

End ListTransactions.

(** What [CWalletTx::GetAmounts] hands back through its reference
    parameters. *)
Record Amounts (Address : Type) := mkAmounts {
  nGeneratedImmature : Z;
  nGeneratedMature : Z;
  listReceived : list (Address * Z);
  listSent : list (Address * Z);
  amounts_nFee : Z;
  strSentAccount : string
}.

Arguments mkAmounts {Address} _ _ _ _ _ _.
Arguments nGeneratedImmature {Address} _.
Arguments nGeneratedMature {Address} _.
Arguments listReceived {Address} _.
Arguments listSent {Address} _.
Arguments amounts_nFee {Address} _.
Arguments strSentAccount {Address} _.

(** A wallet transaction as [listaccounts] sees it. *)
Record AmountsTx (Address : Type) := mkAmountsTx {
  GetAmounts : isminefilter -> Amounts Address;
  amounts_depth : Z
}.

Arguments mkAmountsTx {Address} _ _.
Arguments GetAmounts {Address} _ _.
Arguments amounts_depth {Address} _.

Definition listaccounts_usage : string := "listaccounts [minconf=1]".

(** [mapAccountBalances[account] += x]: a missing key starts from zero. *)
Definition add_to (m : gmap string Z) (account : string) (x : Z)
  : gmap string Z :=
  <[account := wrap64 (default 0 (m !! account) + x)]> m.

(** The last loop of [listaccounts], over the accounting entries. *)
Definition add_entries (m : gmap string Z) (l : list CAccountingEntry)
  : gmap string Z :=
  fold_left (fun m e => add_to m (strAccount e) (nCreditDebit e)) l m.

Section ListAccounts.

(** [CBitcoinAddress] values, and whether the wallet owns an address
    ([::IsMine] of [script.h]). *)
Context {Address : Type} `{Countable Address}.
Variable IsMine : Address -> bool.

(** The first loop: every account of an owned address starts at zero. *)
Definition init_balances (mapAddressBook : gmap Address string)
  : gmap string Z :=
  map_fold (fun address name m => if IsMine address then <[name := 0]> m else m)
           ∅ mapAddressBook.

(** The body of the loop over [mapWallet]. *)
Definition tally_tx (mapAddressBook : gmap Address string) (nMinDepth : Z)
    (filter : isminefilter) (m : gmap string Z) (wtx : AmountsTx Address)
  : gmap string Z :=
  let a := GetAmounts wtx filter in
  let m := add_to m (strSentAccount a) (- amounts_nFee a) in
  let m := fold_left (fun m s => add_to m (strSentAccount a) (- snd s))
                     (listSent a) m in
  if amounts_depth wtx >=? nMinDepth
  then
    let m := add_to m EmptyString (nGeneratedMature a) in
    fold_left (fun m r =>
                 match mapAddressBook !! fst r with
                 | Some name => add_to m name (snd r)
                 | None => add_to m EmptyString (snd r)
                 end)
              (listReceived a) m
  else m.

(** [Value listaccounts(const Array& params, bool fHelp)]: the map
    [mapAccountBalances] that is turned into the result object.
    [ListAccountCreditDebit("*", acentries)] of [walletdb.cpp] yields every
    stored accounting entry. *)
Definition listaccounts (mapAddressBook : gmap Address string)
    (mapWallet : list (AmountsTx Address))
    (acentries : list CAccountingEntry)
    (params : list Value) (fHelp : bool) : Result (gmap string Z) :=
  if fHelp || (1 <? length params)%nat
  then throw (runtime_error listaccounts_usage)
  else
    rpc nMinDepth := (if (0 <? length params)%nat
                      then get_int32 (at_ params 0) else ok 1) in
    rpc includeWatchonly :=
      (if (1 <? length params)%nat
       then rpc b := get_bool (at_ params 1) in
            ok (if b then or_MINE_WATCH_ONLY MINE_SPENDABLE else MINE_SPENDABLE)
       else ok MINE_SPENDABLE) in
    let m := init_balances mapAddressBook in
    let m := fold_left (tally_tx mapAddressBook nMinDepth includeWatchonly)
                       mapWallet m in
    ok (add_entries m acentries).

End ListAccounts.

(** The example: three items, the middle one an accounting entry, and a
    row per wallet transaction. *)
Definition items_ex (account : string)
  : list (option Z * option CAccountingEntry) :=
  [(Some 1, None);
   (None, Some (mkEntry 1 "A" 5 1700000000 "B" EmptyString));
   (Some 2, None)].

Definition ListTransactions_ex (wtx : Z) (account : string) (nMinDepth : Z)
    (fLong : bool) (filter : isminefilter) : list Z :=
  [wtx].

(** The example for [listaccounts]: addresses are numbers, address 1 is
    the wallet's own and labelled A, and one confirmed transaction pays 50
    coins to it. *)
Definition book_ex : gmap Z string := {[ 1 := "A"%string ]}.

Definition IsMine_ex (address : Z) : bool := true.

Definition mapWallet_ex : list (AmountsTx Z) :=
  [mkAmountsTx
     (fun _ => mkAmounts 0 0 [(1, 50 * COIN_ex)] [] 0 EmptyString) 1].

(** The balances [listaccounts] shows for a list of accounting entries. *)
Definition balances_ex (acentries : list CAccountingEntry) : gmap string Z :=
  add_entries
    (fold_left (tally_tx book_ex 1 MINE_SPENDABLE) mapWallet_ex
               (init_balances IsMine_ex book_ex))
    acentries.

End WalletLists.

(** ** Which servers a failing walk reaches ([stun.cpp]) *)

Module StunCover.
Import Stun.

(** A network on which no server answers. *)
Definition net_down (attempt pos : Z) : NetOutcome := SelectFailed.

(** An entropy value for which the first pass of the step loop yields the
    step 19, a divisor of the length of the server list. *)
Definition rnd_short : Z := 0x25300.

End StunCover.

(** * Part II: the properties *)

(** ** Facts about wrap-around *)

Module IntFacts.
Import Int.

Lemma wrap64_small z : in_int64 z -> wrap64 z = z.
Proof.
  unfold in_int64, wrap64. intros Hz.
  rewrite Z.mod_small by lia. lia.
Qed.

Lemma wrap32_small z : in_int32 z -> wrap32 z = z.
Proof.
  unfold in_int32, wrap32. intros Hz.
  rewrite Z.mod_small by lia. lia.
Qed.

Lemma wrap32_range z : in_int32 (wrap32 z).
Proof.
  unfold wrap32, in_int32.
  pose proof (Z.mod_pos_bound (z + 2 ^ 31) (2 ^ 32)). lia.
Qed.

Lemma wrap32_idem z : wrap32 (wrap32 z) = wrap32 z.
Proof. apply wrap32_small, wrap32_range. Qed.

Lemma wrapu64_small z : in_uint64 z -> wrapu64 z = z.
Proof. unfold in_uint64, wrapu64. intros Hz. apply Z.mod_small; lia. Qed.

Lemma wrapu16_small z : 0 <= z < 2 ^ 16 -> wrapu16 z = z.
Proof. unfold wrapu16. intros Hz. apply Z.mod_small; lia. Qed.

Lemma wrap64_range z : in_int64 (wrap64 z).
Proof.
  unfold in_int64, wrap64.
  pose proof (Z.mod_pos_bound (z + 2 ^ 63) (2 ^ 64)). lia.
Qed.

(** The wrapped sum only depends on the operands modulo [2^64]. *)
Lemma wrap64_add_l a b : wrap64 (wrap64 a + b) = wrap64 (a + b).
Proof.
  unfold wrap64. f_equal.
  replace ((a + 2 ^ 63) mod 2 ^ 64 - 2 ^ 63 + b + 2 ^ 63)
    with ((a + 2 ^ 63) mod 2 ^ 64 + b) by lia.
  rewrite Zplus_mod_idemp_l. f_equal. lia.
Qed.

Lemma wrap64_add_r a b : wrap64 (a + wrap64 b) = wrap64 (a + b).
Proof. rewrite Z.add_comm, wrap64_add_l. f_equal. lia. Qed.

Lemma wrap64_idem a : wrap64 (wrap64 a) = wrap64 a.
Proof. apply wrap64_small, wrap64_range. Qed.

Lemma wrap64_0 : wrap64 0 = 0.
Proof. reflexivity. Qed.

(** A negated amount and the amount cancel, whatever the amount. *)
Lemma wrap64_neg_cancel a x : wrap64 (wrap64 (a + wrap64 (- x)) + x) = wrap64 a.
Proof.
  rewrite wrap64_add_l.
  replace (a + wrap64 (- x) + x) with (wrap64 (- x) + (a + x)) by lia.
  rewrite wrap64_add_l. f_equal. lia.
Qed.

End IntFacts.

(** ** Coin age and expected reward *)

Module KernelFacts.
Import Int IntFacts Kernel.

Lemma params_ok_ex :
  params_ok COIN_ex nOneDay_ex nStakeMinAge_ex nStakeMaxAge_ex.
Proof. unfold params_ok. vm_compute. intuition congruence. Qed.

Ltac unwrap :=
  repeat match goal with
  | |- context [wrap64 ?z] =>
      rewrite (wrap64_small z) by (unfold in_int64; lia)
  | |- context [wrap32 ?z] =>
      rewrite (wrap32_small z) by (unfold in_int32; lia)
  | |- context [wrapu64 ?z] =>
      rewrite (wrapu64_small z) by (unfold in_uint64; lia)
  end.

Section Facts.

Variables (COIN nOneDay nStakeMinAge nStakeMaxAge : Z).
Variable GetProofOfStakeReward : Z -> Z.

Lemma clampedWeight_bounds now r :
  0 <= nStakeMaxAge -> 0 <= clampedWeight nStakeMinAge nStakeMaxAge now r <= nStakeMaxAge.
Proof. unfold clampedWeight. lia. Qed.

(** Within range, the machine arithmetic of [getCoinDay] is the plain
    formula over the clamped weight. *)
Lemma getCoinDay_formula now r :
  params_ok COIN nOneDay nStakeMinAge nStakeMaxAge -> time_ok now -> time_ok (nTime r) ->
  value_ok nStakeMaxAge (nValue r) ->
  getCoinDay COIN nOneDay nStakeMinAge nStakeMaxAge now r = nValue r * clampedWeight nStakeMinAge nStakeMaxAge now r / (COIN * nOneDay).
Proof.
  unfold params_ok, time_ok, value_ok.
  intros (HC & HD & HCD & Hmin & Hmax) Hnow Ht [Hv Hvm].
  assert (0 < COIN * nOneDay) by nia.
  unfold getCoinDay, clampedWeight. unwrap.
  destruct (Z.ltb_spec (now - nTime r - nStakeMinAge) 0) as [Hneg|Hpos].
  - rewrite Z.max_r by lia. rewrite Z.min_l by lia.
    rewrite Z.mul_0_r. symmetry. apply Z.div_0_l. lia.
  - rewrite Z.max_l by lia.
    set (w := Z.min (now - nTime r - nStakeMinAge) nStakeMaxAge).
    assert (0 <= w <= nStakeMaxAge) by (unfold w; lia).
    assert (0 <= nValue r * w <= nValue r * nStakeMaxAge) by nia.
    unwrap. rewrite Z.quot_div_nonneg by lia.
    apply wrapu64_small. unfold in_uint64. split.
    + apply Z.div_pos; lia.
    + apply Z.le_lt_trans with (nValue r * w); [|lia].
      apply Z.div_le_upper_bound; nia.
Qed.

Lemma getCoinDay_saturated now r :
  params_ok COIN nOneDay nStakeMinAge nStakeMaxAge ->
  time_ok now -> time_ok (nTime r) ->
  value_ok nStakeMaxAge (nValue r) ->
  nStakeMinAge + nStakeMaxAge <= now - nTime r ->
  getCoinDay COIN nOneDay nStakeMinAge nStakeMaxAge now r
  = nValue r * nStakeMaxAge / (COIN * nOneDay).
Proof.
  intros Hp Hnow Ht Hv Hage.
  rewrite getCoinDay_formula by assumption.
  unfold clampedWeight. destruct Hp as (_ & _ & _ & _ & Hmax).
  do 2 f_equal. lia.
Qed.

Lemma getCoinDay_young now r :
  params_ok COIN nOneDay nStakeMinAge nStakeMaxAge ->
  time_ok now -> time_ok (nTime r) ->
  now - nTime r < nStakeMinAge ->
  getCoinDay COIN nOneDay nStakeMinAge nStakeMaxAge now r = 0.
Proof.
  unfold params_ok, time_ok. intros (_ & _ & _ & Hmin & _) Hnow Ht Hage.
  unfold getCoinDay. unwrap.
  destruct (Z.ltb_spec (now - nTime r - nStakeMinAge) 0); [reflexivity | lia].
Qed.

(** Whatever the constants, as long as the minimum age is a day or more:
    one coin aged [stakeMinAge + stakeMaxAge] weighs [stakeMaxAge / ONE_DAY]
    coin-days, which is more than the formula with the clamp at
    [stakeMaxAge - stakeMinAge] allows. *)
Lemma getCoinDay_above_spec_clamp now :
  params_ok COIN nOneDay nStakeMinAge nStakeMaxAge ->
  nOneDay <= nStakeMinAge -> value_ok nStakeMaxAge COIN ->
  time_ok now -> nStakeMinAge + nStakeMaxAge <= now ->
  specCoinDay COIN nOneDay nStakeMinAge nStakeMaxAge now
    (KernelRecord_new 0 (now - nStakeMinAge - nStakeMaxAge) EmptyString COIN false)
  < getCoinDay COIN nOneDay nStakeMinAge nStakeMaxAge now
      (KernelRecord_new 0 (now - nStakeMinAge - nStakeMaxAge) EmptyString COIN false).
Proof.
  intros Hp Hday Hv Hnow Hage.
  pose proof Hp as (HC & HD & _ & Hmin & Hmax).
  unfold time_ok in Hnow.
  rewrite getCoinDay_saturated;
    [|assumption|assumption|unfold time_ok; simpl; lia|assumption|simpl; lia].
  unfold specCoinDay, specClampedWeight. simpl.
  replace (now - (now - nStakeMinAge - nStakeMaxAge) - nStakeMinAge)
    with nStakeMaxAge by lia.
  rewrite Z.max_l by lia. rewrite Z.min_r by lia.
  rewrite !Z.div_mul_cancel_l by lia.
  apply Z.le_lt_trans with ((nStakeMaxAge + -1 * nOneDay) / nOneDay).
  - apply Z.div_le_mono; lia.
  - rewrite Z.div_add by lia. lia.
Qed.

(** C1 (amended): within the range of the machine arithmetic [getCoinDay]
    returns [nValue * w / (COIN * ONE_DAY)] for the weight
    [w = min (max (now - nTime - stakeMinAge) 0) stakeMaxAge], clamped at
    [stakeMaxAge]; and for [nValue = 100 * COIN] and an age of at least
    [stakeMinAge + stakeMaxAge] the result is [100 * stakeMaxAge / ONE_DAY]
    and stays so when [now] advances by ten days. *)
Theorem getCoinDay_clamps_at_stakeMaxAge now r :
  params_ok COIN nOneDay nStakeMinAge nStakeMaxAge ->
  time_ok now -> time_ok (now + 10 * nOneDay) -> time_ok (nTime r) ->
  value_ok nStakeMaxAge (nValue r) ->
  getCoinDay COIN nOneDay nStakeMinAge nStakeMaxAge now r
  = nValue r * Z.min (Z.max (now - nTime r - nStakeMinAge) 0) nStakeMaxAge
    / (COIN * nOneDay)
  /\ (nValue r = 100 * COIN ->
      nStakeMinAge + nStakeMaxAge <= now - nTime r ->
      getCoinDay COIN nOneDay nStakeMinAge nStakeMaxAge now r
      = 100 * nStakeMaxAge / nOneDay
      /\ getCoinDay COIN nOneDay nStakeMinAge nStakeMaxAge
           (now + 10 * nOneDay) r
         = getCoinDay COIN nOneDay nStakeMinAge nStakeMaxAge now r).
Proof.
  intros Hp Hnow Hnow' Ht Hv. split.
  - apply getCoinDay_formula; assumption.
  - intros H100 Hage.
    assert (HD : 0 < nOneDay) by apply Hp.
    assert (HC : 0 < COIN) by apply Hp.
    rewrite !getCoinDay_saturated by (assumption || lia).
    split; [|reflexivity].
    rewrite H100.
    replace (100 * COIN * nStakeMaxAge) with (COIN * (100 * nStakeMaxAge)) by lia.
    apply Z.div_mul_cancel_l; lia.
Qed.

(** C2 (amended): for a fixed amount and a fixed adjusted time, [getCoinDay]
    does not increase as [nTime] grows; it is zero while the age is below
    [stakeMinAge]; and it no longer changes once the age has reached
    [stakeMinAge + stakeMaxAge]. *)
Theorem getCoinDay_monotone_in_nTime now r :
  params_ok COIN nOneDay nStakeMinAge nStakeMaxAge ->
  time_ok now -> value_ok nStakeMaxAge (nValue r) ->
  (forall t1 t2, time_ok t1 -> time_ok t2 -> t1 <= t2 ->
     getCoinDay COIN nOneDay nStakeMinAge nStakeMaxAge now (with_nTime r t2)
     <= getCoinDay COIN nOneDay nStakeMinAge nStakeMaxAge now (with_nTime r t1))
  /\ (forall t, time_ok t -> now - t < nStakeMinAge ->
     getCoinDay COIN nOneDay nStakeMinAge nStakeMaxAge now (with_nTime r t) = 0)
  /\ (forall t1 t2, time_ok t1 -> time_ok t2 ->
     nStakeMinAge + nStakeMaxAge <= now - t1 ->
     nStakeMinAge + nStakeMaxAge <= now - t2 ->
     getCoinDay COIN nOneDay nStakeMinAge nStakeMaxAge now (with_nTime r t1)
     = getCoinDay COIN nOneDay nStakeMinAge nStakeMaxAge now (with_nTime r t2)).
Proof.
  intros Hp Hnow Hv. split; [|split].
  - intros t1 t2 Ht1 Ht2 Hle.
    rewrite !getCoinDay_formula by assumption.
    destruct Hp as (HC & HD & _ & _ & Hmax). destruct Hv as [Hv _].
    apply Z.div_le_mono; [nia|].
    apply Z.mul_le_mono_nonneg_l; [exact Hv|].
    unfold clampedWeight; simpl. lia.
  - intros t Ht Hage. apply getCoinDay_young; assumption.
  - intros t1 t2 Ht1 Ht2 H1 H2.
    rewrite !getCoinDay_saturated by assumption. reflexivity.
Qed.




End Facts.

(** C1, witness: the constants of the examples and a record of 100 coins
    aged 130 days. *)
Lemma getCoinDay_clamps_at_stakeMaxAge_witness :
  getCoinDay COIN_ex nOneDay_ex nStakeMinAge_ex nStakeMaxAge_ex
             now_ex (record_ex (130 * 86400)) = 9000
  /\ getCoinDay COIN_ex nOneDay_ex nStakeMinAge_ex nStakeMaxAge_ex
                (now_ex + 10 * nOneDay_ex) (record_ex (130 * 86400)) = 9000.
Proof.
  destruct (getCoinDay_clamps_at_stakeMaxAge
              COIN_ex nOneDay_ex nStakeMinAge_ex nStakeMaxAge_ex
              now_ex (record_ex (130 * 86400))) as [_ Hs].
  - exact params_ok_ex.
  - unfold time_ok; vm_compute; intuition congruence.
  - unfold time_ok; vm_compute; intuition congruence.
  - unfold time_ok; vm_compute; intuition congruence.
  - unfold value_ok; vm_compute; intuition congruence.
  - destruct Hs as [H1 H2].
    + reflexivity.
    + vm_compute; congruence.
    + rewrite H2, H1. split; reflexivity.
Defined.

(** C1, counterexample: with a minimum age of 30 days and a maximum of 90,
    100 coins aged 120 days weigh 9000 coin-days, where the formula with the
    clamp at [stakeMaxAge - stakeMinAge] gives 6000; and at the age of
    [stakeMaxAge] plus ten days the result is 7000, not
    [100 * stakeMaxAge / ONE_DAY = 9000], and grows to 8000 ten days on. *)
Lemma getCoinDay_spec_clamp_counterexample :
  getCoinDay COIN_ex nOneDay_ex nStakeMinAge_ex nStakeMaxAge_ex
             now_ex (record_ex (120 * 86400))
  <> specCoinDay COIN_ex nOneDay_ex nStakeMinAge_ex nStakeMaxAge_ex
                 now_ex (record_ex (120 * 86400))
  /\ getCoinDay COIN_ex nOneDay_ex nStakeMinAge_ex nStakeMaxAge_ex
                now_ex (record_ex (nStakeMaxAge_ex + 10 * nOneDay_ex))
     <> 100 * nStakeMaxAge_ex / nOneDay_ex
  /\ getCoinDay COIN_ex nOneDay_ex nStakeMinAge_ex nStakeMaxAge_ex
                (now_ex + 10 * nOneDay_ex)
                (record_ex (nStakeMaxAge_ex + 10 * nOneDay_ex))
     <> getCoinDay COIN_ex nOneDay_ex nStakeMinAge_ex nStakeMaxAge_ex
                   now_ex (record_ex (nStakeMaxAge_ex + 10 * nOneDay_ex)).
Proof. vm_compute. repeat split; congruence. Qed.

(** C2, witness. *)
Lemma getCoinDay_monotone_in_nTime_witness :
  getCoinDay COIN_ex nOneDay_ex nStakeMinAge_ex nStakeMaxAge_ex now_ex
             (with_nTime (record_ex 0) (now_ex - 50 * 86400))
  <= getCoinDay COIN_ex nOneDay_ex nStakeMinAge_ex nStakeMaxAge_ex now_ex
                (with_nTime (record_ex 0) (now_ex - 60 * 86400)).
Proof.
  destruct (getCoinDay_monotone_in_nTime
              COIN_ex nOneDay_ex nStakeMinAge_ex nStakeMaxAge_ex
              now_ex (record_ex 0)) as [Hm _].
  - exact params_ok_ex.
  - unfold time_ok; vm_compute; intuition congruence.
  - unfold value_ok; vm_compute; intuition congruence.
  - apply Hm.
    + unfold time_ok; vm_compute; intuition congruence.
    + unfold time_ok; vm_compute; intuition congruence.
    + vm_compute; congruence.
Defined.

(** C2, counterexample: two records of 100 coins, 91 and 100 days old, are
    both older than [stakeMaxAge] = 90 days, yet weigh 6100 and 7000
    coin-days. *)
Lemma getCoinDay_not_constant_counterexample :
  nStakeMaxAge_ex < now_ex - nTime (record_ex (91 * 86400))
  /\ nStakeMaxAge_ex < now_ex - nTime (record_ex (100 * 86400))
  /\ getCoinDay COIN_ex nOneDay_ex nStakeMinAge_ex nStakeMaxAge_ex
                now_ex (record_ex (91 * 86400)) = 6100
  /\ getCoinDay COIN_ex nOneDay_ex nStakeMinAge_ex nStakeMaxAge_ex
                now_ex (record_ex (100 * 86400)) = 7000.
Proof. vm_compute. repeat split; congruence. Qed.



End KernelFacts.

(** ** [move] round trips *)

Module AccountingFacts.
Import Int IntFacts Rpc Accounting.

Lemma fold_sum_range (l : list CAccountingEntry) a :
  in_int64 a ->
  in_int64 (fold_left (fun acc e => wrap64 (acc + nCreditDebit e)) l a).
Proof.
  revert a. induction l as [|e l IH]; intros a Ha; simpl.
  - exact Ha.
  - apply IH, wrap64_range.
Qed.

Lemma entries_sum_range l : in_int64 (entries_sum l).
Proof. apply fold_sum_range. unfold in_int64. lia. Qed.

Lemma entries_sum_app l l' :
  entries_sum (l ++ l')
  = fold_left (fun acc e => wrap64 (acc + nCreditDebit e)) l' (entries_sum l).
Proof. unfold entries_sum. apply fold_left_app. Qed.

(** A credit followed by the matching debit cancels as well. *)
Lemma wrap64_cancel_neg a x :
  wrap64 (wrap64 (a + x) + wrap64 (- x)) = wrap64 a.
Proof.
  rewrite wrap64_add_l, wrap64_add_r. f_equal. lia.
Qed.

(** What a successful [move] of [vX] from [a] to [b] does to the wallet. *)
Lemma movecmd_ok AmountFromValue nMinimumInputValue db nNow w a b vX r w' :
  movecmd AmountFromValue nMinimumInputValue db nNow w
          [str_type a; str_type b; vX] false = (inr r, w') ->
  exists X,
    AmountFromValue vX = inr X /\
    mapWallet w' = mapWallet w /\
    acentries w' =
      acentries w ++
        [mkEntry (nOrderPosNext w) a (wrap64 (- X)) nNow b EmptyString;
         mkEntry (wrap64 (nOrderPosNext w + 1)) b X nNow a EmptyString].
Proof.
  unfold movecmd, movecmd_args, AccountFromValue, at_. simpl.
  destruct (String.eqb a "*"); simpl; [intros [=]|].
  destruct (String.eqb b "*"); simpl; [intros [=]|].
  destruct (AmountFromValue vX) as [e|X]; simpl; [intros [=]|].
  destruct (X <? nMinimumInputValue); simpl; [intros [=]|].
  destruct (TxnBegin db); simpl; [|intros [=]].
  destruct (TxnCommit db); simpl; [|intros [=]].
  intros [= _ <-]. exists X. simpl.
  rewrite <- app_assoc. simpl. auto.
Qed.

(** The four entries of a round trip leave every account's entry total as
    it was. *)
Lemma round_trip_credit_debit w w2 a b X t1 t2 p1 p2 p3 p4 c :
  acentries w2 =
    acentries w ++
      [mkEntry p1 a (wrap64 (- X)) t1 b EmptyString;
       mkEntry p2 b X t1 a EmptyString;
       mkEntry p3 b (wrap64 (- X)) t2 a EmptyString;
       mkEntry p4 a X t2 b EmptyString] ->
  GetAccountCreditDebit w2 c = GetAccountCreditDebit w c.
Proof.
  intros Hw2. unfold GetAccountCreditDebit. rewrite Hw2.
  rewrite List.filter_app, entries_sum_app.
  set (S := entries_sum (List.filter _ (acentries w))).
  assert (HS : wrap64 S = S) by apply wrap64_small, entries_sum_range.
  simpl.
  destruct (String.eqb a c), (String.eqb b c); simpl;
    rewrite ?wrap64_neg_cancel, ?wrap64_cancel_neg, ?wrap64_idem, ?HS;
    reflexivity.
Qed.

(** C4: after [move a b X] and then [move b a X] with nothing in between,
    every account's balance is what it was before the first move, and the
    four accounting entries the two moves wrote add up to zero. *)
Theorem move_round_trip AmountFromValue nMinimumInputValue
    db1 db2 now1 now2 w a b vX r1 w1 r2 w2 :
  movecmd AmountFromValue nMinimumInputValue db1 now1 w
          [str_type a; str_type b; vX] false = (inr r1, w1) ->
  movecmd AmountFromValue nMinimumInputValue db2 now2 w1
          [str_type b; str_type a; vX] false = (inr r2, w2) ->
  (forall c nMinDepth filter,
     GetAccountBalance w2 c nMinDepth filter
     = GetAccountBalance w c nMinDepth filter)
  /\ exists written,
       acentries w2 = acentries w ++ written
       /\ length written = 4%nat
       /\ entries_sum written = 0.
Proof.
  intros H1 H2.
  apply movecmd_ok in H1 as (X & HX & Hm1 & He1).
  apply movecmd_ok in H2 as (X' & HX' & Hm2 & He2).
  rewrite HX in HX'. injection HX' as <-.
  rewrite He1, <- app_assoc in He2. simpl in He2.
  split.
  - intros c nMinDepth filter. unfold GetAccountBalance.
    rewrite Hm2, Hm1. do 2 f_equal.
    eapply round_trip_credit_debit. exact He2.
  - eexists. split; [exact He2|]. split; [reflexivity|].
    unfold entries_sum. cbn [fold_left nCreditDebit].
    rewrite !wrap64_neg_cancel. reflexivity.
Qed.

(** C4, witness: starting from 50 coins on A and none on B, [move A B 20]
    and [move B A 20] both succeed and leave 50 coins on A and none on B. *)
Lemma move_round_trip_witness :
  GetAccountBalance wallet_ex "A" 1 MINE_SPENDABLE = 50 * COIN_ex
  /\ GetAccountBalance wallet_ex "B" 1 MINE_SPENDABLE = 0
  /\ GetAccountBalance wallet_ex1 "A" 1 MINE_SPENDABLE = 30 * COIN_ex
  /\ GetAccountBalance wallet_ex1 "B" 1 MINE_SPENDABLE = 20 * COIN_ex
  /\ GetAccountBalance wallet_ex2 "A" 1 MINE_SPENDABLE = 50 * COIN_ex
  /\ GetAccountBalance wallet_ex2 "B" 1 MINE_SPENDABLE = 0
  /\ entries_sum (acentries wallet_ex2) = 0.
Proof.
  destruct (move_round_trip AmountFromValue_ex 1 db_ok db_ok
              1700000000 1700000000 wallet_ex "A" "B" (int_type 20)
              (bool_type true) wallet_ex1 (bool_type true) wallet_ex2)
    as [Hbal _].
  - reflexivity.
  - reflexivity.
  - rewrite !Hbal. vm_compute. repeat split; reflexivity.
Defined.

End AccountingFacts.

(** ** Duplicate destinations in [sendmany] *)

Module SendManyFacts.
Import Int Rpc SendMany.

Section Facts.

Context {Address : Type} `{Countable Address}.
Variable CBitcoinAddress : string -> Address.
Variable IsValid : Address -> bool.
Variable IsPair : Address -> bool.
Variable AmountFromValue : Value -> Result Z.
Variable nMinimumInputValue : Z.







End Facts.



End SendManyFacts.

(** ** The relocking worker and [walletpassphrase] *)

Module RelockFacts.
Import Int IntFacts Rpc Relock.

Lemma set_unlock_time_same s : set_unlock_time s (nWalletUnlockTime s) = s.
Proof. destruct s; reflexivity. Qed.

(** What follows the first NUL of the argument never reaches [Unlock]. *)
Lemma c_str_app_nul a b :
  c_str (String.append a (String Ascii.zero b)) = c_str a.
Proof.
  induction a as [|c a IH]; simpl.
  - reflexivity.
  - destruct (Ascii.eqb c Ascii.zero); [reflexivity|]. rewrite IH. reflexivity.
Qed.

(** A call on an unlocked, encrypted wallet is turned away by the lock-state guard. *)
Lemma walletpassphrase_guard s params :
  IsCrypted (pwalletMain s) = true ->
  IsLocked (pwalletMain s) = false ->
  (2 <= length params <= 3)%nat ->
  walletpassphrase s params false = (inl already_unlocked, s).
Proof.
  intros Hc Hl Hn. unfold walletpassphrase. rewrite Hc, Hl. simpl.
  destruct (Nat.ltb_spec (length params) 2); [lia|].
  destruct (Nat.ltb_spec 3 (length params)); [lia|].
  reflexivity.
Qed.

(** What a call that returns normally has done. *)
Lemma walletpassphrase_ok s params v s' :
  walletpassphrase s params false = (inr v, s') ->
  IsCrypted (pwalletMain s) = true
  /\ IsLocked (pwalletMain s) = true
  /\ v = null_type
  /\ IsLocked (pwalletMain s') = false
  /\ nWalletUnlockTime s' = nWalletUnlockTime s
  /\ exists nSleepTime,
       get_int (at_ params 1) = inr nSleepTime
       /\ relockers s' = relockers s ++ [Spawned nSleepTime].
Proof.
  unfold walletpassphrase.
  destruct (IsCrypted (pwalletMain s)) eqn:Hc; simpl; [|intros [=]].
  destruct ((length params <? 2)%nat || (3 <? length params)%nat);
    [intros [=]|].
  destruct (IsLocked (pwalletMain s)) eqn:Hl; simpl; [|intros [=]].
  destruct (get_str (at_ params 0)) as [e|pass]; [intros [=]|].
  cbv zeta.
  destruct (0 <? String.length (c_str pass))%nat; [|intros [=]].
  unfold Unlock. rewrite Hc. simpl.
  destruct (String.eqb (c_str pass) (strMasterPass (pwalletMain s))); simpl;
    [|intros [=]].
  destruct (get_int (at_ params 1)) as [e|nSleepTime]; [intros [=]|].
  destruct (2 <? length params)%nat.
  - destruct (get_bool (at_ params 2)) as [e|b]; intros [= <- <-]; simpl; eauto 10.
  - intros [= <- <-]; simpl; eauto 10.
Qed.

(** A call that throws leaves the list of relocking threads alone. *)
Lemma walletpassphrase_thrown s params e s' :
  walletpassphrase s params false = (inl e, s') ->
  relockers s' = relockers s
  \/ exists nSleepTime, relockers s' = relockers s ++ [Spawned nSleepTime].
Proof.
  unfold walletpassphrase.
  repeat match goal with
  | |- context [if ?b then _ else _] => destruct b; simpl
  | |- context [match ?x with inl _ => _ | inr _ => _ end] => destruct x; simpl
  | |- context [let '(_, _) := ?x in _] => destruct x; simpl
  end; intros [= <- <-]; simpl; eauto.
Qed.

(** C9: on an encrypted wallet that is unlocked, [walletpassphrase] throws
    the wallet-already-unlocked error whatever the passphrase argument is,
    and the whole state (lock state, relock deadline, mint-only flag,
    threads) stays as it was; a call can only return normally from a locked
    wallet, and after [walletlock] a call whose passphrase argument, read
    as a C string up to its first NUL, is the wallet's passphrase does,
    scheduling a relock with the new timeout. *)
Theorem walletpassphrase_already_unlocked s params :
  IsCrypted (pwalletMain s) = true ->
  (2 <= length params <= 3)%nat ->
  (IsLocked (pwalletMain s) = false ->
     walletpassphrase s params false = (inl already_unlocked, s))
  /\ (forall v s', walletpassphrase s params false = (inr v, s') ->
        IsLocked (pwalletMain s) = true)
  /\ (forall pass nSleepTime,
        c_str pass = strMasterPass (pwalletMain s) ->
        c_str pass <> EmptyString ->
        let s1 := snd (walletlock s [] false) in
        fst (walletlock s [] false) = inr null_type
        /\ IsLocked (pwalletMain s1) = true
        /\ nWalletUnlockTime s1 = 0
        /\ exists s2,
             walletpassphrase s1 [str_type pass; int_type nSleepTime] false
               = (inr null_type, s2)
             /\ IsLocked (pwalletMain s2) = false
             /\ relockers s2 = relockers s ++ [Spawned nSleepTime]).
Proof.
  intros Hc Hn. split; [|split].
  - intros Hl. apply walletpassphrase_guard; assumption.
  - intros v s' Hok. apply walletpassphrase_ok in Hok. tauto.
  - intros pass nSleepTime Hpass Hne. unfold walletlock. rewrite Hc. simpl.
    unfold Lock. rewrite Hc. repeat split.
    unfold walletpassphrase, Unlock, at_. simpl.
    rewrite Hpass in *.
    destruct (strMasterPass (pwalletMain s)) as [|c p] eqn:Hp; [contradiction|].
    simpl. rewrite Ascii.eqb_refl, String.eqb_refl. simpl.
    eexists. repeat split.
Qed.

(** C9, witness: an unlocked wallet with a relock pending, and a call with
    a wrong passphrase. *)
Lemma walletpassphrase_already_unlocked_witness :
  walletpassphrase unlocked_ex [str_type "wrong"; int_type 30] false
  = (inl already_unlocked, unlocked_ex).
Proof.
  destruct (walletpassphrase_already_unlocked unlocked_ex
              [str_type "wrong"; int_type 30]) as [H _].
  - reflexivity.
  - simpl; lia.
  - apply H. reflexivity.
Defined.

(** A relocking thread that finds a relock pending only moves the deadline
    to the later of the two wake times and ends. *)
Lemma worker_extends now s nMyWakeTime :
  nWalletUnlockTime s <> 0 ->
  worker_step now s (Entering nMyWakeTime)
  = Some (set_unlock_time s (Z.max (nWalletUnlockTime s) nMyWakeTime), Finished).
Proof.
  intros Hne. unfold worker_step.
  destruct (Z.eqb_spec (nWalletUnlockTime s) 0); [contradiction|].
  destruct (Z.ltb_spec (nWalletUnlockTime s) nMyWakeTime).
  - rewrite Z.max_r by lia. reflexivity.
  - rewrite Z.max_l by lia. rewrite set_unlock_time_same. reflexivity.
Qed.

(** A sleeping thread that wakes before the deadline goes back to sleep
    until the deadline. *)
Lemma worker_sleeps_on now s wake :
  0 <= now -> wake <= now -> now < nWalletUnlockTime s ->
  in_int64 (nWalletUnlockTime s - now) ->
  worker_step now s (Sleeping wake) = Some (s, Sleeping (nWalletUnlockTime s)).
Proof.
  intros H0 Hw Hlt Hr. unfold worker_step, relock_loop.
  destruct (Z.leb_spec wake now); [|lia].
  destruct (Z.eqb_spec (nWalletUnlockTime s) 0); [lia|].
  rewrite wrap64_small by assumption.
  destruct (Z.leb_spec (nWalletUnlockTime s - now) 0); [lia|].
  do 3 f_equal. lia.
Qed.

(** C6 (amended): a relocking thread that starts while a relock is pending
    only moves [nWalletUnlockTime] to the later of the two wake times and
    ends, without sleeping or locking; every [walletpassphrase] call that
    returns normally starts one more such thread; a call on a wallet that is
    already unlocked is rejected and changes nothing.  So
    [walletpassphrase(p, 10)] followed three seconds later by
    [walletpassphrase(p, 30)] has the second call fail with
    wallet-already-unlocked, and the wallet is locked again ten seconds
    after the first call. *)
Theorem relocker_extends_deadline :
  (forall now s nMyWakeTime,
     nWalletUnlockTime s <> 0 ->
     worker_step now s (Entering nMyWakeTime)
     = Some (set_unlock_time s (Z.max (nWalletUnlockTime s) nMyWakeTime),
             Finished))
  /\ (forall s params v s',
        walletpassphrase s params false = (inr v, s') ->
        exists nSleepTime, relockers s' = relockers s ++ [Spawned nSleepTime])
  /\ (forall s params,
        IsCrypted (pwalletMain s) = true ->
        IsLocked (pwalletMain s) = false ->
        (2 <= length params <= 3)%nat ->
        walletpassphrase s params false = (inl already_unlocked, s))
  /\ run schedule_S5_calls (locked_wallet "p")
     = Some ([inr null_type; inl already_unlocked],
             mkSys (mkCWallet true false "p") (t0 + 10000) false
                   [Sleeping (t0 + 10000)] 1)
  /\ run schedule_S5 (locked_wallet "p")
     = Some ([inr null_type; inl already_unlocked],
             mkSys (mkCWallet true true "p") 0 false [Finished] 1).
Proof.
  split; [|split; [|split; [|split]]].
  - intros now s w Hne. apply worker_extends, Hne.
  - intros s params v s' Hok.
    apply walletpassphrase_ok in Hok as (_ & _ & _ & _ & _ & n & _ & Hn).
    exists n. exact Hn.
  - intros s params. apply walletpassphrase_guard.
  - vm_compute. reflexivity.
  - vm_compute. reflexivity.
Qed.

(** C6, witness: in [schedule_extend] the second thread finds the deadline
    of the first (ten seconds) and moves it to its own (thirty seconds). *)
Lemma relocker_extends_deadline_witness :
  run schedule_extend (locked_wallet "p")
  = Some ([inr null_type; inr null_type; inr null_type],
          mkSys (mkCWallet true false "p") (t0 + 10003) false
                [Sleeping (t0 + 10003); Entering (t0 + 30004)] 2)
  /\ worker_step (t0 + 4)
       (mkSys (mkCWallet true false "p") (t0 + 10003) false
              [Sleeping (t0 + 10003); Entering (t0 + 30004)] 2)
       (Entering (t0 + 30004))
     = Some (mkSys (mkCWallet true false "p") (t0 + 30004) false
                   [Sleeping (t0 + 10003); Entering (t0 + 30004)] 2,
             Finished).
Proof.
  split.
  - vm_compute. reflexivity.
  - destruct relocker_extends_deadline as [Hext _].
    rewrite Hext; [reflexivity|].
    vm_compute. congruence.
Defined.

(** C6, counterexample: in the scenario the second call is rejected and the
    wallet is locked again at [t0 + 10 s], long before [t0 + 33 s]; and a
    second relocking thread can be alive next to the first: after unlock,
    [walletlock] and another unlock, two threads sleep at once. *)
Lemma relocker_scenario_counterexample :
  (exists s, run schedule_S5 (locked_wallet "p")
             = Some ([inr null_type; inl already_unlocked], s)
             /\ IsLocked (pwalletMain s) = true)
  /\ (exists rs s, run schedule_two_sleepers (locked_wallet "p") = Some (rs, s)
                   /\ relockers s
                      = [Sleeping (t0 + 100000); Sleeping (t0 + 102000)]
                   /\ alive_relockers s = 2%nat).
Proof.
  split.
  - eexists. split; [vm_compute; reflexivity|]. reflexivity.
  - do 2 eexists. split; [vm_compute; reflexivity|]. split; reflexivity.
Qed.

End RelockFacts.

(** ** [listsinceblock] *)

Module ListSinceFacts.
Import Int IntFacts Rpc ListSince.

Lemma heights_from_bounds top chain b :
  heights_from top chain -> In b chain -> 0 <= nHeight b <= top.
Proof.
  revert top. induction chain as [|x chain IH]; intros top Hh Hin.
  - destruct Hin.
  - destruct Hh as [Hx Hrest]. destruct Hin as [->|Hin].
    + assert (-1 <= top - 1); [|lia].
      clear -Hrest. revert Hrest. generalize (top - 1).
      induction chain as [|y chain IH]; simpl; intros t Ht; [lia|].
      destruct Ht as [_ Ht]. apply IH in Ht. lia.
    + specialize (IH _ Hrest Hin). lia.
Qed.

(** Walking back along [pprev] finds the block at the target height when
    there is one. *)
Lemma walk_back_finds top chain target :
  heights_from top chain -> 0 <= target <= top ->
  exists b, walk_back chain target = Some b /\ In b chain /\ nHeight b = target.
Proof.
  revert top. induction chain as [|x chain IH]; intros top Hh Ht; simpl in *.
  - lia.
  - destruct Hh as [Hx Hrest].
    destruct (Z.gtb_spec (nHeight x) target) as [Hgt|Hle].
    + destruct (IH (top - 1) Hrest) as (b & Hb & Hin & Hhb); [lia|].
      exists b. auto.
    + exists x. repeat split; [auto | lia].
Qed.

(** ... and runs off the end of the chain when the target is below the
    genesis block. *)
Lemma walk_back_none top chain target :
  heights_from top chain -> target < 0 -> walk_back chain target = None.
Proof.
  revert top. induction chain as [|x chain IH]; intros top Hh Ht; simpl in *.
  - reflexivity.
  - destruct Hh as [Hx Hrest].
    assert (0 <= nHeight x <= top)
      by (apply heights_from_bounds with (chain := x :: chain);
          [split; assumption | left; reflexivity]).
    destruct (Z.gtb_spec (nHeight x) target); [|lia].
    eapply IH; eassumption.
Qed.

Lemma find_by_hash chain b :
  List.NoDup (map GetBlockHash chain) -> In b chain ->
  List.find (fun x => GetBlockHash x =? GetBlockHash b) chain = Some b.
Proof.
  induction chain as [|x chain IH]; intros Hnd Hin; simpl in *.
  - destruct Hin.
  - apply NoDup_cons_iff in Hnd as [Hx Hnd].
    destruct (Z.eqb_spec (GetBlockHash x) (GetBlockHash b)) as [Heq|Hne].
    + destruct Hin as [->|Hin]; [reflexivity|].
      exfalso. apply Hx. rewrite Heq. apply in_map, Hin.
    + destruct Hin as [->|Hin]; [congruence|]. apply IH; assumption.
Qed.

Lemma flat_map_selected {A B} (p : A -> bool) (f : A -> list B) l :
  flat_map (fun x => if p x then f x else []) l = flat_map f (List.filter p l).
Proof.
  induction l as [|x l IH]; simpl; [reflexivity|].
  destruct (p x); simpl; rewrite IH; reflexivity.
Qed.

Section Facts.

Variable Row : Type.
Variable ListTransactions :
  CWalletTx -> string -> Z -> bool -> Accounting.isminefilter -> list Row.
Variable SetHex : string -> Z.

(** C7 (amended): for a [blockhash] that names a main-chain block and
    [1 <= target-confirms <= best-height + 1], [listsinceblock] lists
    exactly the wallet transactions whose depth is below
    [best-height - block.height + 1], and reports as [lastblock] the hash of
    the main-chain block at height [best-height - target-confirms + 1];
    without arguments it lists every wallet transaction and reports the best
    block; a larger [target-confirms] that fits an [int] reports the zero
    hash, and a smaller one that fits an [int] is rejected as an invalid
    parameter; whatever integer is passed, the call does what it does for
    that integer narrowed to [int]. *)
Theorem listsinceblock_selects c mapWallet hex b :
  chain_ok c -> In b (bestChain c) -> GetBlockHash b = SetHex hex ->
  (forall target_confirms,
     1 <= target_confirms <= nBestHeight c + 1 ->
     exists last,
       In last (bestChain c)
       /\ nHeight last = nBestHeight c - target_confirms + 1
       /\ listsinceblock Row ListTransactions SetHex c mapWallet
            [str_type hex; int_type target_confirms] false
          = inr (mkSince
              (flat_map
                 (fun tx => ListTransactions tx "*" 0 true Accounting.MINE_SPENDABLE)
                 (List.filter
                    (fun tx => GetDepthInMainChain tx
                               <? nBestHeight c - nHeight b + 1)
                    mapWallet))
              (GetBlockHash last)))
  /\ listsinceblock Row ListTransactions SetHex c mapWallet [] false
     = inr (mkSince
         (flat_map
            (fun tx => ListTransactions tx "*" 0 true Accounting.MINE_SPENDABLE)
            mapWallet)
         (hashBestChain c))
  /\ (forall target_confirms,
        nBestHeight c + 1 < target_confirms < 2 ^ 31 ->
        exists txs,
          listsinceblock Row ListTransactions SetHex c mapWallet
            [str_type hex; int_type target_confirms] false
          = inr (mkSince txs 0))
  /\ (forall target_confirms,
        - 2 ^ 31 <= target_confirms < 1 ->
        listsinceblock Row ListTransactions SetHex c mapWallet
          [str_type hex; int_type target_confirms] false
        = inl (JSONRPCError RPC_INVALID_PARAMETER "Invalid parameter"))
  /\ (forall target_confirms,
        listsinceblock Row ListTransactions SetHex c mapWallet
          [str_type hex; int_type target_confirms] false
        = listsinceblock Row ListTransactions SetHex c mapWallet
            [str_type hex; int_type (wrap32 target_confirms)] false).
Proof.
  intros Hok Hin Hhash.
  unfold chain_ok in Hok.
  destruct (bestChain c) as [|pindexBest pprev] eqn:Hchain; [contradiction|].
  destruct Hok as (Hbest & Hbesthash & Hheights & Hnodup & Hrange).
  pose proof (heights_from_bounds _ _ _ Hheights Hin) as Hb.
  assert (Hpindex : GetBlockIndex c (SetHex hex) = Some b).
  { unfold GetBlockIndex. rewrite Hchain, <- Hhash.
    rewrite find_by_hash by assumption. reflexivity. }
  assert (Hdepth : since_depth c (Some b) = nBestHeight c - nHeight b + 1).
  { unfold since_depth.
    rewrite (wrap32_small (1 + nBestHeight c)) by (unfold in_int32; lia).
    rewrite wrap32_small by (unfold in_int32; lia). lia. }
  assert (Hsel : forall tx, selected (nBestHeight c - nHeight b + 1) tx
                 = (GetDepthInMainChain tx <? nBestHeight c - nHeight b + 1)).
  { intros tx. unfold selected.
    destruct (Z.eqb_spec (nBestHeight c - nHeight b + 1) (-1)); [lia|].
    reflexivity. }
  assert (Hlast : forall tc, 1 < tc < 2 ^ 31 ->
            last_block c tc
            = match walk_back (bestChain c) (nBestHeight c - tc + 1) with
              | Some block => GetBlockHash block
              | None => 0
              end).
  { intros tc Hr. unfold last_block.
    destruct (Z.eqb_spec tc 1); [lia|].
    rewrite Hchain, <- Hbest.
    rewrite (wrap32_small (nBestHeight c + 1)) by (unfold in_int32; lia).
    rewrite wrap32_small by (unfold in_int32; lia).
    replace (nBestHeight c + 1 - tc) with (nBestHeight c - tc + 1) by lia.
    reflexivity. }
  assert (Hcall : forall tc, 1 <= tc < 2 ^ 31 ->
            listsinceblock Row ListTransactions SetHex c mapWallet
              [str_type hex; int_type tc] false
            = inr (mkSince
                (flat_map
                   (fun tx => ListTransactions tx "*" 0 true
                                               Accounting.MINE_SPENDABLE)
                   (List.filter
                      (fun tx => GetDepthInMainChain tx
                                 <? nBestHeight c - nHeight b + 1)
                      mapWallet))
                (last_block c tc))).
  { intros tc Htc. unfold listsinceblock, get_int32, at_.
    cbn [length Nat.ltb Nat.leb nth get_str get_int bind ok].
    rewrite Hpindex. cbn [bind].
    rewrite (wrap32_small tc) by (unfold in_int32; lia).
    destruct (Z.ltb_spec tc 1); [lia|]. cbn [bind].
    rewrite Hdepth, flat_map_selected.
    rewrite (List.filter_ext _ _ Hsel). reflexivity. }
  split; [|split; [|split; [|split]]].
  - intros tc Htc.
    destruct (walk_back_finds _ _ (nBestHeight c - tc + 1) Hheights)
      as (last & Hwalk & Hlast' & Hh); [lia|].
    exists last. split; [rewrite ?Hchain; exact Hlast'|]. split; [exact Hh|].
    rewrite Hcall by lia. do 2 f_equal.
    destruct (Z.eq_dec tc 1) as [->|Hne].
    + unfold last_block. simpl. rewrite Hbesthash.
      destruct Hheights as [Htop _].
      replace (nBestHeight c - 1 + 1) with (nHeight pindexBest) in Hwalk by lia.
      simpl in Hwalk.
      destruct (Z.gtb_spec (nHeight pindexBest) (nHeight pindexBest)); [lia|].
      congruence.
    + rewrite Hlast by lia.
      rewrite Hchain, Hwalk. reflexivity.
  - reflexivity.
  - intros tc Htc. eexists. rewrite Hcall by lia.
    rewrite Hlast by lia.
    rewrite Hchain, (walk_back_none _ _ _ Hheights) by lia. reflexivity.
  - intros tc Htc.
    unfold listsinceblock, get_int32, at_.
    cbn [length Nat.ltb Nat.leb nth get_str get_int bind ok].
    rewrite Hpindex. cbn [bind].
    rewrite (wrap32_small tc) by (unfold in_int32; lia).
    destruct (Z.ltb_spec tc 1); [|lia]. reflexivity.
  - intros tc.
    unfold listsinceblock, get_int32, at_.
    cbn [length Nat.ltb Nat.leb nth get_str get_int bind ok].
    rewrite wrap32_idem. reflexivity.
Qed.

End Facts.

Lemma chain_ok_ex : chain_ok chain_ex.
Proof.
  unfold chain_ok, chain_ex. simpl. repeat split; try reflexivity.
  repeat constructor; simpl; intuition congruence.
Qed.

(** C7, witness: since the middle block of the example chain, with two
    confirmations asked for. *)
Lemma listsinceblock_selects_witness :
  listsinceblock_ex [str_type "65"; int_type 2]
  = inr (mkSince [9] 101).
Proof.
  destruct (listsinceblock_selects Z ListTransactions_ex SetHex_ex
              chain_ex wallet_ex "65" (mkIndex 1 101)) as [H _].
  - exact chain_ok_ex.
  - simpl. auto.
  - reflexivity.
  - destruct (H 2) as (last & Hin & Hh & Hres); [simpl; lia|].
    unfold listsinceblock_ex. rewrite Hres.
    simpl in Hin, Hh.
    destruct Hin as [<-|[<-|[<-|[]]]]; simpl in Hh; try lia.
    reflexivity.
Defined.

(** C7, counterexample: on the example chain of height 2 a call with five
    target confirmations reports the zero hash, which is no block's hash;
    the chain has no block at height [2 - 5 + 1]. *)
Lemma listsinceblock_lastblock_counterexample :
  exists res,
    listsinceblock_ex [str_type "65"; int_type 5] = inr res
    /\ lastblock res = 0
    /\ forall b, In b (bestChain chain_ex) ->
         GetBlockHash b <> lastblock res
         /\ nHeight b <> nBestHeight chain_ex - 5 + 1.
Proof.
  eexists. split; [reflexivity|]. split; [reflexivity|].
  intros b Hb. simpl in Hb.
  destruct Hb as [<-|[<-|[<-|[]]]]; split; vm_compute; congruence.
Qed.

End ListSinceFacts.

(** ** The STUN server walk *)

Module StunFacts.
Import Int IntFacts Stun.

Lemma StunSrvListQty_eq : StunSrvListQty = 893.
Proof. vm_compute. reflexivity. Qed.

(** Or-ing the top byte in is an addition: the shifted value is below
    [2^56]. *)
Lemma next_rnd_add rnd :
  0 <= rnd < 2 ^ 64 -> next_rnd rnd = rnd / 2 ^ 8 + 255 * 2 ^ 56.
Proof.
  intros Hr. unfold next_rnd.
  rewrite Z.shiftr_div_pow2 by lia.
  set (a := rnd / 2 ^ 8).
  assert (Ha : 0 <= a < 2 ^ 56).
  { unfold a. split; [apply Z.div_pos; lia|].
    apply Z.div_lt_upper_bound; lia. }
  change 0xff00000000000000 with (Z.shiftl 255 56).
  assert (Hland : Z.land a (Z.shiftl 255 56) = 0).
  { apply Z.bits_inj'. intros n Hn.
    rewrite Z.land_spec, Z.bits_0.
    destruct (Z.lt_ge_cases n 56) as [Hlt|Hge].
    - rewrite Z.shiftl_spec_low by exact Hlt. apply andb_false_r.
    - destruct (Z.eq_dec a 0) as [->|Hnz]; [rewrite Z.bits_0; reflexivity|].
      rewrite Z.bits_above_log2; [reflexivity|lia|].
      apply Z.lt_le_trans with 56; [|exact Hge].
      apply Z.log2_lt_pow2; lia. }
  rewrite <- Z.lxor_lor, <- Z.add_nocarry_lxor by exact Hland.
  rewrite Z.shiftl_mul_pow2 by lia. reflexivity.
Qed.

(** Each pass fills one more byte from the top with ones. *)
Lemma next_rnd_fills m rnd :
  8 <= m <= 64 ->
  2 ^ 64 - 2 ^ m <= rnd < 2 ^ 64 ->
  2 ^ 64 - 2 ^ (m - 8) <= next_rnd rnd < 2 ^ 64.
Proof.
  intros Hm Hr.
  assert (Hp : 0 < 2 ^ (m - 8)) by (apply Z.pow_pos_nonneg; lia).
  assert (Hm8 : 2 ^ m = 2 ^ (m - 8) * 2 ^ 8)
    by (rewrite <- Z.pow_add_r by lia; f_equal; lia).
  assert (H0 : 0 <= rnd).
  { assert (2 ^ m <= 2 ^ 64) by (apply Z.pow_le_mono_r; lia). lia. }
  rewrite next_rnd_add by lia.
  assert (Hlow : 2 ^ 56 - 2 ^ (m - 8) <= rnd / 2 ^ 8).
  { apply Z.div_le_lower_bound; lia. }
  assert (Hhigh : rnd / 2 ^ 8 < 2 ^ 56).
  { apply Z.div_lt_upper_bound; lia. }
  lia.
Qed.

(** After eight passes every input has become [0xFFFFFFFFFFFFFFFF]. *)
Lemma next_rnd_saturates rnd :
  0 <= rnd < 2 ^ 64 -> Nat.iter 8 next_rnd rnd = 0xFFFFFFFFFFFFFFFF.
Proof.
  intros Hr.
  assert (H0 : 2 ^ 64 - 2 ^ 64 <= rnd < 2 ^ 64) by lia.
  apply (next_rnd_fills 64) in H0; [|lia].
  apply (next_rnd_fills 56) in H0; [|lia].
  apply (next_rnd_fills 48) in H0; [|lia].
  apply (next_rnd_fills 40) in H0; [|lia].
  apply (next_rnd_fills 32) in H0; [|lia].
  apply (next_rnd_fills 24) in H0; [|lia].
  apply (next_rnd_fills 16) in H0; [|lia].
  apply (next_rnd_fills 8) in H0; [|lia].
  cbn [Nat.iter nat_rect]. simpl Z.sub in H0. lia.
Qed.

Lemma step_of_range rnd : 0 <= step_of rnd < StunSrvListQty.
Proof.
  unfold step_of. rewrite StunSrvListQty_eq.
  pose proof (Z.mod_pos_bound rnd 893).
  rewrite wrapu16_small; lia.
Qed.

(** The loop stops at the latest when an iterate with a non-zero step comes
    up, and what it returns has a non-zero step. *)
Lemma select_step_stops fuel : forall rnd,
  fuel <> O ->
  step_of (Nat.iter fuel next_rnd rnd) <> 0 ->
  exists rnd' step,
    select_step fuel rnd = Some (rnd', step)
    /\ step = step_of rnd' /\ 1 <= step < StunSrvListQty.
Proof.
  induction fuel as [|fuel IH]; intros rnd Hfuel Hnz; [contradiction|].
  cbn [select_step].
  destruct (Z.eqb_spec (step_of (next_rnd rnd)) 0) as [Hz|Hs].
  - rewrite Nat.iter_succ_r in Hnz.
    apply IH; [|exact Hnz].
    intros ->. cbn [Nat.iter nat_rect] in Hnz. contradiction.
  - exists (next_rnd rnd), (step_of (next_rnd rnd)).
    pose proof (step_of_range (next_rnd rnd)). repeat split; lia.
Qed.

Lemma select_step_total rnd :
  0 <= rnd < 2 ^ 64 ->
  exists rnd' step,
    select_step 8 rnd = Some (rnd', step)
    /\ step = step_of rnd' /\ 1 <= step < StunSrvListQty.
Proof.
  intros Hr. apply select_step_stops; [discriminate|].
  rewrite next_rnd_saturates by exact Hr.
  unfold step_of. rewrite StunSrvListQty_eq. vm_compute. discriminate.
Qed.

(** The loop taken one step further back in the iteration. *)
Lemma select_step_iter fuel : forall rnd rnd' step,
  select_step fuel rnd = Some (rnd', step) ->
  exists k : nat,
    (1 <= k <= fuel)%nat
    /\ rnd' = Nat.iter k next_rnd rnd
    /\ step = step_of rnd'
    /\ (forall j : nat, (1 <= j < k)%nat ->
          step_of (Nat.iter j next_rnd rnd) = 0).
Proof.
  induction fuel as [|fuel IH]; intros rnd rnd' step; cbn [select_step].
  - intros [=].
  - destruct (Z.eqb_spec (step_of (next_rnd rnd)) 0) as [Hz|Hs].
    + intros Hsel. apply IH in Hsel as (k & Hk & Hrnd & Hstep & Hbefore).
      exists (S k). rewrite Nat.iter_succ_r.
      split; [lia|]. split; [exact Hrnd|]. split; [exact Hstep|].
      intros j Hj. destruct j as [|j]; [lia|].
      rewrite Nat.iter_succ_r.
      destruct j as [|j]; [exact Hz|]. apply Hbefore. lia.
    + intros [= <- <-]. exists 1%nat.
      split; [lia|]. split; [reflexivity|]. split; [reflexivity|].
      intros j Hj. lia.
Qed.

Lemma ntohs_nonneg b0 b1 : 0 <= ntohs b0 b1.
Proof. unfold ntohs. lia. Qed.

Lemma byte_at_skipn (data : list Byte.byte) n i :
  byte_at (skipn n data) i = byte_at data (n + i).
Proof.
  unfold byte_at. revert data.
  induction n as [|n IH]; intros data; [reflexivity|].
  destruct data as [|b data]; simpl.
  - destruct i; reflexivity.
  - apply IH.
Qed.

(** The attribute loop hands back [ret] or one of its two error codes. *)
Lemma attr_loop_ret passes : forall data len ret sa,
  fst (attr_loop passes data len ret sa) = ret
  \/ fst (attr_loop passes data len ret sa) = -21
  \/ fst (attr_loop passes data len ret sa) = -22.
Proof.
  induction passes as [|passes IH]; intros data len ret sa; cbn [attr_loop].
  - auto.
  - destruct (len =? 0); [auto|].
    destruct (len <? sizeof_stun_attr); [auto|].
    destruct (_ >? len); [auto|]. apply IH.
Qed.

(** [len] passes are enough: with more the loop does the same. *)
Lemma attr_loop_enough p1 : forall p2 data len ret sa,
  0 <= len -> (Z.to_nat len <= p1)%nat -> (Z.to_nat len <= p2)%nat ->
  attr_loop p1 data len ret sa = attr_loop p2 data len ret sa.
Proof.
  induction p1 as [|p1 IH]; intros p2 data len ret sa H0 H1 H2.
  - assert (len = 0) as -> by lia. destruct p2; reflexivity.
  - destruct p2 as [|p2].
    + assert (len = 0) as -> by lia. reflexivity.
    + cbn [attr_loop].
      destruct (Z.eqb_spec len 0); [reflexivity|].
      destruct (Z.ltb_spec len sizeof_stun_attr); [reflexivity|].
      pose proof (ntohs_nonneg (byte_at data 2) (byte_at data 3)).
      unfold sizeof_stun_attr in *.
      destruct (Z.gtb_spec (ntohs (byte_at data 2) (byte_at data 3) + 4) len);
        [reflexivity|].
      apply IH; lia.
Qed.

(** Whatever the loop leaves in [*sa] it found in a MAPPED-ADDRESS
    attribute of the buffer, unless it left what was there. *)
Lemma attr_loop_mapped (data0 : list Byte.byte) passes :
  forall (n : nat) len ret sa,
  (Z.to_nat sizeof_stun_header <= n)%nat ->
  0 <= len -> (n + Z.to_nat len <= length data0)%nat ->
  sa = sockaddr_zero \/ carries_mapped data0 sa ->
  snd (attr_loop passes (skipn n data0) len ret sa) = sockaddr_zero
  \/ carries_mapped data0 (snd (attr_loop passes (skipn n data0) len ret sa)).
Proof.
  induction passes as [|passes IH]; intros n len ret sa Hn H0 Hlen Hsa;
    cbn [attr_loop].
  - exact Hsa.
  - destruct (Z.eqb_spec len 0); [exact Hsa|].
    destruct (Z.ltb_spec len sizeof_stun_attr); [exact Hsa|].
    pose proof (ntohs_nonneg (byte_at (skipn n data0) 2)
                             (byte_at (skipn n data0) 3)) as Hx.
    unfold sizeof_stun_attr in *.
    set (x := ntohs (byte_at (skipn n data0) 2) (byte_at (skipn n data0) 3)
              + 4) in *.
    destruct (Z.gtb_spec x len) as [Hbig|Hfit]; [exact Hsa|].
    rewrite skipn_skipn.
    replace (Z.to_nat x + n)%nat with (n + Z.to_nat x)%nat by lia.
    apply IH; try lia.
    unfold stun_get_mapped.
    destruct (Z.eqb_spec (ntohs (byte_at (skipn n data0) 0)
                                (byte_at (skipn n data0) 1))
                         STUN_MAPPED_ADDRESS) as [Htype|Htype];
      [|exact Hsa].
    destruct (Z.eqb_spec (ntohs (byte_at (skipn n data0) 2)
                                (byte_at (skipn n data0) 3)) 8)
      as [Height|Height]; [|exact Hsa].
    right. exists n. cbn [negb orb snd sin_port sin_addr].
    rewrite !byte_at_skipn in *.
    replace (n + 0)%nat with n in Htype by lia.
    assert (x = 12) by (unfold x; rewrite !byte_at_skipn; lia).
    repeat split; try assumption; lia.
Qed.

(** A datagram [stun_handle_packet] does not turn down is at least a
    header long, its length is what comes back, and [*mapped] is as
    [accepted_reply] says. *)
Lemma stun_handle_packet_accepts data rc mapped :
  stun_handle_packet data (Z.of_nat (length data)) sockaddr_zero
  = (rc, mapped) ->
  0 <= rc -> accepted_reply data mapped.
Proof.
  unfold accepted_reply, stun_handle_packet.
  destruct (Z.ltb_spec (Z.of_nat (length data)) sizeof_stun_header) as [Hs|Hl].
  - intros [= <- <-]. lia.
  - set (len := if _ <? _ then _ else _).
    assert (Hlen : 0 <= len <= Z.of_nat (length data) - sizeof_stun_header).
    { unfold len.
      pose proof (ntohs_nonneg (byte_at data 2) (byte_at data 3)).
      destruct (Z.ltb_spec (ntohs (byte_at data 2) (byte_at data 3))
                           (Z.of_nat (length data) - sizeof_stun_header));
        lia. }
    intros Hrun Hrc.
    pose proof (attr_loop_ret (Z.to_nat len)
                  (skipn (Z.to_nat sizeof_stun_header) data) len
                  (Z.of_nat (length data)) sockaddr_zero) as Hret.
    pose proof (attr_loop_mapped data (Z.to_nat len)
                  (Z.to_nat sizeof_stun_header) len
                  (Z.of_nat (length data)) sockaddr_zero) as Hmapped.
    rewrite Hrun in Hret, Hmapped. cbn [fst snd] in Hret, Hmapped.
    split; [exact Hl|]. split.
    + rewrite Hrun. f_equal. lia.
    + apply Hmapped; [lia|lia| |left; reflexivity].
      unfold sizeof_stun_header in *. lia.
Qed.

(** A header with one MAPPED-ADDRESS attribute behind it leaves the port
    and the address of that attribute. *)
Lemma recv_mapped_address_reply t0 t1 id u f p0 p1 a0 a1 a2 a3 :
  length id = 16%nat ->
  StunRequest (Replied (mapped_address_reply t0 t1 id u f p0 p1 a0 a1 a2 a3))
              sockaddr_zero
  = (32, mkSockaddr (ntohs p0 p1) (ntohl a0 a1 a2 a3)).
Proof.
  intros Hid.
  do 16 (destruct id as [|? id]; [discriminate Hid|]).
  destruct id; [|discriminate Hid].
  vm_compute. reflexivity.
Qed.

(** A datagram of just a header leaves [*mapped] zeroed. *)
Lemma stun_handle_packet_bare data sa :
  Z.of_nat (length data) = sizeof_stun_header ->
  stun_handle_packet data (Z.of_nat (length data)) sa = (sizeof_stun_header, sa).
Proof.
  intros Hlen. unfold stun_handle_packet. rewrite Hlen.
  rewrite Z.ltb_irrefl, Z.sub_diag.
  pose proof (ntohs_nonneg (byte_at data 2) (byte_at data 3)).
  destruct (Z.ltb_spec (ntohs (byte_at data 2) (byte_at data 3)) 0); [lia|].
  reflexivity.
Qed.

Lemma StunRequest_rc o mapped : fst (StunRequest o mapped) = probe_rc o.
Proof.
  destruct o; try reflexivity. unfold probe_rc. cbn [StunRequest].
  destruct (_ <=? 0); reflexivity.
Qed.

(** A request only succeeds on a reply that [stun_handle_packet] goes
    through to the end, and then [*mapped] holds what that left there. *)
Lemma StunRequest_success o mapped rc mapped' :
  StunRequest o mapped = (rc, mapped') -> 0 <= rc ->
  exists datagram,
    o = Replied datagram /\ accepted_reply (firstn 1023 datagram) mapped'.
Proof.
  destruct o; cbn [StunRequest]; try (intros [= <- <-]; lia).
  destruct (Z.leb_spec (Z.of_nat (length (firstn 1023 datagram))) 0);
    [intros [= <- <-]; lia|].
  intros Hrun Hrc. exists datagram. split; [reflexivity|].
  eapply stun_handle_packet_accepts; eassumption.
Qed.

Section Walk.

Variable net : Z -> Z -> NetOutcome.
Variables (rnd step : Z).

Lemma walk_pos_range k : 0 <= walk_pos rnd step k < StunSrvListQty.
Proof.
  unfold walk_pos. apply Z.mod_pos_bound. rewrite StunSrvListQty_eq. lia.
Qed.

Lemma walked_snoc trace :
  walked rnd step trace ->
  walked rnd step (trace ++ [walk_pos rnd step (Z.of_nat (length trace) + 1)]).
Proof.
  intros Hw k Hk. rewrite length_app in Hk. simpl in Hk.
  destruct (Nat.lt_ge_cases k (length trace)) as [Hlt|Hge].
  - rewrite app_nth1 by exact Hlt. apply Hw, Hlt.
  - assert (k = length trace) as -> by lia.
    rewrite nth_middle. reflexivity.
Qed.

Lemma all_failed_snoc trace p :
  all_failed net trace ->
  probe_rc (net (Z.of_nat (length trace) + 1) p) < 0 ->
  all_failed net (trace ++ [p]).
Proof.
  intros Hf Hp k Hk. rewrite length_app in Hk. simpl in Hk.
  destruct (Nat.lt_ge_cases k (length trace)) as [Hlt|Hge].
  - rewrite app_nth1 by exact Hlt. apply Hf, Hlt.
  - assert (k = length trace) as -> by lia.
    rewrite nth_middle. exact Hp.
Qed.

(** The probe loop, from any point of the walk on. *)
Lemma probe_loop_spec fuel : forall attempt pos mapped srv trace,
  0 <= step < StunSrvListQty ->
  1 <= attempt <= StunSrvListQty * 2 ->
  StunSrvListQty * 2 - attempt + 1 <= Z.of_nat fuel ->
  Z.of_nat (length trace) = attempt - 1 ->
  pos mod StunSrvListQty = walk_pos rnd step (attempt - 1) ->
  walked rnd step trace -> all_failed net trace ->
  exists res,
    probe_loop net fuel attempt pos step mapped srv trace = Some res
    /\ probe_post net rnd step res.
Proof.
  pose proof StunSrvListQty_eq as HQ.
  induction fuel as [|fuel IH];
    intros attempt pos mapped srv trace Hstep Ha Hfuel Hlen Hpos Hw Hf.
  - lia.
  - cbn [probe_loop].
    destruct (Z.ltb_spec attempt (StunSrvListQty * 2)) as [Hlt|Hge].
    + assert (Hnext : (pos + step) mod StunSrvListQty
                      = walk_pos rnd step attempt).
      { rewrite <- Zplus_mod_idemp_l, Hpos. unfold walk_pos.
        rewrite Zplus_mod_idemp_l. f_equal. lia. }
      rewrite Hnext.
      pose proof (walk_pos_range attempt) as Hr.
      rewrite (wrapu16_small (walk_pos rnd step attempt)) by lia.
      destruct (StunRequest (net attempt (walk_pos rnd step attempt)) mapped)
        as [rc mapped'] eqn:Hreq.
      assert (Hrc : rc = probe_rc (net attempt (walk_pos rnd step attempt)))
        by (rewrite <- (StunRequest_rc _ mapped), Hreq; reflexivity).
      assert (Hw' : walked rnd step (trace ++ [walk_pos rnd step attempt])).
      { replace attempt with (Z.of_nat (length trace) + 1) at 1 by lia.
        apply walked_snoc, Hw. }
      destruct (Z.geb_spec rc 0) as [Hok|Hfail].
      * eexists. split; [reflexivity|]. unfold probe_post. cbn.
        rewrite length_app. cbn. split; [lia|]. split; [exact Hw'|].
        right. split; [lia|]. split; [lia|].
        rewrite removelast_last. split; [exact Hf|].
        split; [reflexivity|].
        destruct (StunRequest_success _ _ _ _ Hreq ltac:(lia))
          as (datagram & Hnet & Hacc).
        exists datagram. auto.
      * rewrite (wrapu16_small (attempt + 1)) by lia.
        apply IH; try assumption; try lia.
        -- rewrite length_app. cbn. lia.
        -- rewrite Z.mod_small by lia. f_equal. lia.
        -- apply all_failed_snoc; [exact Hf|].
           replace (Z.of_nat (length trace) + 1) with attempt by lia.
           rewrite <- Hrc. lia.
    + eexists. split; [reflexivity|]. unfold probe_post. cbn.
      split; [lia|]. split; [exact Hw|]. left.
      split; [reflexivity|]. split; [lia|]. exact Hf.
Qed.

End Walk.

Lemma wrapu16_range z : 0 <= wrapu16 z < 2 ^ 16.
Proof. unfold wrapu16. apply Z.mod_pos_bound. lia. Qed.

(** The whole function: it always returns, and its result is as promised
    for the step the first loop picked. *)
Lemma GetExternalIPbySTUN_spec net rnd mapped srv :
  0 <= rnd < 2 ^ 64 ->
  exists rnd' step res,
    select_step 8 rnd = Some (rnd', step)
    /\ 1 <= step < StunSrvListQty
    /\ GetExternalIPbySTUN net rnd mapped srv = Some res
    /\ probe_post net rnd step res.
Proof.
  intros Hr.
  destruct (select_step_total rnd Hr) as (rnd' & step & Hsel & _ & Hstep).
  exists rnd', step.
  unfold GetExternalIPbySTUN. rewrite Hsel.
  pose proof StunSrvListQty_eq as HQ.
  destruct (probe_loop_spec net rnd step (Z.to_nat (StunSrvListQty * 2))
              1 (wrapu16 rnd) mapped srv []) as (res & Hres & Hpost).
  - lia.
  - lia.
  - rewrite Z2Nat.id by lia. lia.
  - reflexivity.
  - unfold walk_pos. f_equal. lia.
  - intros k Hk. simpl in Hk. lia.
  - intros k Hk. simpl in Hk. lia.
  - exists res. auto.
Qed.

(** C8 (amended): for every 64-bit entropy value [GetExternalIPbySTUN]
    returns, after at most [2 * StunSrvListQty - 1] probes that walk the
    server list from [pos = (uint16_t) rnd] in steps of [step], the residue
    modulo the list length of the first iterate of [rnd] for which that is
    not zero; either it returns [-1] after [2 * StunSrvListQty - 1] failed
    probes, or it returns the number (at least 1) of the first probe that
    got a reply [stun_handle_packet] went through to the end, with [*srv]
    naming the server that answered and [*mapped] holding zeroes or the
    port and address of a MAPPED-ADDRESS attribute of that reply: those of
    the attribute when the reply is a header with just that attribute
    behind it, zeroes when the reply is a bare header. *)
Theorem GetExternalIPbySTUN_bounded net rnd mapped srv :
  0 <= rnd < 2 ^ 64 ->
  exists (k : nat) step res,
    (1 <= k <= 8)%nat
    /\ step = step_of (Nat.iter k next_rnd rnd)
    /\ (forall j : nat, (1 <= j < k)%nat ->
          step_of (Nat.iter j next_rnd rnd) = 0)
    /\ 1 <= step < StunSrvListQty
    /\ GetExternalIPbySTUN net rnd mapped srv = Some res
    /\ Z.of_nat (length (probed res)) <= 2 * StunSrvListQty - 1
    /\ walked rnd step (probed res)
    /\ ((retval res = -1
         /\ Z.of_nat (length (probed res)) = StunSrvListQty * 2 - 1
         /\ all_failed net (probed res))
        \/ (1 <= retval res
            /\ retval res = Z.of_nat (length (probed res))
            /\ all_failed net (removelast (probed res))
            /\ srv_out res = Some (walk_pos rnd step (retval res))
            /\ exists datagram,
                 net (retval res) (walk_pos rnd step (retval res))
                   = Replied datagram
                 /\ sizeof_stun_header
                    <= Z.of_nat (length (firstn 1023 datagram))
                 /\ stun_handle_packet
                      (firstn 1023 datagram)
                      (Z.of_nat (length (firstn 1023 datagram)))
                      sockaddr_zero
                    = (Z.of_nat (length (firstn 1023 datagram)),
                       mapped_out res)
                 /\ (mapped_out res = sockaddr_zero
                     \/ carries_mapped (firstn 1023 datagram)
                                       (mapped_out res))
                 /\ (forall t0 t1 id u f p0 p1 a0 a1 a2 a3,
                       length id = 16%nat ->
                       datagram
                       = mapped_address_reply t0 t1 id u f p0 p1 a0 a1 a2 a3 ->
                       mapped_out res
                       = mkSockaddr (ntohs p0 p1) (ntohl a0 a1 a2 a3))
                 /\ (Z.of_nat (length datagram) = sizeof_stun_header ->
                     mapped_out res = sockaddr_zero))).
Proof.
  intros Hr.
  destruct (GetExternalIPbySTUN_spec net rnd mapped srv Hr)
    as (rnd' & step & res & Hsel & Hstep & Hres & Hlen & Hw & Hcases).
  apply select_step_iter in Hsel as (k & Hk & -> & Hs & Hbefore).
  exists k, step, res.
  split; [exact Hk|]. split; [exact Hs|]. split; [exact Hbefore|].
  split; [exact Hstep|]. split; [exact Hres|]. split; [lia|].
  split; [exact Hw|].
  destruct Hcases as [Hfail|(Hpos & Hret & Hf & Hsrv & datagram & Hnet & Hacc)].
  - left. exact Hfail.
  - right. split; [exact Hpos|]. split; [exact Hret|]. split; [exact Hf|].
    split; [exact Hsrv|]. exists datagram. split; [exact Hnet|].
    destruct Hacc as (Hlong & Hrun & Hfrom).
    split; [exact Hlong|]. split; [exact Hrun|]. split; [exact Hfrom|]. split.
    + intros t0 t1 id u f p0 p1 a0 a1 a2 a3 Hid Hd.
      pose proof (recv_mapped_address_reply t0 t1 id u f p0 p1 a0 a1 a2 a3 Hid)
        as Hrecv.
      rewrite <- Hd in Hrecv. cbn [StunRequest] in Hrecv.
      destruct (Z.leb_spec (Z.of_nat (length (firstn 1023 datagram))) 0);
        [unfold sizeof_stun_header in Hlong; lia|].
      rewrite Hrun in Hrecv. injection Hrecv as _ Hm. exact Hm.
    + intros Hbare.
      assert (Hall : firstn 1023 datagram = datagram).
      { apply firstn_all2. unfold sizeof_stun_header in Hbare. lia. }
      rewrite Hall in Hrun.
      rewrite stun_handle_packet_bare in Hrun by exact Hbare.
      injection Hrun as _ Hm. symmetry. exact Hm.
Qed.

(** C8, witness: on the example network the third probe is answered with
    a binding response that carries the address 203.0.113.7:40000. *)
Lemma GetExternalIPbySTUN_bounded_witness :
  exists step res,
    1 <= step < StunSrvListQty
    /\ GetExternalIPbySTUN net_ex rnd_ex mapped_ex None = Some res
    /\ retval res = 3
    /\ mapped_out res = mkSockaddr 40000 3405803783
    /\ Z.of_nat (length (probed res)) <= 2 * StunSrvListQty - 1.
Proof.
  destruct (GetExternalIPbySTUN_bounded net_ex rnd_ex mapped_ex None)
    as (k & step & res & _ & _ & _ & Hstep & Hres & Hlen & _).
  - vm_compute. intuition congruence.
  - exists step, res. split; [exact Hstep|]. split; [exact Hres|].
    split; [|split; [|exact Hlen]].
    + vm_compute in Hres. injection Hres as <-. reflexivity.
    + vm_compute in Hres. injection Hres as <-. reflexivity.
Defined.

(** C8, counterexample: a reply that is a bare header of twenty bytes ends
    the walk at the first probe with success, and [*mapped] holds no
    address: what was there before is wiped and nothing is put in its
    place. *)
Lemma GetExternalIPbySTUN_unmapped_counterexample :
  exists res,
    GetExternalIPbySTUN net_bare rnd_ex mapped_old None = Some res
    /\ retval res = 1
    /\ mapped_out res = mkSockaddr 0 0
    /\ mapped_old <> mkSockaddr 0 0.
Proof.
  eexists. split; [vm_compute; reflexivity|].
  split; [reflexivity|]. split; [reflexivity|]. discriminate.
Qed.

(** C10: for every 64-bit [rnd] the step-selection loop ends within eight
    passes: by then [rnd] has become [0xFFFFFFFFFFFFFFFF], whose residue
    modulo the length of the server list is not zero; the step it returns
    is between 1 and the list length, and every position probed afterwards
    is an index into the list. *)
Theorem select_step_terminates rnd :
  0 <= rnd < 2 ^ 64 ->
  Nat.iter 8 next_rnd rnd = 0xFFFFFFFFFFFFFFFF
  /\ 0xFFFFFFFFFFFFFFFF mod StunSrvListQty <> 0
  /\ (exists rnd' step,
        select_step 8 rnd = Some (rnd', step)
        /\ step = rnd' mod StunSrvListQty
        /\ 1 <= step < StunSrvListQty)
  /\ (forall net mapped srv,
        exists res,
          GetExternalIPbySTUN net rnd mapped srv = Some res
          /\ forall p, In p (probed res) -> 0 <= p < StunSrvListQty).
Proof.
  intros Hr. split; [|split; [|split]].
  - apply next_rnd_saturates, Hr.
  - rewrite StunSrvListQty_eq. vm_compute. discriminate.
  - destruct (select_step_total rnd Hr) as (rnd' & step & Hsel & Hs & Hrange).
    exists rnd', step. split; [exact Hsel|]. split; [|exact Hrange].
    rewrite Hs. unfold step_of. apply wrapu16_small.
    pose proof (Z.mod_pos_bound rnd' StunSrvListQty).
    rewrite StunSrvListQty_eq in *. lia.
  - intros net mapped srv.
    destruct (GetExternalIPbySTUN_spec net rnd mapped srv Hr)
      as (rnd' & step & res & _ & _ & Hres & _ & Hw & _).
    exists res. split; [exact Hres|].
    intros p Hp. apply (In_nth _ _ 0) in Hp as (k & Hk & <-).
    rewrite Hw by exact Hk. apply walk_pos_range.
Qed.

(** C10, witness: the input 0 needs all but one of the eight passes'
    worth of ones before its step is taken. *)
Lemma select_step_terminates_witness :
  Nat.iter 8 next_rnd 0 = 0xFFFFFFFFFFFFFFFF
  /\ exists rnd' step,
       select_step 8 0 = Some (rnd', step)
       /\ step = rnd' mod StunSrvListQty
       /\ 1 <= step < StunSrvListQty.
Proof.
  destruct (select_step_terminates 0) as (Hsat & _ & Hsel & _).
  - lia.
  - split; [exact Hsat | exact Hsel].
Defined.

End StunFacts.

(** ** More on kernel records *)

Module KernelTxFacts.
Import Int IntFacts Kernel KernelFacts KernelTx.

Section Facts.

Variables (COIN nOneDay nStakeMinAge nStakeMaxAge : Z).

(** X1: The coin-day weight never exceeds what the full maximum age gives, and
    a larger amount never weighs less. *)
Theorem getCoinDay_bounded now r :
  params_ok COIN nOneDay nStakeMinAge nStakeMaxAge ->
  time_ok now -> time_ok (nTime r) -> value_ok nStakeMaxAge (nValue r) ->
  0 <= getCoinDay COIN nOneDay nStakeMinAge nStakeMaxAge now r
    <= nValue r * nStakeMaxAge / (COIN * nOneDay)
  /\ forall r', nTime r' = nTime r -> nValue r' <= nValue r -> 0 <= nValue r' ->
       getCoinDay COIN nOneDay nStakeMinAge nStakeMaxAge now r'
       <= getCoinDay COIN nOneDay nStakeMinAge nStakeMaxAge now r.
Proof.
  intros Hp Hnow Ht Hv.
  pose proof Hp as (HC & HD & _ & _ & Hmax).
  pose proof Hv as [Hv0 Hv1].
  assert (HCD : 0 < COIN * nOneDay) by nia.
  pose proof (clampedWeight_bounds nStakeMinAge nStakeMaxAge now r
                ltac:(lia)) as Hw.
  rewrite getCoinDay_formula by assumption.
  split; [split|].
  - apply Z.div_pos; [|lia]. apply Z.mul_nonneg_nonneg; lia.
  - apply Z.div_le_mono; [lia|]. apply Z.mul_le_mono_nonneg_l; lia.
  - intros r' Ht' Hle H0.
    rewrite getCoinDay_formula;
      [|assumption|assumption|rewrite Ht'; assumption|split; [lia|nia]].
    apply Z.div_le_mono; [lia|].
    unfold clampedWeight in *. rewrite Ht'.
    apply Z.mul_le_mono_nonneg_r; lia.
Qed.

(** X2: The coin age [getProbToMintStake] works with at an offset is the
    coin-day weight [getCoinDay] reports once the clock has advanced by that
    offset, for a record that is not from the future. *)
Theorem getProbToMintStake_coinAge_is_getCoinDay now r timeOffset :
  params_ok COIN nOneDay nStakeMinAge nStakeMaxAge ->
  nStakeMinAge <= nStakeMaxAge -> nStakeMinAge + nStakeMaxAge < 2 ^ 32 ->
  time_ok now -> time_ok (now + timeOffset) -> time_ok (nTime r) ->
  in_int32 timeOffset -> nTime r <= now + timeOffset ->
  value_ok nStakeMaxAge (nValue r) ->
  getProbToMintStake_coinAge COIN nOneDay nStakeMinAge nStakeMaxAge
                             now r timeOffset
  = getCoinDay COIN nOneDay nStakeMinAge nStakeMaxAge (now + timeOffset) r.
Proof.
  intros Hp Hmm Hsum Hnow Hnow' Ht Hoff Hpast Hv.
  pose proof Hp as (HC & HD & HCD' & Hmin & Hmax).
  pose proof Hv as [Hv0 Hv1].
  unfold time_ok, in_int32 in *.
  assert (HCD : 0 < COIN * nOneDay) by nia.
  rewrite getCoinDay_formula by (assumption || (unfold time_ok; lia)).
  unfold getProbToMintStake_coinAge, clampedWeight, wrapu32.
  rewrite (Z.mod_small (nStakeMinAge + nStakeMaxAge)) by lia.
  unwrap.
  set (age := now - nTime r + timeOffset).
  replace (now + timeOffset - nTime r - nStakeMinAge)
    with (age - nStakeMinAge) by (unfold age; lia).
  assert (Hage : 0 <= age) by (unfold age; lia).
  assert (HW : Z.min age (nStakeMinAge + nStakeMaxAge) - nStakeMinAge
               = Z.min (age - nStakeMinAge) nStakeMaxAge) by lia.
  rewrite HW.
  set (W := Z.min (age - nStakeMinAge) nStakeMaxAge).
  assert (HWr : - nStakeMaxAge <= W <= nStakeMaxAge) by (unfold W; lia).
  assert (Hprod : - 2 ^ 63 < nValue r * W < 2 ^ 63) by nia.
  unwrap.
  destruct (Z.lt_ge_cases (age - nStakeMinAge) 0) as [Hneg|Hpos].
  - rewrite (Z.max_r (age - nStakeMinAge) 0) by lia.
    rewrite (Z.min_l 0) by lia. rewrite Z.mul_0_r, Z.div_0_l by lia.
    assert (HW' : W <= 0) by (unfold W; lia).
    assert (Hq : Z.quot (nValue r * W) (COIN * nOneDay) <= 0).
    { rewrite <- (Z.opp_involutive (nValue r * W)), Z.quot_opp_l by lia.
      assert (0 <= Z.quot (- (nValue r * W)) (COIN * nOneDay)); [|lia].
      apply Z.quot_pos; nia. }
    rewrite Z.max_r by lia. reflexivity.
  - rewrite (Z.max_l (age - nStakeMinAge) 0) by lia. fold W.
    assert (0 <= W) by (unfold W; lia).
    rewrite Z.quot_div_nonneg by nia.
    assert (Hq : 0 <= nValue r * W / (COIN * nOneDay) <= nValue r * W).
    { split; [apply Z.div_pos; nia|].
      apply Z.div_le_upper_bound; nia. }
    rewrite Z.max_l by lia. apply wrapu64_small. unfold in_uint64. lia.
Qed.

End Facts.

Lemma getCoinDay_bounded_witness :
  0 <= getCoinDay COIN_ex nOneDay_ex nStakeMinAge_ex nStakeMaxAge_ex
                  now_ex (record_ex (50 * 86400))
    <= 100 * COIN_ex * nStakeMaxAge_ex / (COIN_ex * nOneDay_ex).
Proof.
  destruct (getCoinDay_bounded COIN_ex nOneDay_ex nStakeMinAge_ex
              nStakeMaxAge_ex now_ex (record_ex (50 * 86400))) as [H _].
  - exact params_ok_ex.
  - unfold time_ok; vm_compute; intuition congruence.
  - unfold time_ok; vm_compute; intuition congruence.
  - unfold value_ok; vm_compute; intuition congruence.
  - exact H.
Defined.

Lemma getProbToMintStake_coinAge_is_getCoinDay_witness :
  getProbToMintStake_coinAge COIN_ex nOneDay_ex nStakeMinAge_ex
                             nStakeMaxAge_ex now_ex (record_ex (20 * 86400))
                             (15 * 86400)
  = getCoinDay COIN_ex nOneDay_ex nStakeMinAge_ex nStakeMaxAge_ex
               (now_ex + 15 * 86400) (record_ex (20 * 86400)).
Proof.
  apply getProbToMintStake_coinAge_is_getCoinDay.
  - exact params_ok_ex.
  - vm_compute; congruence.
  - vm_compute; reflexivity.
  - unfold time_ok; vm_compute; intuition congruence.
  - unfold time_ok; vm_compute; intuition congruence.
  - unfold time_ok; vm_compute; intuition congruence.
  - unfold in_int32; vm_compute; intuition congruence.
  - vm_compute; congruence.
  - unfold value_ok; vm_compute; intuition congruence.
Defined.

Section Decompose.

Variable Destination : Type.
Variable IsMine : CTxOut -> bool.
Variable ExtractDestination : Z -> option Destination.
Variable ToString : Destination -> string.

Lemma decompose_loop_spec wtx outs : forall nOut,
  map nValue (decompose_loop Destination IsMine ExtractDestination ToString
                             wtx nOut outs)
  = map txout_nValue (List.filter IsMine outs)
  /\ Forall (fun rec => hash rec = GetHash wtx /\ nTime rec = GetTxTime wtx
                        /\ idx rec = 0)
            (decompose_loop Destination IsMine ExtractDestination ToString
                            wtx nOut outs)
  /\ forall rec,
       In rec (decompose_loop Destination IsMine ExtractDestination ToString
                              wtx nOut outs) ->
       exists (k : nat) txOut,
         outs !! k = Some txOut /\ IsMine txOut = true
         /\ nValue rec = txout_nValue txOut
         /\ spent rec = IsSpent wtx (nOut + k).
Proof.
  induction outs as [|txOut outs IH]; intros nOut; simpl.
  - repeat split; [constructor | intros rec []].
  - destruct (IH (S nOut)) as (Hval & Hall & Hin).
    unfold decompose_output. destruct (IsMine txOut) eqn:Hmine; simpl.
    + repeat split.
      * f_equal. exact Hval.
      * constructor; [repeat split | exact Hall].
      * intros rec [<-|Hrec].
        -- exists 0%nat, txOut. simpl. rewrite Nat.add_0_r. auto.
        -- destruct (Hin rec Hrec) as (k & o & Hk & Hm & Hv & Hs).
           exists (S k), o. simpl. rewrite Nat.add_succ_r. auto.
    + repeat split; [exact Hval | exact Hall |].
      intros rec Hrec.
      destruct (Hin rec Hrec) as (k & o & Hk & Hm & Hv & Hs).
      exists (S k), o. simpl. rewrite Nat.add_succ_r. auto.
Qed.

(** X3: A coinbase transaction with fewer than two confirmations, or a
    transaction that is not trusted, gives no kernel records; any other
    transaction gives one record for each output the wallet owns, in output
    order, with the output's value and spent flag and the transaction's hash
    and time. *)
Theorem decomposeOutput_records wtx :
  ((IsCoinBase wtx = true /\ GetDepthInMainChain wtx < 2)
   \/ IsTrusted wtx = false ->
   decomposeOutput Destination IsMine ExtractDestination ToString wtx = [])
  /\ (showTransaction wtx = true ->
      map nValue
          (decomposeOutput Destination IsMine ExtractDestination ToString wtx)
      = map txout_nValue (List.filter IsMine (vout wtx)))
  /\ Forall (fun rec => hash rec = GetHash wtx /\ nTime rec = GetTxTime wtx
                        /\ idx rec = 0)
            (decomposeOutput Destination IsMine ExtractDestination ToString wtx)
  /\ forall rec,
       In rec (decomposeOutput Destination IsMine ExtractDestination
                               ToString wtx) ->
       exists (nOut : nat) txOut,
         vout wtx !! nOut = Some txOut /\ IsMine txOut = true
         /\ nValue rec = txout_nValue txOut
         /\ spent rec = IsSpent wtx nOut.
Proof.
  unfold decomposeOutput, showTransaction.
  destruct (decompose_loop_spec wtx (vout wtx) 0) as (Hval & Hall & Hin).
  split; [|split; [|split]].
  - intros [[Hcb Hd]|Htr].
    + rewrite Hcb. destruct (Z.ltb_spec (GetDepthInMainChain wtx) 2); [|lia].
      reflexivity.
    + rewrite Htr. destruct (IsCoinBase wtx && _); reflexivity.
  - intros Hshow. rewrite Hshow. exact Hval.
  - destruct (if IsCoinBase wtx && _ then _ else _); [exact Hall|constructor].
  - destruct (if IsCoinBase wtx && _ then _ else _); [exact Hin|intros rec []].
Qed.

End Decompose.

Lemma decomposeOutput_records_witness :
  map nValue (decomposeOutput Z IsMine_ex ExtractDestination_ex ToString_ex
                              wtx_ex)
  = [500; 700]
  /\ map address (decomposeOutput Z IsMine_ex ExtractDestination_ex
                                  ToString_ex wtx_ex)
     = ["addr1"%string; "somewhere"%string].
Proof.
  destruct (decomposeOutput_records Z IsMine_ex ExtractDestination_ex
              ToString_ex wtx_ex) as (_ & Hval & _).
  split.
  - rewrite Hval; reflexivity.
  - vm_compute. reflexivity.
Defined.

End KernelTxFacts.

(** ** More on [move] *)

Module AccountingOrderFacts.
Import Int IntFacts Rpc Accounting AccountingFacts AccountingOrder.

Lemma StronglySorted_snoc (l : list Z) y :
  StronglySorted Z.lt l -> Forall (fun x => x < y) l ->
  StronglySorted Z.lt (l ++ [y]).
Proof.
  induction l as [|x l IH]; intros Hs Hall; simpl.
  - repeat constructor.
  - apply StronglySorted_inv in Hs as [Hs Hx].
    apply Forall_cons_iff in Hall as [Hxy Hall].
    constructor; [apply IH; assumption|].
    apply Forall_app. split; [exact Hx | repeat constructor; exact Hxy].
Qed.

Section Facts.

Variable AmountFromValue : Value -> Result Z.
Variable nMinimumInputValue : Z.

(** X4: A successful [move] of [X] from [a] to [b] lowers the balance of [a] by
    [X] and raises that of [b] by [X] (in [int64_t] arithmetic), and leaves
    every other account alone; with [a = b] nothing changes. *)
Theorem move_effect db nNow w a b vX r w' :
  movecmd AmountFromValue nMinimumInputValue db nNow w
          [str_type a; str_type b; vX] false = (inr r, w') ->
  exists X,
    AmountFromValue vX = inr X
    /\ forall c nMinDepth filter,
         GetAccountBalance w' c nMinDepth filter
         = wrap64 (GetAccountBalance w c nMinDepth filter + move_delta a b c X).
Proof.
  intros Hok. apply movecmd_ok in Hok as (X & HX & Hm & He).
  exists X. split; [exact HX|].
  intros c nMinDepth filter. unfold GetAccountBalance, GetAccountCreditDebit.
  rewrite Hm, He, List.filter_app, entries_sum_app.
  set (T := fold_left _ (mapWallet w) 0).
  set (S := entries_sum (List.filter _ (acentries w))).
  unfold move_delta. cbn [List.filter strAccount].
  destruct (String.eqb a c), (String.eqb b c);
    cbn [fold_left nCreditDebit].
  - rewrite wrap64_neg_cancel, !wrap64_add_r, wrap64_add_l.
    f_equal. lia.
  - rewrite !wrap64_add_r, wrap64_add_l.
    replace (T + (S + wrap64 (- X))) with ((T + S) + wrap64 (- X)) by lia.
    rewrite wrap64_add_r. f_equal. lia.
  - rewrite !wrap64_add_r, wrap64_add_l. f_equal. lia.
  - rewrite wrap64_add_l. f_equal. lia.
Qed.

(** X5: [move] asks the wallet for no funds: whether a call with three
    arguments succeeds depends on the account names, the amount and the
    database alone, never on any balance. *)
Theorem move_checks_no_balance db nNow w a b vX :
  (exists r w',
     movecmd AmountFromValue nMinimumInputValue db nNow w
             [str_type a; str_type b; vX] false = (inr r, w'))
  <-> (a <> "*"%string /\ b <> "*"%string
       /\ (exists X, AmountFromValue vX = inr X /\ nMinimumInputValue <= X)
       /\ TxnBegin db = true /\ TxnCommit db = true).
Proof.
  unfold movecmd, movecmd_args, AccountFromValue, at_. simpl.
  destruct (String.eqb_spec a "*") as [Ha|Ha]; simpl.
  { split; [intros (r & w' & [=]) | intros (Hne & _); contradiction]. }
  destruct (String.eqb_spec b "*") as [Hb|Hb]; simpl.
  { split; [intros (r & w' & [=]) | intros (_ & Hne & _); contradiction]. }
  destruct (AmountFromValue vX) as [e|X]; simpl.
  { split; [intros (r & w' & [=]) | intros (_ & _ & (X & [=] & _) & _)]. }
  destruct (Z.ltb_spec X nMinimumInputValue); simpl.
  { split; [intros (r & w' & [=])
           | intros (_ & _ & (X' & [= <-] & Hle) & _); lia]. }
  destruct (TxnBegin db); simpl.
  2:{ split; [intros (r & w' & [=]) | intros (_ & _ & _ & [=] & _)]. }
  destruct (TxnCommit db); simpl.
  2:{ split; [intros (r & w' & [=]) | intros (_ & _ & _ & _ & [=])]. }
  split; [|eauto]. intros _. repeat split; eauto.
Qed.

(** X6: Whatever its arguments and whether it succeeds or throws, [move] keeps
    the stored entries in strictly increasing order of their positions,
    below the wallet's next position, and never moves that counter back; a
    call that throws stores nothing. *)
Theorem move_keeps_order db nNow w params fHelp :
  order_ok w -> 0 <= nOrderPosNext w -> nOrderPosNext w + 2 < 2 ^ 63 ->
  order_ok (snd (movecmd AmountFromValue nMinimumInputValue db nNow w
                         params fHelp))
  /\ nOrderPosNext w
     <= nOrderPosNext (snd (movecmd AmountFromValue nMinimumInputValue db
                                    nNow w params fHelp))
  /\ (is_thrown (fst (movecmd AmountFromValue nMinimumInputValue db nNow w
                              params fHelp)) ->
      acentries (snd (movecmd AmountFromValue nMinimumInputValue db nNow w
                              params fHelp)) = acentries w
      /\ mapWallet (snd (movecmd AmountFromValue nMinimumInputValue db nNow w
                                 params fHelp)) = mapWallet w).
Proof.
  intros [Hsorted Hbound] H0 Hmax. unfold movecmd.
  destruct (movecmd_args _ _ params fHelp) as [e|[[[strFrom strTo] nAmount] cmt]];
    simpl.
  { repeat split; try assumption; lia. }
  destruct (TxnBegin db); simpl.
  2:{ repeat split; try assumption; lia. }
  rewrite (wrap64_small (nOrderPosNext w + 1)) by (unfold in_int64; lia).
  rewrite (wrap64_small (nOrderPosNext w + 1 + 1)) by (unfold in_int64; lia).
  destruct (TxnCommit db); simpl.
  - split; [|split; [lia|intros [e [=]]]].
    unfold order_ok. simpl. rewrite <- app_assoc. simpl. split.
    + rewrite map_app. simpl.
      change [nOrderPosNext w; nOrderPosNext w + 1]
        with ([nOrderPosNext w] ++ [nOrderPosNext w + 1]).
      rewrite app_assoc.
      apply StronglySorted_snoc; [apply StronglySorted_snoc|].
      * exact Hsorted.
      * apply Forall_map. exact Hbound.
      * apply Forall_app. split.
        -- apply Forall_map. eapply Forall_impl; [exact Hbound|].
           simpl. intros; lia.
        -- repeat constructor. lia.
    + apply Forall_app. split.
      * eapply Forall_impl; [exact Hbound|]. simpl. intros; lia.
      * repeat constructor; simpl; lia.
  - split; [|split; [lia|auto]].
    unfold order_ok. simpl. split; [exact Hsorted|].
    eapply Forall_impl; [exact Hbound|]. simpl. intros; lia.
Qed.

End Facts.

Lemma move_checks_no_balance_witness :
  exists r w',
    movecmd AmountFromValue_ex 1 db_ok 1700000000 (mkWallet [] [] 0)
            [str_type "A"; str_type "B"; int_type 20] false = (inr r, w').
Proof.
  apply move_checks_no_balance.
  split; [discriminate|]. split; [discriminate|].
  split; [|split; reflexivity].
  exists (20 * COIN_ex). split; [reflexivity|vm_compute; congruence].
Defined.

Lemma move_effect_witness :
  GetAccountBalance wallet_ex1 "A" 1 MINE_SPENDABLE
  = wrap64 (GetAccountBalance wallet_ex "A" 1 MINE_SPENDABLE
            + move_delta "A" "B" "A" (20 * COIN_ex)).
Proof.
  destruct (move_effect AmountFromValue_ex 1 db_ok 1700000000 wallet_ex
              "A" "B" (int_type 20) (bool_type true) wallet_ex1)
    as (X & HX & Heff).
  - reflexivity.
  - injection HX as <-. apply Heff.
Defined.

Lemma move_keeps_order_witness :
  order_ok wallet_ex2.
Proof.
  destruct (move_keeps_order AmountFromValue_ex 1 db_ok 1700000000 wallet_ex1
              [str_type "B"; str_type "A"; int_type 20] false) as [H _].
  - destruct (move_keeps_order AmountFromValue_ex 1 db_ok 1700000000 wallet_ex
                [str_type "A"; str_type "B"; int_type 20] false) as [H _].
    + split; constructor.
    + vm_compute; congruence.
    + vm_compute; reflexivity.
    + exact H.
  - vm_compute; congruence.
  - vm_compute; reflexivity.
  - exact H.
Defined.

End AccountingOrderFacts.

(** ** What a successful [sendmany] guarantees *)

Module SendManyInvFacts.
Import Int IntFacts Rpc SendMany SendManyFacts SendManyInv.

Section Facts.

Context {Address : Type} `{Countable Address}.
Variable CBitcoinAddress : string -> Address.
Variable IsValid : Address -> bool.
Variable IsPair : Address -> bool.
Variable AmountFromValue : Value -> Result Z.
Variable nMinimumInputValue : Z.

Lemma plain_addresses_snoc vecSend a n :
  plain_addresses IsPair (vecSend ++ [(a, n)])
  = plain_addresses IsPair vecSend ++ (if IsPair a then [] else [a]).
Proof.
  unfold plain_addresses. rewrite map_app, List.filter_app. simpl.
  destruct (IsPair a); reflexivity.
Qed.

Lemma sum_amounts_snoc (vecSend : list (Address * Z)) a n :
  sum_amounts (vecSend ++ [(a, n)]) = wrap64 (sum_amounts vecSend + n).
Proof. unfold sum_amounts. rewrite fold_left_app. reflexivity. Qed.

Lemma sendmany_step_inv done st s st' :
  loop_inv CBitcoinAddress IsValid IsPair AmountFromValue nMinimumInputValue
           done st ->
  sendmany_step CBitcoinAddress IsValid IsPair AmountFromValue
                nMinimumInputValue st s = inr st' ->
  loop_inv CBitcoinAddress IsValid IsPair AmountFromValue nMinimumInputValue
           (done ++ [s]) st'.
Proof.
  destruct st as [[setAddress vecSend] totalAmount], s as [name_ value_].
  intros (Hfst & Hamt & Hall & Htot & Hnd & Hseen).
  unfold sendmany_step.
  destruct (IsValid (CBitcoinAddress name_)) eqn:Hvalid; simpl; [|intros [=]].
  destruct (IsPair (CBitcoinAddress name_)) eqn:Hpair; simpl.
  - destruct (AmountFromValue value_) as [e|nAmount] eqn:Ha; simpl; [intros [=]|].
    destruct (Z.ltb_spec nAmount nMinimumInputValue); intros [= <-].
    unfold loop_inv. rewrite !map_app, plain_addresses_snoc, Hpair, app_nil_r.
    simpl. rewrite Hfst, Hamt, Ha, sum_amounts_snoc, Htot.
    repeat split; try assumption.
    apply Forall_app. split; [exact Hall|]. repeat constructor; simpl; auto.
  - destruct (decide (CBitcoinAddress name_ ∈ setAddress)) as [Hin|Hnin];
      simpl; [intros [=]|].
    destruct (AmountFromValue value_) as [e|nAmount] eqn:Ha; simpl; [intros [=]|].
    destruct (Z.ltb_spec nAmount nMinimumInputValue); intros [= <-].
    unfold loop_inv. rewrite !map_app, plain_addresses_snoc, Hpair.
    simpl. rewrite Hfst, Hamt, Ha, sum_amounts_snoc, Htot.
    repeat split; try reflexivity.
    + apply Forall_app. split; [exact Hall|]. repeat constructor; simpl; auto.
    + apply NoDup_app. split; [exact Hnd|]. split; [|apply NoDup_singleton].
      intros a Ha' Hone. apply list_elem_of_singleton in Hone as ->.
      apply Hnin, Hseen, Ha'.
    + intros a Ha'. apply elem_of_app in Ha' as [Ha'|Ha'].
      * apply elem_of_union_r, Hseen, Ha'.
      * apply list_elem_of_singleton in Ha' as ->.
        apply elem_of_union_l, elem_of_singleton. reflexivity.
Qed.

Lemma sendmany_loop_inv l : forall done st st',
  loop_inv CBitcoinAddress IsValid IsPair AmountFromValue nMinimumInputValue
           done st ->
  sendmany_loop CBitcoinAddress IsValid IsPair AmountFromValue
                nMinimumInputValue l st = inr st' ->
  loop_inv CBitcoinAddress IsValid IsPair AmountFromValue nMinimumInputValue
           (done ++ l) st'.
Proof.
  induction l as [|s l IH]; intros done st st' Hinv; simpl.
  - intros [= <-]. rewrite app_nil_r. exact Hinv.
  - destruct (sendmany_step _ _ _ _ _ st s) as [e|st1] eqn:Hs; simpl; [intros [=]|].
    intros Hl. replace (done ++ s :: l) with ((done ++ [s]) ++ l)
      by (rewrite <- app_assoc; reflexivity).
    eapply IH; [|exact Hl]. eapply sendmany_step_inv; eassumption.
Qed.

(** X7: When [sendmany] returns a transaction id, the wallet was unlocked and not
    in mint-only mode, the account was a proper name, every destination was
    a valid address with an amount of at least the minimum, no address other
    than a key pair was named twice, the total did not exceed the account's
    balance at the minimum depth asked for (the third argument narrowed to
    [int], or 1 without one), and the transaction was created and
    committed. *)
Theorem sendmany_success_guards env params v :
  sendmany CBitcoinAddress IsValid IsPair AmountFromValue nMinimumInputValue
           env params false = inr v ->
  IsLocked env = false /\ fWalletUnlockMintOnly env = false
  /\ exists account sendTo nMinDepth vecSend,
       get_str (at_ params 0) = inr account /\ account <> "*"%string
       /\ get_obj (at_ params 1) = inr sendTo
       /\ (((length params <= 2)%nat /\ nMinDepth = 1)
           \/ (exists z, (2 < length params)%nat
                         /\ at_ params 2 = int_type z
                         /\ nMinDepth = wrap32 z))
       /\ map fst vecSend = map (fun s => CBitcoinAddress (fst s)) sendTo
       /\ map (fun p => inr (snd p)) vecSend
          = map (fun s => AmountFromValue (snd s)) sendTo
       /\ Forall (fun p => IsValid (fst p) = true
                           /\ nMinimumInputValue <= snd p) vecSend
       /\ NoDup (plain_addresses IsPair vecSend)
       /\ sum_amounts vecSend
          <= Accounting.GetAccountBalance (wallet env) account nMinDepth
               Accounting.MINE_SPENDABLE
       /\ fst (CreateTransaction env vecSend) = true
       /\ CommitTransaction env = true
       /\ v = str_type (GetHex env vecSend).
Proof.
  unfold sendmany, sendmany_args, AccountFromValue.
  cbn [orb].
  destruct ((length params <? 2)%nat || (4 <? length params)%nat);
    simpl; [intros [=]|].
  destruct (get_str (at_ params 0)) as [e|account] eqn:Hacc; simpl; [intros [=]|].
  destruct (String.eqb_spec account "*") as [Hs|Hs]; simpl; [intros [=]|].
  destruct (get_obj (at_ params 1)) as [e|sendTo] eqn:Hobj; simpl; [intros [=]|].
  destruct (if (2 <? length params)%nat then get_int32 (at_ params 2) else ok 1)
    as [e|nMinDepth] eqn:Hdepth; simpl; [intros [=]|].
  assert (Hmin : ((length params <= 2)%nat /\ nMinDepth = 1)
                 \/ (exists z, (2 < length params)%nat
                               /\ at_ params 2 = int_type z
                               /\ nMinDepth = wrap32 z)).
  { destruct (Nat.ltb_spec 2 (length params)) as [Hlen|Hlen].
    - right. unfold get_int32 in Hdepth.
      destruct (at_ params 2) as [|?|z|?|?|?]; try discriminate.
      injection Hdepth as <-. exists z. auto.
    - left. injection Hdepth as <-. auto. }
  destruct (if (3 <? length params)%nat then _ else ok EmptyString)
    as [e|comment]; simpl; [intros [=]|].
  destruct (sendmany_loop _ _ _ _ _ sendTo loop_init)
    as [e|[[setAddress vecSend] totalAmount]] eqn:Hloop; simpl; [intros [=]|].
  assert (Hinv : loop_inv CBitcoinAddress IsValid IsPair AmountFromValue
                          nMinimumInputValue ([] ++ sendTo)
                          (setAddress, vecSend, totalAmount)).
  { eapply sendmany_loop_inv; [|exact Hloop].
    unfold loop_inv, loop_init, plain_addresses. simpl.
    repeat split; try constructor. intros a Ha. inversion Ha. }
  destruct Hinv as (Hfst & Hamt & Hall & Htot & Hnd & _).
  unfold EnsureWalletIsUnlocked.
  destruct (IsLocked env); simpl; [intros [=]|].
  destruct (fWalletUnlockMintOnly env); simpl; [intros [=]|].
  destruct (Z.gtb_spec totalAmount
              (Accounting.GetAccountBalance (wallet env) account nMinDepth
                 Accounting.MINE_SPENDABLE)); [intros [=]|].
  destruct (CreateTransaction env vecSend) as [fCreated nFeeRequired] eqn:Hc.
  destruct fCreated; simpl.
  2:{ destruct (_ >? _); intros [=]. }
  destruct (CommitTransaction env) eqn:Hcommit; simpl; [|intros [=]].
  intros [= <-]. split; [reflexivity|]. split; [reflexivity|].
  exists account, sendTo, nMinDepth, vecSend. rewrite <- Htot, Hc.
  repeat split; assumption || reflexivity.
Qed.

End Facts.

Lemma sendmany_success_guards_witness :
  sendmany_funded params_funded = inr (str_type "txid")
  /\ IsLocked env_funded = false /\ fWalletUnlockMintOnly env_funded = false.
Proof.
  assert (Hrun : sendmany_funded params_funded = inr (str_type "txid"))
    by (vm_compute; reflexivity).
  split; [exact Hrun|].
  destruct (sendmany_success_guards (fun s => s) (fun _ => true)
              (fun _ => false) AmountFromValue_ex 1 env_funded params_funded
              (str_type "txid") Hrun) as (Hl & Hm & _).
  split; assumption.
Defined.

End SendManyInvFacts.

(** ** The life of an unlock *)

Module RelockLifeFacts.
Import Int IntFacts Rpc Relock RelockFacts RelockLife.

(** X8: Before the deadline no relocking thread locks the wallet, and none ever
    moves a pending deadline back: whatever block a thread runs at a time
    before [nWalletUnlockTime], the wallet and the mint-only flag stay as
    they are and the deadline can only grow. *)
Theorem relockers_never_lock_early now s t s' t' :
  0 <= now < nWalletUnlockTime s -> nWalletUnlockTime s < 2 ^ 63 ->
  worker_step now s t = Some (s', t') ->
  pwalletMain s' = pwalletMain s
  /\ fWalletUnlockMintOnly s' = fWalletUnlockMintOnly s
  /\ nWalletUnlockTime s <= nWalletUnlockTime s'.
Proof.
  intros Hnow Hmax. destruct t as [parg|w|wake|]; simpl.
  - intros [= <- <-]. repeat split; lia.
  - destruct (Z.eqb_spec (nWalletUnlockTime s) 0); [lia|].
    destruct (Z.ltb_spec (nWalletUnlockTime s) w); intros [= <- <-];
      simpl; repeat split; lia.
  - destruct (Z.leb_spec wake now); [|intros [=]].
    unfold relock_loop.
    destruct (Z.eqb_spec (nWalletUnlockTime s) 0); [lia|].
    rewrite wrap64_small by (unfold in_int64; lia).
    destruct (Z.leb_spec (nWalletUnlockTime s - now) 0); [lia|].
    intros [= <- <-]. repeat split; lia.
  - intros [=].
Qed.

Lemma relockers_never_lock_early_witness :
  pwalletMain unlocked_ex = pwalletMain unlocked_ex
  /\ fWalletUnlockMintOnly unlocked_ex = fWalletUnlockMintOnly unlocked_ex
  /\ nWalletUnlockTime unlocked_ex <= nWalletUnlockTime unlocked_ex.
Proof.
  apply (relockers_never_lock_early (t0 + 5000) unlocked_ex
           (Sleeping (t0 + 4000)) unlocked_ex (Sleeping (t0 + 10000))).
  - vm_compute. intuition congruence.
  - vm_compute. reflexivity.
  - vm_compute. reflexivity.
Defined.

Lemma lookup_last_worker (l : list Worker) t : (l ++ [t]) !! length l = Some t.
Proof. apply list_lookup_middle. reflexivity. Qed.

Lemma insert_last_worker (l : list Worker) t t' :
  <[length l := t']> (l ++ [t]) = l ++ [t'].
Proof.
  rewrite insert_app_r_alt by lia. rewrite Nat.sub_diag. reflexivity.
Qed.

(** X9: A locked, encrypted wallet with no relock pending that is unlocked with
    its passphrase (the argument read as a C string up to its first NUL) and
    a positive timeout is unlocked while the new thread sleeps, with the
    deadline [timeout] seconds after the thread read the clock; and when the
    thread is woken at or after the deadline, the wallet is locked again and
    the deadline cleared. *)
Theorem unlock_relocks_after_timeout s pass T t0 t1 t2 t3 :
  IsCrypted (pwalletMain s) = true -> IsLocked (pwalletMain s) = true ->
  nWalletUnlockTime s = 0 ->
  strMasterPass (pwalletMain s) = c_str pass -> c_str pass <> EmptyString ->
  0 < T -> T * 1000 < 2 ^ 62 ->
  clock_ok t1 -> clock_ok t2 -> clock_ok t3 ->
  t2 < t1 + T * 1000 <= t3 ->
  run (schedule_unlock_asleep pass T (length (relockers s)) t0 t1 t2) s
  = Some ([inr null_type],
          mkSys (mkCWallet true false (c_str pass)) (t1 + T * 1000) false
                (relockers s ++ [Sleeping (t1 + T * 1000)]) (S (topups s)))
  /\ run (schedule_unlock pass T (length (relockers s)) t0 t1 t2 t3) s
     = Some ([inr null_type],
             mkSys (mkCWallet true true (c_str pass)) 0 false
                   (relockers s ++ [Finished]) (S (topups s))).
Proof.
  intros Hc Hl Hu Hp Hne HT HT' H1 H2 H3 Hd.
  unfold clock_ok in *.
  destruct s as [[crypted locked mpass] unlockTime mint workers tops].
  cbn [pwalletMain IsCrypted IsLocked nWalletUnlockTime strMasterPass
       relockers topups] in *.
  subst crypted locked unlockTime mpass.
  assert (Hcall : walletpassphrase
                    (mkSys (mkCWallet true true (c_str pass)) 0 mint workers tops)
                    [str_type pass; int_type T] false
                  = (inr null_type,
                     mkSys (mkCWallet true false (c_str pass)) 0 false
                           (workers ++ [Spawned T]) (S tops))).
  { unfold walletpassphrase, Unlock, at_. simpl.
    destruct (c_str pass) as [|c p]; [contradiction|].
    simpl. rewrite Ascii.eqb_refl, String.eqb_refl. reflexivity. }
  assert (Hstart : forall rest x,
            run ((t0, unlock_call pass T) :: (t1, Run (length workers))
                 :: (t2, Run (length workers)) :: rest)
                (mkSys (mkCWallet true true (c_str pass)) 0 mint workers tops) = x <->
            match run rest
                    (mkSys (mkCWallet true false (c_str pass)) (t1 + T * 1000) false
                           (workers ++ [Sleeping (t1 + T * 1000)]) (S tops))
            with
            | Some (rs, s'') => Some (inr null_type :: rs, s'')
            | None => None
            end = x).
  { intros rest x.
    cbn [run step unlock_call]. rewrite Hcall.
    cbn [relockers]. rewrite lookup_last_worker.
    cbn [worker_step set_relockers relockers].
    rewrite insert_last_worker.
    rewrite (wrap64_small (T * 1000)) by (unfold in_int64; lia).
    rewrite (wrap64_small (t1 + T * 1000)) by (unfold in_int64; lia).
    cbn [pwalletMain nWalletUnlockTime fWalletUnlockMintOnly topups].
    rewrite lookup_last_worker.
    cbn [worker_step nWalletUnlockTime].
    change (0 =? 0) with true. cbv iota.
    unfold relock_loop, set_unlock_time.
    cbn [nWalletUnlockTime pwalletMain fWalletUnlockMintOnly relockers topups].
    destruct (Z.eqb_spec (t1 + T * 1000) 0); [lia|].
    rewrite (wrap64_small (t1 + T * 1000 - t2)) by (unfold in_int64; lia).
    destruct (Z.leb_spec (t1 + T * 1000 - t2) 0); [lia|].
    cbn [set_relockers relockers pwalletMain nWalletUnlockTime
         fWalletUnlockMintOnly topups].
    change (0 =? 0) with true.
    cbn [set_relockers relockers pwalletMain nWalletUnlockTime
         fWalletUnlockMintOnly topups].
    rewrite insert_last_worker.
    replace (t2 + (t1 + T * 1000 - t2)) with (t1 + T * 1000) by lia.
    destruct (run rest _) as [[rs s'']|]; reflexivity. }
  split.
  - unfold schedule_unlock_asleep. apply Hstart. reflexivity.
  - unfold schedule_unlock. apply Hstart.
    cbn [run step relockers]. rewrite lookup_last_worker.
    cbn [worker_step].
    destruct (Z.leb_spec (t1 + T * 1000) t3); [|lia].
    unfold relock_loop, relock_finish.
    cbn [nWalletUnlockTime].
    destruct (Z.eqb_spec (t1 + T * 1000) 0); [lia|].
    rewrite (wrap64_small (t1 + T * 1000 - t3)) by (unfold in_int64; lia).
    destruct (Z.leb_spec (t1 + T * 1000 - t3) 0); [|lia].
    cbn [negb set_wallet set_unlock_time set_relockers Lock pwalletMain
         IsCrypted strMasterPass nWalletUnlockTime fWalletUnlockMintOnly
         relockers topups].
    rewrite insert_last_worker. reflexivity.
Qed.

Lemma unlock_relocks_after_timeout_witness :
  run (schedule_unlock "p" 10 0 t0 t0 t0 (t0 + 12000)) (locked_wallet "p")
  = Some ([inr null_type], mkSys (mkCWallet true true "p") 0 false [Finished] 1).
Proof.
  apply (unlock_relocks_after_timeout (locked_wallet "p") "p" 10
           t0 t0 t0 (t0 + 12000));
    try reflexivity; try discriminate;
    unfold clock_ok; vm_compute; intuition congruence.
Defined.

(** X10: [walletlock] on an encrypted wallet locks it and clears the deadline;
    a relocking thread that wakes up after that ends without touching
    anything; locking again changes nothing.  On a wallet that is not
    encrypted it throws and changes nothing. *)
Theorem walletlock_cancels_relock s :
  (IsCrypted (pwalletMain s) = true ->
   fst (walletlock s [] false) = inr null_type
   /\ IsLocked (pwalletMain (snd (walletlock s [] false))) = true
   /\ nWalletUnlockTime (snd (walletlock s [] false)) = 0
   /\ (forall now wake, wake <= now ->
         worker_step now (snd (walletlock s [] false)) (Sleeping wake)
         = Some (snd (walletlock s [] false), Finished))
   /\ walletlock (snd (walletlock s [] false)) [] false
      = (inr null_type, snd (walletlock s [] false)))
  /\ (IsCrypted (pwalletMain s) = false ->
      walletlock s [] false
      = (inl (JSONRPCError RPC_WALLET_WRONG_ENC_STATE
           "Error: running with an unencrypted wallet, but walletlock was called."),
         s)).
Proof.
  destruct s as [[crypted locked mpass] unlockTime mint workers tops].
  split; simpl; intros ->.
  - unfold walletlock, Lock. simpl. repeat split.
    intros now wake Hw. destruct (Z.leb_spec wake now); [|lia]. reflexivity.
  - reflexivity.
Qed.

Lemma walletlock_cancels_relock_witness :
  walletlock unlocked_ex [] false
  = (inr null_type,
     mkSys (mkCWallet true true "p") 0 true [Sleeping (t0 + 10000)] 1)
  /\ worker_step (t0 + 10000) (snd (walletlock unlocked_ex [] false))
                 (Sleeping (t0 + 10000))
     = Some (snd (walletlock unlocked_ex [] false), Finished).
Proof.
  destruct (walletlock_cancels_relock unlocked_ex) as [H _].
  destruct (H eq_refl) as (_ & _ & _ & Hwake & _).
  split; [reflexivity|]. apply Hwake. lia.
Defined.

(** X11: When the passphrase argument, read as a C string up to its first
    NUL, is the wallet's passphrase and the timeout argument is not an
    integer, [walletpassphrase] throws only after it has unlocked the
    wallet: the wallet is left unlocked, and no relocking thread has been
    started for it. *)
Theorem walletpassphrase_bad_timeout s pass v rest e :
  IsCrypted (pwalletMain s) = true -> IsLocked (pwalletMain s) = true ->
  strMasterPass (pwalletMain s) = c_str pass -> c_str pass <> EmptyString ->
  get_int v = inl e -> (length rest <= 1)%nat ->
  fst (walletpassphrase s (str_type pass :: v :: rest) false) = inl e
  /\ IsLocked (pwalletMain (snd (walletpassphrase s (str_type pass :: v :: rest)
                                                  false))) = false
  /\ relockers (snd (walletpassphrase s (str_type pass :: v :: rest) false))
     = relockers s
  /\ nWalletUnlockTime (snd (walletpassphrase s (str_type pass :: v :: rest)
                                              false))
     = nWalletUnlockTime s.
Proof.
  intros Hc Hl Hp Hne Hv Hrest.
  unfold walletpassphrase, Unlock, at_. rewrite Hc, Hl, Hp. simpl.
  destruct (Nat.ltb_spec 3 (S (S (length rest)))); [lia|].
  simpl. destruct (c_str pass) as [|c p]; [contradiction|].
  simpl. rewrite Ascii.eqb_refl, String.eqb_refl. simpl.
  rewrite Hv. simpl. repeat split.
Qed.

Lemma walletpassphrase_bad_timeout_witness :
  fst (walletpassphrase (locked_wallet "p") [str_type "p"; str_type "60"] false)
  = inl type_error
  /\ IsLocked (pwalletMain (snd (walletpassphrase (locked_wallet "p")
                                   [str_type "p"; str_type "60"] false)))
     = false
  /\ relockers (snd (walletpassphrase (locked_wallet "p")
                       [str_type "p"; str_type "60"] false))
     = relockers (locked_wallet "p")
  /\ nWalletUnlockTime (snd (walletpassphrase (locked_wallet "p")
                               [str_type "p"; str_type "60"] false))
     = nWalletUnlockTime (locked_wallet "p").
Proof.
  apply (walletpassphrase_bad_timeout (locked_wallet "p") "p"
           (str_type "60") [] type_error).
  - reflexivity.
  - reflexivity.
  - reflexivity.
  - discriminate.
  - reflexivity.
  - simpl; lia.
Defined.

End RelockLifeFacts.

(** ** Paging through [listtransactions], and the keys of [listaccounts] *)

Module WalletListsFacts.
Import Int IntFacts Rpc Accounting AccountingFacts AccountingOrder WalletLists.

(** The slice that the index arithmetic at the end of [listtransactions]
    cuts out of the collected rows [R] is the slice [from, from + count) of
    all rows, as long as [R] is all of them or at least [count + from] of
    them. *)
Lemma page_slice {A : Type} (R X : list A) (c n : Z) :
  0 <= c -> 0 <= n -> c + n < 2 ^ 31 ->
  Z.of_nat (length (R ++ X)) < 2 ^ 31 ->
  X = [] \/ c + n <= Z.of_nat (length R) ->
  skipn (Z.to_nat (if n >? wrap32 (Z.of_nat (length R))
                   then wrap32 (Z.of_nat (length R)) else n))
    (firstn
       (Z.to_nat
          (wrap32
             ((if n >? wrap32 (Z.of_nat (length R))
               then wrap32 (Z.of_nat (length R)) else n)
              + (if wrap32 ((if n >? wrap32 (Z.of_nat (length R))
                             then wrap32 (Z.of_nat (length R)) else n) + c)
                    >? wrap32 (Z.of_nat (length R))
                 then wrap32 (wrap32 (Z.of_nat (length R))
                              - (if n >? wrap32 (Z.of_nat (length R))
                                 then wrap32 (Z.of_nat (length R)) else n))
                 else c))))
       R)
  = firstn (Z.to_nat c) (skipn (Z.to_nat n) (R ++ X)).
Proof.
  intros Hc Hn Hsum Hall Hcases.
  rewrite length_app in Hall.
  rewrite (wrap32_small (Z.of_nat (length R))) by (unfold in_int32; lia).
  set (L := Z.of_nat (length R)) in *.
  assert (HL : length R = Z.to_nat L) by (unfold L; lia).
  destruct (Z.gtb_spec n L) as [Hbig|Hsmall].
  - (* from lies beyond the rows: only possible when R is everything *)
    destruct Hcases as [->|Hle]; [|lia].
    rewrite app_nil_r.
    rewrite (wrap32_small (L + c)) by (unfold in_int32; lia).
    assert (Hcount : (if L + c >? L then wrap32 (L - L) else c) = 0).
    { destruct (Z.gtb_spec (L + c) L); [rewrite Z.sub_diag; reflexivity|lia]. }
    rewrite Hcount, Z.add_0_r.
    rewrite (wrap32_small L) by (unfold in_int32; lia).
    rewrite firstn_all2 by lia.
    rewrite !skipn_all2 by lia. rewrite firstn_nil. reflexivity.
  - rewrite (wrap32_small (n + c)) by (unfold in_int32; lia).
    destruct (Z.gtb_spec (n + c) L) as [Hshort|Hlong].
    + destruct Hcases as [->|Hle]; [|lia].
      rewrite app_nil_r.
      rewrite (wrap32_small (L - n)) by (unfold in_int32; lia).
      replace (n + (L - n)) with L by lia.
      rewrite (wrap32_small L) by (unfold in_int32; lia).
      rewrite firstn_all2 by lia.
      rewrite (firstn_all2 (n := Z.to_nat c)); [reflexivity|].
      rewrite length_skipn. lia.
    + rewrite (wrap32_small (n + c)) by (unfold in_int32; lia).
      rewrite take_drop_commute.
      rewrite <- Z2Nat.inj_add by lia.
      rewrite take_app_le by lia. reflexivity.
Qed.

(** Two continuations that agree on every value give the same result. *)
Lemma bind_ext {A B : Type} (c : Result A) (f g : A -> Result B) :
  (forall x, f x = g x) -> bind c f = bind c g.
Proof.
  intros Hfg. destruct c as [e|x]; [reflexivity|apply Hfg].
Qed.

Section Facts.

Variable WTx : Type.
Variable Row : Type.
Variable ListTransactions :
  WTx -> string -> Z -> bool -> isminefilter -> list Row.
Variable OrderedTxItems :
  string -> list (option WTx * option CAccountingEntry).

(** The loop with the early exit has collected the rows of a front part of
    the items, and either went through all of them or reached the limit. *)
Lemma collect_prefix account filter items : forall ret limit,
  exists done rest,
    items = done ++ rest
    /\ collect WTx Row ListTransactions account filter items ret limit
       = ret ++ flat_map (item_rows WTx Row ListTransactions account filter) done
    /\ (rest = []
        \/ limit <= wrap32 (Z.of_nat (length
             (ret ++ flat_map (item_rows WTx Row ListTransactions account filter)
                              done)))).
Proof.
  induction items as [|it items IH]; intros ret limit; cbn [collect].
  - exists [], []. simpl. rewrite app_nil_r. auto.
  - destruct (Z.geb_spec
                (wrap32 (Z.of_nat (length
                   (ret ++ item_rows WTx Row ListTransactions account filter it))))
                limit) as [Hfull|Hmore].
    + exists [it], items. simpl. rewrite app_nil_r. auto.
    + destruct (IH (ret ++ item_rows WTx Row ListTransactions account filter it)
                   limit) as (done & rest & -> & Hc & Hcases).
      exists (it :: done), rest. simpl. rewrite Hc, <- !app_assoc in *.
      auto.
Qed.

(** The loop hands the filter it is given to [ListTransactions], and
    nothing else. *)
Lemma collect_spendable_ext account items : forall ret limit,
  collect WTx Row
    (fun wtx account nMinDepth fLong _ =>
       ListTransactions wtx account nMinDepth fLong MINE_SPENDABLE)
    account MINE_SPENDABLE items ret limit
  = collect WTx Row ListTransactions account MINE_SPENDABLE items ret limit.
Proof.
  induction items as [|it items IH]; intros ret limit; cbn [collect].
  - reflexivity.
  - rewrite IH. reflexivity.
Qed.

(** X12: For a non-negative [count] and [from] whose sum fits an [int],
    [listtransactions] returns the rows [from .. from + count) counted from
    the newest, oldest first: stopping the loop early loses nothing.  A
    negative [count] or [from] is rejected. *)
Theorem listtransactions_page account nCount nFrom :
  in_int32 nCount -> in_int32 nFrom ->
  Z.of_nat (length (all_rows WTx Row ListTransactions OrderedTxItems account))
    < 2 ^ 31 ->
  (0 <= nCount -> 0 <= nFrom -> nCount + nFrom < 2 ^ 31 ->
   listtransactions WTx Row ListTransactions OrderedTxItems
     [str_type account; int_type nCount; int_type nFrom] false
   = inr (rev (firstn (Z.to_nat nCount)
                 (skipn (Z.to_nat nFrom)
                    (all_rows WTx Row ListTransactions OrderedTxItems
                              account)))))
  /\ (nCount < 0 ->
      listtransactions WTx Row ListTransactions OrderedTxItems
        [str_type account; int_type nCount; int_type nFrom] false
      = inl (JSONRPCError RPC_INVALID_PARAMETER "Negative count"))
  /\ (0 <= nCount -> nFrom < 0 ->
      listtransactions WTx Row ListTransactions OrderedTxItems
        [str_type account; int_type nCount; int_type nFrom] false
      = inl (JSONRPCError RPC_INVALID_PARAMETER "Negative from")).
Proof.
  intros Hci Hni Hall.
  unfold listtransactions, get_int32, at_.
  cbn [length Nat.ltb Nat.leb orb nth get_str get_int bind ok].
  rewrite (wrap32_small nCount), (wrap32_small nFrom) by assumption.
  split; [|split].
  - intros Hc Hn Hsum.
    destruct (Z.ltb_spec nCount 0); [lia|].
    destruct (Z.ltb_spec nFrom 0); [lia|].
    rewrite (wrap32_small (nCount + nFrom)) by (unfold in_int32; lia).
    destruct (collect_prefix account MINE_SPENDABLE
                (rev (OrderedTxItems account)) [] (nCount + nFrom))
      as (done & rest & Hsplit & Hcol & Hcases).
    rewrite Hcol. cbn [app] in *.
    unfold all_rows in *. rewrite Hsplit, flat_map_app in *.
    do 2 f_equal. apply page_slice; try assumption.
    destruct Hcases as [->|Hlim]; [left; reflexivity|right].
    rewrite length_app in Hall.
    rewrite wrap32_small in Hlim by (unfold in_int32; lia). exact Hlim.
  - intros Hc. destruct (Z.ltb_spec nCount 0); [reflexivity|lia].
  - intros Hc Hn. destruct (Z.ltb_spec nCount 0); [lia|].
    destruct (Z.ltb_spec nFrom 0); [reflexivity|lia].
Qed.

(** X13: [listtransactions] never asks for watch-only rows: a call with the
    fourth argument that would switch them on is turned away with the usage
    text, so every call that gets through runs [ListTransactions] with the
    spendable filter. *)
Theorem listtransactions_never_watch_only params fHelp :
  listtransactions WTx Row ListTransactions OrderedTxItems params fHelp
  = listtransactions WTx Row
      (fun wtx account nMinDepth fLong _ =>
         ListTransactions wtx account nMinDepth fLong MINE_SPENDABLE)
      OrderedTxItems params fHelp.
Proof.
  unfold listtransactions.
  destruct fHelp; [reflexivity|]. cbn [orb].
  destruct (3 <? length params)%nat; [reflexivity|].
  apply bind_ext; intros account.
  apply bind_ext; intros nCount.
  apply bind_ext; intros nFrom.
  cbn [bind ok].
  rewrite collect_spendable_ext. reflexivity.
Qed.

End Facts.

Lemma listtransactions_page_witness :
  listtransactions Z Z ListTransactions_ex items_ex
    [str_type "*"; int_type 1; int_type 1] false
  = inr [inr (mkAcRow "A" "move" 1700000000 5 "B" EmptyString)].
Proof.
  destruct (listtransactions_page Z Z ListTransactions_ex items_ex "*" 1 1)
    as [H _].
  - unfold in_int32; lia.
  - unfold in_int32; lia.
  - vm_compute. reflexivity.
  - rewrite H by lia. reflexivity.
Defined.

End WalletListsFacts.

(** ** The accounts [listaccounts] lists, and what [move] does to them *)

Module ListAccountsFacts.
Import Int IntFacts Rpc Accounting AccountingFacts AccountingOrder WalletLists.

Lemma add_to_lookup (m : gmap string Z) a x c :
  add_to m a x !! c
  = if String.eqb a c then Some (wrap64 (default 0 (m !! a) + x)) else m !! c.
Proof.
  unfold add_to. destruct (String.eqb_spec a c) as [->|Hne].
  - apply lookup_insert_eq.
  - apply lookup_insert_ne. exact Hne.
Qed.

Lemma add_to_self (m : gmap string Z) a x : is_Some (add_to m a x !! a).
Proof. rewrite add_to_lookup, String.eqb_refl. eauto. Qed.

Lemma add_to_keeps (m : gmap string Z) a x k :
  is_Some (m !! k) -> is_Some (add_to m a x !! k).
Proof.
  intros Hk. rewrite add_to_lookup. destruct (String.eqb a k); eauto.
Qed.

(** A loop whose body never drops the key [k] keeps it. *)
Lemma fold_left_keeps {B : Type} (f : gmap string Z -> B -> gmap string Z) k l :
  (forall m b, is_Some (m !! k) -> is_Some (f m b !! k)) ->
  forall m, is_Some (m !! k) -> is_Some (fold_left f l m !! k).
Proof.
  intros Hf. induction l as [|b l IH]; intros m Hm; simpl; auto.
Qed.

(** And it has the key once one pass has put it in. *)
Lemma fold_left_adds {B : Type} (f : gmap string Z -> B -> gmap string Z) k l b :
  (forall m b, is_Some (m !! k) -> is_Some (f m b !! k)) ->
  (forall m, is_Some (f m b !! k)) ->
  In b l -> forall m, is_Some (fold_left f l m !! k).
Proof.
  intros Hkeep Hadd. induction l as [|b' l IH]; intros Hin m; simpl.
  - destruct Hin.
  - destruct Hin as [->|Hin].
    + apply fold_left_keeps; [exact Hkeep|apply Hadd].
    + apply IH. exact Hin.
Qed.

Lemma add_entries_app m l1 l2 :
  add_entries m (l1 ++ l2) = add_entries (add_entries m l1) l2.
Proof. unfold add_entries. apply fold_left_app. Qed.

Section Facts.

Context {Address : Type} `{Countable Address}.
Variable IsMine : Address -> bool.

Lemma init_balances_keys (mapAddressBook : gmap Address string) address name :
  mapAddressBook !! address = Some name -> IsMine address = true ->
  is_Some (init_balances IsMine mapAddressBook !! name).
Proof.
  unfold init_balances. revert address name.
  apply (map_fold_weak_ind
           (fun (r : gmap string Z) (book : gmap Address string) =>
              forall address name,
                book !! address = Some name -> IsMine address = true ->
                is_Some (r !! name))).
  - intros address name Hl. rewrite lookup_empty in Hl. discriminate.
  - intros i x book r Hfresh IH address name Hl Hmine.
    destruct (decide (i = address)) as [->|Hne].
    + rewrite lookup_insert_eq in Hl. injection Hl as ->.
      rewrite Hmine. rewrite lookup_insert_eq. eauto.
    + rewrite lookup_insert_ne in Hl by exact Hne.
      specialize (IH address name Hl Hmine).
      destruct (IsMine i); [|exact IH].
      apply lookup_insert_is_Some'. right. exact IH.
Qed.

Lemma tally_tx_keeps (mapAddressBook : gmap Address string) nMinDepth filter
    m wtx k :
  is_Some (m !! k) ->
  is_Some (tally_tx mapAddressBook nMinDepth filter m wtx !! k).
Proof.
  intros Hk. unfold tally_tx.
  assert (Hsent :
    is_Some (fold_left
               (fun m s => add_to m (strSentAccount (GetAmounts wtx filter))
                                  (- snd s))
               (listSent (GetAmounts wtx filter))
               (add_to m (strSentAccount (GetAmounts wtx filter))
                       (- amounts_nFee (GetAmounts wtx filter))) !! k)).
  { apply fold_left_keeps; [intros; apply add_to_keeps; assumption|].
    apply add_to_keeps. exact Hk. }
  destruct (amounts_depth wtx >=? nMinDepth); [|exact Hsent].
  apply fold_left_keeps.
  - intros m' r Hm'. destruct (mapAddressBook !! r.1); apply add_to_keeps; exact Hm'.
  - apply add_to_keeps. exact Hsent.
Qed.

Lemma tally_tx_adds (mapAddressBook : gmap Address string) nMinDepth filter
    m wtx :
  is_Some (tally_tx mapAddressBook nMinDepth filter m wtx
             !! strSentAccount (GetAmounts wtx filter)).
Proof.
  unfold tally_tx.
  assert (Hsent :
    is_Some (fold_left
               (fun m s => add_to m (strSentAccount (GetAmounts wtx filter))
                                  (- snd s))
               (listSent (GetAmounts wtx filter))
               (add_to m (strSentAccount (GetAmounts wtx filter))
                       (- amounts_nFee (GetAmounts wtx filter)))
             !! strSentAccount (GetAmounts wtx filter))).
  { apply fold_left_keeps; [intros; apply add_to_keeps; assumption|].
    apply add_to_self. }
  destruct (amounts_depth wtx >=? nMinDepth); [|exact Hsent].
  apply fold_left_keeps.
  - intros m' r Hm'. destruct (mapAddressBook !! r.1); apply add_to_keeps; exact Hm'.
  - apply add_to_keeps. exact Hsent.
Qed.

(** What a call of [listaccounts] that gets past the argument checks
    computes: the filter is the spendable one. *)
Lemma listaccounts_ok (mapAddressBook : gmap Address string) mapWallet
    acentries params fHelp m :
  listaccounts IsMine mapAddressBook mapWallet acentries params fHelp = inr m ->
  exists nMinDepth,
    m = add_entries
          (fold_left (tally_tx mapAddressBook nMinDepth MINE_SPENDABLE)
                     mapWallet (init_balances IsMine mapAddressBook))
          acentries.
Proof.
  unfold listaccounts. destruct fHelp; [intros [=]|]. cbn [orb].
  destruct (1 <? length params)%nat; [intros [=]|].
  destruct (if (0 <? length params)%nat then get_int32 (at_ params 0) else ok 1)
    as [e|nMinDepth]; cbn [bind ok]; [intros [=]|].
  intros [= <-]. exists nMinDepth. reflexivity.
Qed.

(** X15: The object [listaccounts] returns has a key for every account that
    labels an address of the wallet's own, for the sending account of every
    wallet transaction (the default account included, whatever the
    transaction's depth), and for the account of every accounting entry. *)
Theorem listaccounts_keys (mapAddressBook : gmap Address string) mapWallet
    acentries params fHelp m :
  listaccounts IsMine mapAddressBook mapWallet acentries params fHelp = inr m ->
  (forall address name,
     mapAddressBook !! address = Some name -> IsMine address = true ->
     is_Some (m !! name))
  /\ (forall wtx, In wtx mapWallet ->
        is_Some (m !! strSentAccount (GetAmounts wtx MINE_SPENDABLE)))
  /\ (forall e, In e acentries -> is_Some (m !! strAccount e)).
Proof.
  intros Hok. apply listaccounts_ok in Hok as (nMinDepth & ->).
  unfold add_entries. split; [|split].
  - intros address name Hl Hmine.
    apply fold_left_keeps; [intros; apply add_to_keeps; assumption|].
    apply fold_left_keeps; [intros; apply tally_tx_keeps; assumption|].
    eapply init_balances_keys; eassumption.
  - intros wtx Hin.
    apply fold_left_keeps; [intros; apply add_to_keeps; assumption|].
    apply (fold_left_adds _ _ _ wtx); [| |exact Hin].
    + intros; apply tally_tx_keeps; assumption.
    + intros; apply tally_tx_adds.
  - intros e Hin.
    apply (fold_left_adds _ _ _ e); [| |exact Hin].
    + intros; apply add_to_keeps; assumption.
    + intros; apply add_to_self.
Qed.

(** X14: [listaccounts] never asks [GetAmounts] for watch-only amounts: a
    second argument, which would switch them on, is turned away with the
    usage text, so in every call that gets through each transaction is
    asked with the spendable filter. *)
Theorem listaccounts_never_watch_only (mapAddressBook : gmap Address string)
    mapWallet acentries params fHelp :
  listaccounts IsMine mapAddressBook mapWallet acentries params fHelp
  = listaccounts IsMine mapAddressBook
      (map (fun wtx =>
              mkAmountsTx (fun _ => GetAmounts wtx MINE_SPENDABLE)
                          (amounts_depth wtx))
           mapWallet)
      acentries params fHelp.
Proof.
  unfold listaccounts. destruct fHelp; [reflexivity|]. cbn [orb].
  destruct (1 <? length params)%nat; [reflexivity|].
  destruct (if (0 <? length params)%nat then get_int32 (at_ params 0) else ok 1)
    as [e|nMinDepth]; cbn [bind ok]; [reflexivity|].
  do 2 f_equal.
  generalize (init_balances IsMine mapAddressBook).
  induction mapWallet as [|wtx l IH]; intros m0; simpl; [reflexivity|].
  rewrite <- IH. reflexivity.
Qed.

Variable AmountFromValue : Value -> Result Z.
Variable nMinimumInputValue : Z.

(** X16: After a successful [move] of [X] from [a] to [b], [listaccounts] lists
    both accounts, each with the balance it showed before (zero if it was
    not listed) changed by the amount moved, in [int64_t] arithmetic; every
    other account is listed, or not, as before. *)
Theorem listaccounts_after_move db nNow w a b vX r w'
    (mapAddressBook : gmap Address string) mapWallet params fHelp m :
  movecmd AmountFromValue nMinimumInputValue db nNow w
          [str_type a; str_type b; vX] false = (inr r, w') ->
  listaccounts IsMine mapAddressBook mapWallet (Accounting.acentries w)
               params fHelp = inr m ->
  exists X m',
    AmountFromValue vX = inr X
    /\ listaccounts IsMine mapAddressBook mapWallet (Accounting.acentries w')
                    params fHelp = inr m'
    /\ forall c,
         m' !! c
         = if String.eqb a c || String.eqb b c
           then Some (wrap64 (default 0 (m !! c) + move_delta a b c X))
           else m !! c.
Proof.
  intros Hmove Hlist.
  apply movecmd_ok in Hmove as (X & HX & _ & He).
  exists X.
  exists (add_entries m
            [mkEntry (nOrderPosNext w) a (wrap64 (- X)) nNow b EmptyString;
             mkEntry (wrap64 (nOrderPosNext w + 1)) b X nNow a EmptyString]).
  split; [exact HX|]. split.
  - rewrite He. revert Hlist. unfold listaccounts.
    destruct fHelp; [intros [=]|]. cbn [orb].
    destruct (1 <? length params)%nat; [intros [=]|].
    destruct (if (0 <? length params)%nat
              then get_int32 (at_ params 0) else ok 1)
      as [e|nMinDepth]; cbn [bind ok]; [intros [=]|].
    intros [= <-]. rewrite add_entries_app. reflexivity.
  - intros c. unfold add_entries, move_delta.
    cbn [fold_left strAccount nCreditDebit].
    rewrite !add_to_lookup.
    destruct (String.eqb_spec a c) as [->|Hac],
             (String.eqb_spec b c) as [->|Hbc]; cbn [orb].
    + rewrite String.eqb_refl. cbn [default from_option id].
      rewrite wrap64_neg_cancel. do 2 f_equal. lia.
    + f_equal. rewrite wrap64_add_r. f_equal. lia.
    + destruct (String.eqb_spec a c) as [Heq|_]; [contradiction|].
      rewrite Z.add_0_l. reflexivity.
    + reflexivity.
Qed.

End Facts.

Lemma listaccounts_keys_witness :
  is_Some (balances_ex (Accounting.acentries wallet_ex1) !! "A"%string)
  /\ is_Some (balances_ex (Accounting.acentries wallet_ex1) !! EmptyString)
  /\ is_Some (balances_ex (Accounting.acentries wallet_ex1) !! "B"%string).
Proof.
  destruct (listaccounts_keys IsMine_ex book_ex mapWallet_ex
              (Accounting.acentries wallet_ex1) [] false
              (balances_ex (Accounting.acentries wallet_ex1)) eq_refl)
    as (Hbook & Htx & Hentry).
  split; [|split].
  - apply (Hbook 1 "A"%string); reflexivity.
  - apply (Htx (mkAmountsTx
                  (fun _ => mkAmounts 0 0 [(1, 50 * COIN_ex)] [] 0 EmptyString)
                  1)).
    left. reflexivity.
  - apply (Hentry (mkEntry 1 "B" (20 * COIN_ex) 1700000000 "A" EmptyString)).
    right. left. reflexivity.
Defined.

Lemma listaccounts_after_move_witness :
  exists m',
    listaccounts IsMine_ex book_ex mapWallet_ex
                 (Accounting.acentries wallet_ex1) [] false = inr m'
    /\ m' !! "B"%string
       = Some (wrap64 (default 0 (balances_ex [] !! "B"%string)
                       + move_delta "A" "B" "B" (20 * COIN_ex))).
Proof.
  destruct (listaccounts_after_move IsMine_ex AmountFromValue_ex 1 db_ok
              1700000000 wallet_ex "A" "B" (int_type 20) (bool_type true)
              wallet_ex1 book_ex mapWallet_ex [] false (balances_ex []))
    as (X & m' & HX & Hlist & Hc).
  - reflexivity.
  - reflexivity.
  - injection HX as <-. exists m'. split; [exact Hlist|]. apply (Hc "B"%string).
Defined.

End ListAccountsFacts.

(** ** The servers a walk of [GetExternalIPbySTUN] can reach *)

Module StunCoverFacts.
Import Int Stun StunFacts StunCover.

(** With a step coprime to the length [n] of the list, some probe among the
    first [n] lands on any given position. *)
Lemma coprime_step_reaches pos0 step n p :
  0 < n -> Z.gcd step n = 1 -> 0 <= p < n ->
  exists k, 1 <= k <= n /\ (pos0 + k * step) mod n = p.
Proof.
  intros Hn Hg Hp.
  destruct (Z.gcd_bezout step n 1 Hg) as (u & v & Huv).
  set (d := p - pos0).
  set (t := (d * u) mod n).
  assert (Ht : 0 <= t < n) by (apply Z.mod_pos_bound; exact Hn).
  assert (Hq : t = d * u - n * (d * u / n)) by (apply Z.mod_eq; lia).
  assert (Hus : u * step = 1 - v * n) by lia.
  assert (Hreach : forall e,
            (pos0 + (t + e * n) * step) mod n = p).
  { intros e.
    replace (pos0 + (t + e * n) * step)
      with (p + (e * step - d * u / n * step - d * v) * n).
    - rewrite Z_mod_plus_full. apply Z.mod_small. exact Hp.
    - rewrite Hq.
      replace (pos0 + (d * u - n * (d * u / n) + e * n) * step)
        with (pos0 + d * (u * step) + (e * step - d * u / n * step) * n)
        by ring.
      rewrite Hus. unfold d. ring. }
  destruct (Z.eq_dec t 0) as [H0|H0].
  - exists n. split; [lia|].
    specialize (Hreach 1). rewrite H0 in Hreach.
    rewrite <- Hreach. f_equal. lia.
  - exists t. split; [lia|].
    specialize (Hreach 0). rewrite <- Hreach. f_equal. lia.
Qed.

(** Every position of a walk differs from the start by a multiple of what
    the step and the length of the list have in common. *)
Lemma walk_pos_residue rnd step k :
  (Z.gcd step StunSrvListQty | walk_pos rnd step k - wrapu16 rnd).
Proof.
  unfold walk_pos. rewrite StunSrvListQty_eq.
  rewrite Z.mod_eq by lia.
  replace (wrapu16 rnd + k * step
           - 893 * ((wrapu16 rnd + k * step) / 893) - wrapu16 rnd)
    with (k * step - 893 * ((wrapu16 rnd + k * step) / 893)) by lia.
  apply Z.divide_sub_r.
  - apply Z.divide_mul_r. apply Z.gcd_divide_l.
  - apply Z.divide_mul_l. apply Z.gcd_divide_r.
Qed.

(** X17: The servers [GetExternalIPbySTUN] tries all lie at positions that differ
    from [(uint16_t) rnd] by a multiple of the greatest common divisor of
    the step and the length of the list; and when it gives up with [-1]
    after a step coprime to that length, it has tried every server of the
    list. *)
Theorem GetExternalIPbySTUN_coverage net rnd mapped srv :
  0 <= rnd < 2 ^ 64 ->
  exists rnd' step res,
    select_step 8 rnd = Some (rnd', step)
    /\ GetExternalIPbySTUN net rnd mapped srv = Some res
    /\ (forall p, In p (probed res) ->
          (Z.gcd step StunSrvListQty | p - wrapu16 rnd))
    /\ (retval res = -1 -> Z.gcd step StunSrvListQty = 1 ->
        forall p, 0 <= p < StunSrvListQty -> In p (probed res)).
Proof.
  intros Hr.
  destruct (GetExternalIPbySTUN_spec net rnd mapped srv Hr)
    as (rnd' & step & res & Hsel & Hstep & Hres & Hlen & Hw & Hcases).
  exists rnd', step, res. split; [exact Hsel|]. split; [exact Hres|]. split.
  - intros p Hp. apply (In_nth _ _ 0) in Hp as (k & Hk & <-).
    rewrite Hw by exact Hk. apply walk_pos_residue.
  - intros Hret Hg p Hp.
    destruct Hcases as [(_ & Hfull & _)|(Hpos & _)]; [|lia].
    pose proof StunSrvListQty_eq as HQ.
    destruct (coprime_step_reaches (wrapu16 rnd) step StunSrvListQty p)
      as (k & Hk & Hreach); [lia|exact Hg|exact Hp|].
    assert (Hidx : (Z.to_nat (k - 1) < length (probed res))%nat) by lia.
    pose proof (Hw _ Hidx) as Hnth.
    replace (Z.of_nat (Z.to_nat (k - 1)) + 1) with k in Hnth by lia.
    unfold walk_pos in Hnth. rewrite Hreach in Hnth.
    rewrite <- Hnth. apply nth_In. exact Hidx.
Qed.

(** On a network where nothing answers, the entropy value [rnd_short]
    makes the walk stay on positions six more than a multiple of 19. *)
Lemma GetExternalIPbySTUN_coverage_witness :
  exists res,
    GetExternalIPbySTUN net_down rnd_short mapped_ex None = Some res
    /\ retval res = -1
    /\ forall p, In p (probed res) -> (19 | p - wrapu16 rnd_short).
Proof.
  destruct (GetExternalIPbySTUN_coverage net_down rnd_short mapped_ex None)
    as (rnd' & step & res & Hsel & Hres & Hdiv & _).
  - vm_compute. intuition congruence.
  - exists res. split; [exact Hres|].
    vm_compute in Hsel. injection Hsel as _ <-.
    split; [|exact Hdiv].
    vm_compute in Hres. injection Hres as <-. reflexivity.
Defined.

End StunCoverFacts.
